(** * Mohan AI chat client: request orchestration and streaming reveal

    A shallow embedding of [src/app.js]: the [RequestManager] class
    (deduplication and timeout bookkeeping), the HTTP response handling of
    the three backend calls, and the parts of [MohanAIChatApp] that own the
    message list ([sendMessage], [callChatAPI], [_streamMessage],
    [addMessage], [loadSavedState], [retryMessage]).

    Conventions.
    - A JavaScript string is a Rocq [string]; one [ascii] stands for one
      code unit.
    - [Date.now()] is an input of the function that reads it: every reading
      is a separate [Z] argument, so nothing is assumed about the clock.
    - An [async] function is split at its [await]: the synchronous part up
      to the [await] is one state transformer, the continuation is another,
      and the event loop is a step relation that picks which one runs.
    - What the browser answers is an input as well: whether [loadModels]
      got the list of models, and whether an access to [localStorage]
      returns or throws. *)

From Stdlib Require Import ZArith Ascii String Sorted.
From stdpp Require Import base gmap strings pretty list.

Local Open Scope Z_scope.
Set Warnings "-register-all".

(** ** JavaScript strings *)

Module JS.

(** [s.includes(sub)] *)
Definition includes (sub s : string) : bool :=
  match String.index 0 sub s with
  | Some _ => true
  | None => false
  end.

(** [s.startsWith(p)] *)
Definition startsWith (p s : string) : bool := String.prefix p s.

(** White space removed by [String.prototype.trim], as far as one unit of
    eight bits can hold it: TAB, LF, VT, FF, CR, SPACE and NO-BREAK SPACE. *)
Definition is_space (c : ascii) : bool :=
  Ascii.is_space c || Ascii.eqb c (ascii_of_nat 160).

Fixpoint trimStart (s : string) : string :=
  match s with
  | EmptyString => EmptyString
  | String c r => if is_space c then trimStart r else s
  end.

(** Drops the trailing white space: a character is kept when it is not a
    space or when something is kept after it. *)
Fixpoint trimEnd (s : string) : string :=
  match s with
  | EmptyString => EmptyString
  | String c r =>
      match trimEnd r with
      | EmptyString => if is_space c then EmptyString else String c EmptyString
      | r' => String c r'
      end
  end.

(** [s.trim()] *)
Definition trim (s : string) : string := trimEnd (trimStart s).

(** A string in a boolean context: [""] is falsy. *)
Definition truthy (s : string) : bool :=
  match s with
  | EmptyString => false
  | _ => true
  end.

(** [s.charAt(i)]: the one-unit string at [i], [""] out of range. *)
Definition charAt (i : nat) (s : string) : string :=
  match String.get i s with
  | Some c => String c EmptyString
  | None => EmptyString
  end.

(** An integer [Number] converted to a string, as in ['chat-' + Date.now()]
    or a template literal. *)
Definition of_int (z : Z) : string := pretty z.

(** ** JSON values and what the code reads from them *)

Inductive json : Type :=
| JNull
| JBool (b : bool)
| JNum (z : Z)
| JStr (s : string)
| JArr (l : list json)
| JObj (fields : list (string * json)).

(** A JavaScript value as far as the code meets one: [undefined] or a value
    that came out of [JSON.parse]. *)
Inductive value : Type :=
| Undefined
| Val (j : json).

Fixpoint assoc (k : string) (fields : list (string * json)) : option json :=
  match fields with
  | [] => None
  | (k', v) :: r => if String.eqb k k' then Some v else assoc k r
  end.

Fixpoint join (sep : string) (l : list string) : string :=
  match l with
  | [] => EmptyString
  | [x] => x
  | x :: r => x +:+ sep +:+ join sep r
  end.

(** [String(v)], the conversion a template literal applies. *)
Fixpoint json_to_string (j : json) : string :=
  match j with
  | JNull => "null"
  | JBool true => "true"
  | JBool false => "false"
  | JNum z => of_int z
  | JStr s => s
  | JArr l =>
      join "," (List.map (fun x => match x with
                                   | JNull => EmptyString
                                   | _ => json_to_string x
                                   end) l)
  | JObj _ => "[object Object]"
  end.

Definition to_string (v : value) : string :=
  match v with
  | Undefined => "undefined"
  | Val j => json_to_string j
  end.

(** [v] in a boolean context. *)
Definition value_truthy (v : value) : bool :=
  match v with
  | Undefined | Val JNull | Val (JBool false) => false
  | Val (JNum z) => negb (z =? 0)
  | Val (JStr s) => truthy s
  | _ => true
  end.

(** An [Error] object: its [name] and [message]. *)
Record Error : Type := mkError { name : string; message : string }.

(** [new Error(msg)] *)
Definition new_Error (msg : string) : Error := mkError "Error" msg.

(** [v.field]: reading a property of [undefined] or [null] throws a
    [TypeError]; a missing property, or any property of a primitive or an
    array that the code asks for, is [undefined]. *)
Definition get_prop (v : value) (field : string) : Error + value :=
  match v with
  | Undefined =>
      inl (mkError "TypeError" ("Cannot read properties of undefined (reading '" +:+ field +:+ "')"))
  | Val JNull =>
      inl (mkError "TypeError" ("Cannot read properties of null (reading '" +:+ field +:+ "')"))
  | Val (JObj fields) =>
      inr (match assoc field fields with
           | Some j => Val j
           | None => Undefined
           end)
  | Val _ => inr Undefined
  end.

(** How a promise ends. *)
Inductive outcome (A : Type) : Type :=
| Fulfilled (v : A)
| Rejected (e : Error).
Arguments Fulfilled {A} v.
Arguments Rejected {A} e.

End JS.

Import JS.

(** ** RequestManager

    [Op] describes what a [requestFn] does when it is called (the request
    it sends); [Res] is what its promise resolves to.  One fresh number [p]
    names everything [makeRequest] creates for a new key: the
    [AbortController], the timer handle [timeoutId] and [requestPromise]. *)

Module RequestManager.

Definition CONFIG_API_timeout : Z := 15000.

(** What a call to [makeRequest] hands back: the stored promise (the early
    [return this.activeRequests.get(key)]) or the promise it created. *)
Inductive ticket : Type :=
| Joined (p : nat)
| Started (p : nat).

Definition promise_of (t : ticket) : nat :=
  match t with
  | Joined p | Started p => p
  end.

Section Manager.
Context {Op Res : Type}.

Record state : Type := mkState {
  activeRequests : gmap string nat;   (* this.activeRequests: key to requestPromise *)
  timers : gmap nat Z;                (* armed setTimeout handles and their delay *)
  aborted : gset nat;                 (* controllers on which abort() was called *)
  running : gmap nat Op;              (* requestFn promises not settled yet *)
  settled : gmap nat (outcome Res);   (* requestPromises that have settled *)
  awaiting : gmap nat string;         (* calls suspended at [await requestPromise], with their key *)
  invoked : list (nat * Op);          (* every call of a requestFn, latest first *)
  cleaned : list nat;                 (* every run of the [finally] block, latest first *)
  next_id : nat
}.

(** [constructor()] *)
Definition init : state :=
  mkState ∅ ∅ ∅ ∅ ∅ ∅ [] [] 0%nat.

(** [options.timeout || CONFIG.API.timeout] *)
Definition timeout_of (options : option Z) : Z :=
  match options with
  | Some t => if t =? 0 then CONFIG_API_timeout else t
  | None => CONFIG_API_timeout
  end.

(** [makeRequest(key, requestFn, options)] up to its [await]: the early
    return for a key that is present; otherwise the controller, the timer,
    the synchronous call of [requestFn] inside [executeRequest], and the
    new entry. *)
Definition makeRequest (key : string) (requestFn : Op) (options : option Z)
    (s : state) : state * ticket :=
  match activeRequests s !! key with
  | Some p => (s, Joined p)
  | None =>
      let p := next_id s in
      (mkState (<[key := p]> (activeRequests s))
               (<[p := timeout_of options]> (timers s))
               (aborted s)
               (<[p := requestFn]> (running s))
               (settled s)
               (<[p := key]> (awaiting s))
               ((p, requestFn) :: invoked s)
               (cleaned s)
               (S p),
       Started p)
  end.

(** The timer callback: [controller.abort()]. *)
Definition timer_fire (p : nat) (s : state) : state :=
  mkState (activeRequests s) (delete p (timers s)) ({[p]} ∪ aborted s)
          (running s) (settled s) (awaiting s) (invoked s) (cleaned s) (next_id s).

(** The [catch] of [executeRequest]: what the error is turned into. *)
Definition classify (error : Error) : Error :=
  if String.eqb (name error) "AbortError" then new_Error "timeout"
  else if truthy (message error) && includes "Failed to fetch" (message error)
       then new_Error "network"
       else error.

(** [executeRequest] after [await requestFn(signal)]: both branches clear
    the timer; the outcome of [requestPromise] is the result or the
    classified error. *)
Definition executeRequest_outcome (o : outcome Res) : outcome Res :=
  match o with
  | Fulfilled result => Fulfilled result
  | Rejected error => Rejected (classify error)
  end.

Definition executeRequest_resume (p : nat) (o : outcome Res) (s : state) : state :=
  mkState (activeRequests s) (delete p (timers s)) (aborted s)
          (delete p (running s)) (<[p := executeRequest_outcome o]> (settled s))
          (awaiting s) (invoked s) (cleaned s) (next_id s).

(** The [finally] block of [makeRequest]:
    [clearTimeout(timeoutId); this.activeRequests.delete(key)]. *)
Definition makeRequest_finally (p : nat) (key : string) (s : state) : state :=
  mkState (delete key (activeRequests s)) (delete p (timers s)) (aborted s)
          (running s) (settled s) (delete p (awaiting s)) (invoked s)
          (p :: cleaned s) (next_id s).

(** [makeRequest] after [await requestPromise]: [try] returns the result,
    [catch] throws the error again, and [finally] runs in both cases. *)
Definition makeRequest_resume (p : nat) (key : string) (o : outcome Res)
    (s : state) : state * outcome Res :=
  match o with
  | Fulfilled result => (makeRequest_finally p key s, Fulfilled result)
  | Rejected error => (makeRequest_finally p key s, Rejected error)
  end.

(** What the caller of a joined call gets: the async function returned the
    stored promise, so its own promise follows it. *)
Definition joined_outcome (p : nat) (s : state) : option (outcome Res) :=
  settled s !! p.

(** [cancelAllRequests()] *)
Definition cancelAllRequests (s : state) : state :=
  mkState ∅ (timers s) (aborted s) (running s) (settled s) (awaiting s)
          (invoked s) (cleaned s) (next_id s).

(** The event loop: which piece of code runs next. *)
Inductive event : Type :=
| Submit (key : string) (requestFn : Op) (options : option Z)
| OpSettles (p : nat) (o : outcome Res)
| Resumes (p : nat)
| TimerFires (p : nat)
| CancelAll.

Inductive step : state -> event -> state -> Prop :=
| step_submit s key requestFn options :
    step s (Submit key requestFn options) (makeRequest key requestFn options s).1
| step_settle s p requestFn o :
    running s !! p = Some requestFn ->
    step s (OpSettles p o) (executeRequest_resume p o s)
| step_resume s p key o :
    awaiting s !! p = Some key ->
    settled s !! p = Some o ->
    step s (Resumes p) (makeRequest_resume p key o s).1
| step_timer s p delay :
    timers s !! p = Some delay ->
    step s (TimerFires p) (timer_fire p s)
| step_cancel s :
    step s CancelAll (cancelAllRequests s).

Inductive reachable : state -> Prop :=
| reachable_init : reachable init
| reachable_step s e s' : reachable s -> step s e s' -> reachable s'.

(** Any number of steps of the event loop. *)
Inductive steps : state -> state -> Prop :=
| steps_refl s : steps s s
| steps_next s e s' s'' : step s e s' -> steps s' s'' -> steps s s''.

(** What holds of the bookkeeping in every state the event loop reaches. *)
Record consistent (s : state) : Prop := mkConsistent {
  entry_awaited : forall key p,
    activeRequests s !! key = Some p -> awaiting s !! p = Some key;
  timer_running : forall p delay,
    timers s !! p = Some delay -> is_Some (running s !! p);
  running_awaited : forall p requestFn,
    running s !! p = Some requestFn ->
    is_Some (awaiting s !! p) /\ settled s !! p = None;
  awaited_known : forall p key,
    awaiting s !! p = Some key -> (p < next_id s)%nat;
  settled_known : forall p o,
    settled s !! p = Some o -> (p < next_id s)%nat;
  finally_count : forall p,
    count_occ Nat.eq_dec (cleaned s) p =
    if bool_decide ((p < next_id s)%nat /\ awaiting s !! p = None)
    then 1%nat else 0%nat
}.

End Manager.

Arguments state : clear implicits.

End RequestManager.

(** ** The HTTP calls: what each [requestFn] makes of the response *)

Module Executor.

(** A [Response]: its status and what [res.json()] gives, a parsed body or
    the error it rejects with. *)
Record Response : Type := mkResponse {
  status : Z;
  body : Error + json
}.

(** [res.ok] *)
Definition ok (res : Response) : bool :=
  (200 <=? status res) && (status res <=? 299).

(** What [await fetch(url, ...)] gives: a response, or the rejection
    (no connection, or the signal was aborted). *)
Inductive fetched : Type :=
| Responded (res : Response)
| Failed (error : Error).

(** The [if (!res.ok)] block shared by the three calls:
    [const errorData = await res.json();
     throw new Error(`HTTP ${res.status}: ${errorData.detail}`)]. *)
Definition http_error (res : Response) : Error :=
  match body res with
  | inl parse_error => parse_error
  | inr errorData =>
      match get_prop (Val errorData) "detail" with
      | inl type_error => type_error
      | inr detail =>
          new_Error ("HTTP " +:+ of_int (status res) +:+ ": " +:+ to_string detail)
      end
  end.

(** The error that stands for [ServerError{status, detail}]: the one whose
    message is [HTTP <status>: <detail>]. *)
Definition ServerError (status : Z) (detail : string) : Error :=
  new_Error ("HTTP " +:+ of_int status +:+ ": " +:+ detail).

(** The [requestFn] of [callChatAPI] after its [fetch]. *)
Definition chat_requestFn (r : fetched) : outcome value :=
  match r with
  | Failed error => Rejected error
  | Responded res =>
      if negb (ok res) then Rejected (http_error res)
      else
        match body res with
        | inl parse_error => Rejected parse_error
        | inr data =>
            match get_prop (Val data) "response" with
            | inl type_error => Rejected type_error
            | inr response =>
                match get_prop response "content" with
                | inl type_error => Rejected type_error
                | inr content =>
                    Fulfilled (if value_truthy content then content
                               else Val (JStr "No response received"))
                end
            end
        end
  end.

(** The [requestFn] of [callUploadAndChatAPI] and of [callTranscribeAPI]
    after its [fetch]: [return res.json()]. *)
Definition json_requestFn (r : fetched) : outcome value :=
  match r with
  | Failed error => Rejected error
  | Responded res =>
      if negb (ok res) then Rejected (http_error res)
      else
        match body res with
        | inl parse_error => Rejected parse_error
        | inr data => Fulfilled (Val data)
        end
  end.

(** [return response.response.content] of [callUploadAndChatAPI]. *)
Definition upload_return (o : outcome value) : outcome value :=
  match o with
  | Rejected error => Rejected error
  | Fulfilled response =>
      match get_prop response "response" with
      | inl type_error => Rejected type_error
      | inr inner =>
          match get_prop inner "content" with
          | inl type_error => Rejected type_error
          | inr content => Fulfilled content
          end
      end
  end.

(** [return response.transcription] of [callTranscribeAPI]. *)
Definition transcribe_return (o : outcome value) : outcome value :=
  match o with
  | Rejected error => Rejected error
  | Fulfilled response =>
      match get_prop response "transcription" with
      | inl type_error => Rejected type_error
      | inr transcription => Fulfilled transcription
      end
  end.

(** Two responses with status 500: one with the body [{"detail": "boom"}],
    one with a body that is not JSON, for which [res.json()] rejects. *)
Definition boom_500 : Response :=
  mkResponse 500 (inr (JObj [("detail", JStr "boom")])).

Definition not_json : Error :=
  mkError "SyntaxError" "Unexpected token < in JSON at position 0".

Definition html_500 : Response := mkResponse 500 (inl not_json).

(** A response with status 500 whose [detail] holds the words of a failed
    [fetch]. *)
Definition upstream_500 : Response :=
  mkResponse 500 (inr (JObj [("detail", JStr "Failed to fetch upstream")])).

End Executor.

(** ** MohanAIChatApp *)

Module App.

Import RequestManager.

Record File : Type := mkFile {
  file_name : string;
  file_size : Z;
  file_type : string
}.

Record Model : Type := mkModel { model_id : string }.

(** The [options] spread into a message, and the fields [renderMessage] and
    [retryMessage] read from one. *)
Record Options : Type := mkOptions {
  error : bool;
  canRetry : bool;
  originalMessage : option string;
  cancelled : bool
}.

Definition no_options : Options := mkOptions false false None false.

(** A message object.  [m_ref] is not a field of the object: it is the
    identity of the object, which tells the one a typing loop holds from
    copies of it. *)
Record Message : Type := mkMessage {
  m_ref : nat;
  m_id : Z;
  m_type : string;
  m_content : string;
  m_timestamp : Z;
  m_options : Options
}.

(** One element of the [history] array of a chat request. *)
Record HistoryEntry : Type := mkEntry {
  role : string;
  content : string;
  timestamp : Z
}.

(** What each [requestFn] sends. *)
Inductive Request : Type :=
| ChatRequest (model message conversation_id : string) (history : list HistoryEntry)
| UploadRequest (file : File) (message model : string)
| TranscribeRequest (audio_file : File)
| NoRequest (thrown : Error).   (* the requestFn throws before its fetch *)

(** [localStorage]: ['selectedModel'] and ['chatMessages'], the latter as
    [JSON.parse] would see it (a list of messages, or the error it throws). *)
Record Storage : Type := mkStorage {
  selectedModel : option string;
  chatMessages : option (Error + list Message)
}.

Record state : Type := mkApp {
  messageInput : option string;      (* the textarea, when present, and its value *)
  currentModel : option Model;
  models : list Model;
  isLoading : bool;
  loadingTimer : bool;               (* the watchdog of showLoading is armed *)
  attachedFile : option File;
  messages : list Message;
  messageIdCounter : Z;
  next_ref : nat;                    (* message objects created so far *)
  conversationId : string;
  requestManager : RequestManager.state Request value;
  errorModal : option string;        (* the text showError displays *)
  localStorage : Storage
}.

(** The constructor, before [initialize] runs. *)
Definition new_app (input : option string) (conversation : string)
    (store : Storage) : state :=
  mkApp input None [] false false None [] 0 0%nat conversation
        RequestManager.init None store.

Definition set_messageInput (v : option string) (st : state) : state :=
  mkApp v (currentModel st) (models st) (isLoading st) (loadingTimer st)
        (attachedFile st) (messages st) (messageIdCounter st) (next_ref st)
        (conversationId st) (requestManager st) (errorModal st) (localStorage st).

Definition set_currentModel (v : option Model) (st : state) : state :=
  mkApp (messageInput st) v (models st) (isLoading st) (loadingTimer st)
        (attachedFile st) (messages st) (messageIdCounter st) (next_ref st)
        (conversationId st) (requestManager st) (errorModal st) (localStorage st).

Definition set_models (v : list Model) (st : state) : state :=
  mkApp (messageInput st) (currentModel st) v (isLoading st) (loadingTimer st)
        (attachedFile st) (messages st) (messageIdCounter st) (next_ref st)
        (conversationId st) (requestManager st) (errorModal st) (localStorage st).

Definition set_isLoading (v : bool) (st : state) : state :=
  mkApp (messageInput st) (currentModel st) (models st) v (loadingTimer st)
        (attachedFile st) (messages st) (messageIdCounter st) (next_ref st)
        (conversationId st) (requestManager st) (errorModal st) (localStorage st).

Definition set_loadingTimer (v : bool) (st : state) : state :=
  mkApp (messageInput st) (currentModel st) (models st) (isLoading st) v
        (attachedFile st) (messages st) (messageIdCounter st) (next_ref st)
        (conversationId st) (requestManager st) (errorModal st) (localStorage st).

Definition set_attachedFile (v : option File) (st : state) : state :=
  mkApp (messageInput st) (currentModel st) (models st) (isLoading st)
        (loadingTimer st) v (messages st) (messageIdCounter st) (next_ref st)
        (conversationId st) (requestManager st) (errorModal st) (localStorage st).

Definition set_messages (v : list Message) (st : state) : state :=
  mkApp (messageInput st) (currentModel st) (models st) (isLoading st)
        (loadingTimer st) (attachedFile st) v (messageIdCounter st) (next_ref st)
        (conversationId st) (requestManager st) (errorModal st) (localStorage st).

Definition set_requestManager (v : RequestManager.state Request value)
    (st : state) : state :=
  mkApp (messageInput st) (currentModel st) (models st) (isLoading st)
        (loadingTimer st) (attachedFile st) (messages st) (messageIdCounter st)
        (next_ref st) (conversationId st) v (errorModal st) (localStorage st).

Definition set_errorModal (v : option string) (st : state) : state :=
  mkApp (messageInput st) (currentModel st) (models st) (isLoading st)
        (loadingTimer st) (attachedFile st) (messages st) (messageIdCounter st)
        (next_ref st) (conversationId st) (requestManager st) v (localStorage st).

Definition set_localStorage (v : Storage) (st : state) : state :=
  mkApp (messageInput st) (currentModel st) (models st) (isLoading st)
        (loadingTimer st) (attachedFile st) (messages st) (messageIdCounter st)
        (next_ref st) (conversationId st) (requestManager st) (errorModal st) v.

Definition ERROR_MESSAGES_timeout : string :=
  "Request timed out after 15 seconds. Please try again.".
Definition ERROR_MESSAGES_network : string :=
  "Unable to connect to backend. Please check your backend is running.".
Definition ERROR_MESSAGES_serverError : string :=
  "Backend server error. The response may be incomplete.".

(** [JSON.parse] builds new objects: the loaded messages get identities of
    their own. *)
Definition with_ref (r : nat) (m : Message) : Message :=
  mkMessage r (m_id m) (m_type m) (m_content m) (m_timestamp m) (m_options m).

Fixpoint fresh_objects (r : nat) (l : list Message) : list Message :=
  match l with
  | [] => []
  | m :: l' => with_ref r m :: fresh_objects (S r) l'
  end.

(** [localStorage] may refuse the page: [setItem] throws when the quota is
    reached, and every access throws when the storage is blocked.  What the
    browser does is an argument of the function that asks: [accepts key]
    tells whether [setItem(key, _)] returns, [reads] whether the [getItem]
    calls return, [removes] whether [removeItem] returns. *)
Definition stores_all : string -> bool := fun _ => true.
Definition stores_none : string -> bool := fun _ => false.

(** The body of the [try] of [loadSavedState()], when [getItem] returns. *)
Definition loadSavedState_body (st : state) : state :=
  let st1 :=
    match selectedModel (localStorage st) with
    | Some savedModelId =>
        if truthy savedModelId then
          match List.find (fun m => String.eqb (model_id m) savedModelId) (models st) with
          | Some savedModel => set_currentModel (Some savedModel) st
          | None => st
          end
        else st
    | None => st
    end in
  match chatMessages (localStorage st1) with
  | Some (inr saved) =>
      mkApp (messageInput st1) (currentModel st1) (models st1) (isLoading st1)
            (loadingTimer st1) (attachedFile st1)
            (fresh_objects (next_ref st1) saved) (messageIdCounter st1)
            (next_ref st1 + length saved)%nat
            (conversationId st1) (requestManager st1) (errorModal st1)
            (localStorage st1)
  | Some (inl _) => set_messages [] st1
  | None => st1
  end.

(** [loadSavedState()]: when [getItem] throws, the [catch] logs a warning
    and nothing is loaded. *)
Definition loadSavedState (reads : bool) (st : state) : state :=
  if reads then loadSavedState_body st else st.

(** [saveState()]: the [try] block ends at the first [setItem] that
    throws, and the [catch] logs a warning.  The model is written first,
    when there is one; then the messages. *)
Definition saveState (accepts : string -> bool) (st : state) : state :=
  let store := localStorage st in
  let model_written :=                 (* [None]: [setItem] has thrown *)
    match currentModel st with
    | Some m =>
        if accepts "selectedModel"
        then Some (mkStorage (Some (model_id m)) (chatMessages store))
        else None
    | None => Some store
    end in
  match model_written with
  | Some store1 =>
      if accepts "chatMessages"
      then set_localStorage
             (mkStorage (selectedModel store1) (Some (inr (messages st)))) st
      else set_localStorage store1 st
  | None => st
  end.

(** [addMessage(type, content, options)]; [now] is its [Date.now()]. *)
Definition addMessage (now : Z) (type content : string) (options : Options)
    (st : state) : state :=
  let messageId := messageIdCounter st + 1 in
  let message := mkMessage (next_ref st) messageId type content now options in
  mkApp (messageInput st) (currentModel st) (models st) (isLoading st)
        (loadingTimer st) (attachedFile st)
        (messages st ++ [message]) messageId (S (next_ref st))
        (conversationId st) (requestManager st) (errorModal st) (localStorage st).

(** [showLoading(text, subtext)]: when [isLoading] is already set only the
    two texts change. *)
Definition showLoading (st : state) : state :=
  if isLoading st then st
  else set_loadingTimer true (set_isLoading true st).

(** [hideLoading()] *)
Definition hideLoading (st : state) : state :=
  set_loadingTimer false (set_isLoading false st).

(** [showError(message)] *)
Definition showError (text : string) (st : state) : state :=
  set_errorModal (Some text) st.

(** [clearChat()] *)
Definition clearChat (accepts : string -> bool) (st : state) : state :=
  saveState accepts (set_attachedFile None (set_messages [] st)).

(** [selectModel(model)]: [clearChat()] saves, then [saveState()] again. *)
Definition selectModel (cleared saved : string -> bool) (model : Model)
    (st : state) : state :=
  saveState saved (clearChat cleared (set_currentModel (Some model) st)).

(** [initialize()].  When [loadModels] has got the list [data_models]:
    [this.models = data.models], then [loadSavedState()].  When it has
    failed, with no answer or with a status that is not ok, the [catch]
    sets [this.models = []] and [loadSavedState] is not called. *)
Definition initialize (loaded : Error + list Model) (reads : bool)
    (st : state) : state :=
  match loaded with
  | inr data_models => loadSavedState reads (set_models data_models st)
  | inl _ => set_models [] st
  end.

(** The click handler of the cancel button. *)
Definition cancelLoading (now : Z) (st : state) : state :=
  let st1 := set_requestManager (cancelAllRequests (requestManager st)) st in
  addMessage now "ai" "Operation was cancelled by user."
             (mkOptions false false None true) (hideLoading st1).

(** The key each call passes to [makeRequest]. *)
Definition requestKey (prefix : string) (now : Z) : string :=
  prefix +:+ of_int now.

(** The [history] of [callChatAPI]:
    [this.messages.filter(m => m.type !== 'file-attachment').slice(-10)
       .map(m => ({ role: m.type, content: m.content, timestamp: m.timestamp }))]. *)
Definition not_file_attachment (m : Message) : bool :=
  negb (String.eqb (m_type m) "file-attachment").

(** [l.slice(-n)] *)
Definition slice_last {A : Type} (n : nat) (l : list A) : list A :=
  drop (length l - n)%nat l.

Definition history_entry (m : Message) : HistoryEntry :=
  mkEntry (m_type m) (m_content m) (m_timestamp m).

Definition chat_history (msgs : list Message) : list HistoryEntry :=
  List.map history_entry (slice_last 10 (List.filter not_file_attachment msgs)).

Definition null_id_error : Error :=
  mkError "TypeError" "Cannot read properties of null (reading 'id')".

(** The body the [requestFn] of [callChatAPI] builds when it is called. *)
Definition chat_request (message : string) (st : state) : Request :=
  match currentModel st with
  | Some m => ChatRequest (model_id m) message (conversationId st)
                          (chat_history (messages st))
  | None => NoRequest null_id_error
  end.

(** [callChatAPI(message)] up to the [await] inside [makeRequest]. *)
Definition callChatAPI (now : Z) (message : string) (st : state)
    : state * ticket :=
  let (rm, t) := makeRequest (requestKey "chat-" now) (chat_request message st)
                             None (requestManager st) in
  (set_requestManager rm st, t).

(** [callUploadAndChatAPI(file, message)]: the form is filled before
    [makeRequest] is reached, so a missing model ends the call there. *)
Definition callUploadAndChatAPI (now : Z) (file : File) (message : string)
    (st : state) : state * (Error + ticket) :=
  match currentModel st with
  | None => (st, inl null_id_error)
  | Some m =>
      let (rm, t) := makeRequest (requestKey "upload-" now)
                                 (UploadRequest file message (model_id m))
                                 None (requestManager st) in
      (set_requestManager rm st, inr t)
  end.

(** [callTranscribeAPI(file)] *)
Definition callTranscribeAPI (now : Z) (file : File) (st : state)
    : state * ticket :=
  let (rm, t) := makeRequest (requestKey "transcribe-" now)
                             (TranscribeRequest file) None (requestManager st) in
  (set_requestManager rm st, t).

(** Which branch of [sendMessage] is waiting. *)
Inductive route : Type := Transcribe | Upload | Chat.

Section SendMessage.

(** [formatFileSize] works on floating-point numbers; only the text it
    returns matters here. *)
Variable formatFileSize : Z -> string.

(** [sendMessage()] up to its first [await].  [None] is the early
    [return]; otherwise the branch taken and what the call gave.  The three
    readings of the clock are those of the two [addMessage] and of the key. *)
Definition sendMessage (t_file t_text t_key : Z) (st : state)
    : state * option (route * (Error + ticket)) :=
  match messageInput st, currentModel st with
  | Some input_value, Some _ =>
      if isLoading st then (st, None)
      else
        let text := trim input_value in
        let file := attachedFile st in
        if negb (truthy text) && negb (bool_decide (is_Some file)) then (st, None)
        else
          let st1 := set_isLoading true st in
          let st2 :=
            match file with
            | Some f =>
                addMessage t_file "user"
                  ("📄 " +:+ file_name f +:+ " (" +:+ formatFileSize (file_size f) +:+ ")")
                  no_options st1
            | None => st1
            end in
          let st3 := if truthy text then addMessage t_text "user" text no_options st2
                     else st2 in
          let st4 := set_attachedFile None (set_messageInput (Some "") st3) in
          let st5 := showLoading st4 in
          match file with
          | Some f =>
              if startsWith "audio" (file_type f) then
                let (st6, t) := callTranscribeAPI t_key f (showLoading st5) in
                (st6, Some (Transcribe, inr t))
              else
                let (st6, r) := callUploadAndChatAPI t_key f text st5 in
                (st6, Some (Upload, r))
          | None =>
              let (st6, t) := callChatAPI t_key text st5 in
              (st6, Some (Chat, inr t))
          end
  | _, _ => (st, None)
  end.

(** The [catch] and [finally] of [sendMessage].  An [Error] made by
    [new Error] has no [detail]; the template prints [undefined] for it.
    With no file, [file.name] in the transcription branch throws and
    [showError] is not reached. *)
Definition error_text (msg : string) : string :=
  if includes "400" msg then
    "Failed to process message. 400 Error: " +:+ to_string Undefined
  else if includes "405" msg then
    "Failed to process message. 405 Error: Method Not Allowed. This is likely a configuration issue."
  else if includes "timeout" msg then ERROR_MESSAGES_timeout
  else if includes "network" msg then ERROR_MESSAGES_network
  else if includes "server" msg then ERROR_MESSAGES_serverError
  else "Sorry, an unexpected error occurred. Please try again.".

Definition sendMessage_failed (error : Error) (file : option File)
    (st : state) : state :=
  let st1 := hideLoading st in
  let errorMessage := error_text (JS.message error) in
  let st2 :=
    if includes "Audio transcription failed" (JS.message error) then
      match file with
      | Some f => showError ("Failed to transcribe " +:+ file_name f +:+ ". Please try again.") st1
      | None => st1
      end
    else showError errorMessage st1 in
  set_isLoading false st2.

(** [sendMessage] after [await this.callTranscribeAPI(file)]. *)
Definition sendMessage_transcribed (now : Z) (transcribedText : value)
    (st : state) : state :=
  let st1 := hideLoading st in
  let st2 := addMessage now "ai" ("**Transcription:** " +:+ to_string transcribedText)
                        no_options st1 in
  set_isLoading false st2.

(** [sendMessage] after [await this._streamMessage(...)]:
    [this.saveState()], then the [finally]. *)
Definition sendMessage_streamed (accepts : string -> bool) (st : state)
    : state :=
  set_isLoading false (saveState accepts st).

(** [retryMessage(messageId)] *)
Definition retryMessage (t_file t_text t_key : Z) (messageId : Z) (st : state)
    : state * option (route * (Error + ticket)) :=
  match list_find (fun m => m_id m = messageId) (messages st) with
  | Some (messageIndex, failedMessage) =>
      match originalMessage (m_options failedMessage) with
      | Some text =>
          if truthy text then
            let st1 := set_messages (delete messageIndex (messages st)) st in
            match messageInput st1 with
            | Some _ => sendMessage t_file t_text t_key (set_messageInput (Some text) st1)
            | None => (st1, None)
            end
          else (st, None)
      | None => (st, None)
      end
  | None => (st, None)
  end.

End SendMessage.

(** ** The typing loop of [_streamMessage]

    The closure of [typeWriter]: the message object, [fullContent], [i];
    [scheduled] tells that [requestAnimationFrame(typeWriter)] is pending
    and [resolved] counts the calls of [resolve()]. *)
Record Typing : Type := mkTyping {
  message : Message;
  fullContent : string;
  i : nat;
  scheduled : bool;
  resolved : nat
}.

Definition set_content (c : string) (m : Message) : Message :=
  mkMessage (m_ref m) (m_id m) (m_type m) c (m_timestamp m) (m_options m).

(** The array holds the object itself: a change of the object shows in
    every place that holds it. *)
Definition store (m : Message) (msgs : list Message) : list Message :=
  List.map (fun x => if Nat.eqb (m_ref x) (m_ref m) then m else x) msgs.

(** One call of [typeWriter]. *)
Definition typeWriter (tw : Typing) (st : state) : Typing * state :=
  if (i tw <? String.length (fullContent tw))%nat then
    let message' :=
      set_content (m_content (message tw) +:+ charAt (i tw) (fullContent tw))
                  (message tw) in
    (mkTyping message' (fullContent tw) (S (i tw)) true (resolved tw),
     set_messages (store message' (messages st)) st)
  else
    (mkTyping (message tw) (fullContent tw) (i tw) false (S (resolved tw)), st).

(** [_streamMessage(type, content)]: the new message with empty content is
    pushed, then [typeWriter()] is called once. *)
Definition streamMessage_push (now : Z) (type : string) (st : state)
    : Message * state :=
  let messageId := messageIdCounter st + 1 in
  let message := mkMessage (next_ref st) messageId type "" now no_options in
  (message,
   mkApp (messageInput st) (currentModel st) (models st) (isLoading st)
         (loadingTimer st) (attachedFile st)
         (messages st ++ [message]) messageId (S (next_ref st))
         (conversationId st) (requestManager st) (errorModal st) (localStorage st)).

Definition _streamMessage (now : Z) (type content : string) (st : state)
    : Typing * state :=
  let (message, st1) := streamMessage_push now type st in
  typeWriter (mkTyping message content 0 false 0) st1.

(** The frames that follow: each runs [typeWriter] if it is scheduled. *)
Definition frame (x : Typing * state) : Typing * state :=
  if scheduled x.1 then typeWriter x.1 x.2 else x.

Fixpoint frames (n : nat) (x : Typing * state) : Typing * state :=
  match n with
  | O => x
  | S n' => frames n' (frame x)
  end.

(** The closure while [fullContent] is [s] and [k] units are typed: the
    content of the message is the first [k] units of [s] and [resolve] has
    not been called. *)
Definition typing_at (s : string) (k : nat) (tw : Typing) : Prop :=
  fullContent tw = s /\ i tw = k
  /\ m_content (message tw) = String.substring 0 k s
  /\ resolved tw = 0%nat.

(** The prefixes of the three keys. *)
Definition key_prefixes : list string := ["chat-"; "upload-"; "transcribe-"].

Definition route_prefix (r : route) : string :=
  match r with
  | Chat => "chat-"
  | Upload => "upload-"
  | Transcribe => "transcribe-"
  end.

(** The two early returns of [sendMessage], as one condition: the textarea
    exists, a model is selected, nothing is loading, and there is a text
    (after [trim]) or a file. *)
Definition send_guard (st : state) : bool :=
  match messageInput st, currentModel st with
  | Some input_value, Some _ =>
      negb (isLoading st)
      && (truthy (trim input_value) || bool_decide (is_Some (attachedFile st)))
  | _, _ => false
  end.

(** The guard as the specification words it: the text is not empty, or a
    file is attached, or a model is selected. *)
Definition spec_guard (st : state) : bool :=
  match messageInput st with
  | Some input_value => truthy (trim input_value)
  | None => false
  end
  || bool_decide (is_Some (attachedFile st))
  || bool_decide (is_Some (currentModel st)).

(** ** Small executions used as examples *)

Definition hello_request : Request :=
  ChatRequest "llama" "hello" "conv_1" [mkEntry "user" "hello" 1000].

(** One call of [makeRequest('chat-1000', ...)] on a new manager. *)
Definition one_pending : RequestManager.state Request value :=
  (makeRequest "chat-1000" hello_request None RequestManager.init).1.

(** A [formatFileSize] for the examples. *)
Definition one_KB (bytes : Z) : string := "1 KB".

(** The application with the model [llama] selected and [text] typed in. *)
Definition typed (text : string) : state :=
  set_currentModel (Some (mkModel "llama"))
    (new_app (Some text) "conv_1" (mkStorage None None)).

(** The application with ["hello"] typed in and no model selected. *)
Definition typed_without_model : state :=
  new_app (Some "hello") "conv_1" (mkStorage None None).

(** Fifteen plain messages, numbered in their [content]. *)
Definition fifteen_messages : state :=
  fold_left (fun st text => addMessage 1000 "user" text no_options st)
            ["1"; "2"; "3"; "4"; "5"; "6"; "7"; "8"; "9"; "10";
             "11"; "12"; "13"; "14"; "15"]
            (typed "next").

(** Whether the identifiers of the messages are above zero, at most the
    counter, and strictly increasing along the list. *)
Definition ids_ordered (st : state) : Prop :=
  0 <= messageIdCounter st
  /\ StronglySorted Z.lt (List.map m_id (messages st))
  /\ Forall (fun m => 1 <= m_id m <= messageIdCounter st) (messages st).

(** No message of the list keeps a text under [originalMessage]. *)
Definition none_retryable (st : state) : Prop :=
  Forall (fun m => originalMessage (m_options m) = None) (messages st).

(** A page that starts with the model and two messages in [localStorage],
    after [initialize], with ["again"] typed in. *)
Definition saved_two : list Message :=
  [mkMessage 0 1 "user" "hi" 1000 no_options;
   mkMessage 0 2 "ai" "hello" 2000 no_options].

Definition restored : state :=
  initialize (inr [mkModel "llama"]) true
    (new_app (Some "again") "conv_2"
       (mkStorage (Some "llama") (Some (inr saved_two)))).

(** ["what is this"] typed in with the file [a.pdf] attached. *)
Definition typed_with_file : state :=
  set_attachedFile (Some (mkFile "a.pdf" 1024 "application/pdf"))
    (typed "what is this").

(** ["hello"] is sent, the chat call is answered with status 500 and
    [{"detail": "boom"}], and every continuation has run. *)
Definition hello_failed : state :=
  let st1 := (sendMessage one_KB 1 2 3 (typed "hello")).1 in
  let failure := Executor.chat_requestFn (Executor.Responded Executor.boom_500) in
  let rm1 := executeRequest_resume 0 failure (requestManager st1) in
  match settled rm1 !! 0%nat with
  | Some (Rejected error) =>
      let rm2 := (makeRequest_resume 0 "chat-3" (Rejected error) rm1).1 in
      sendMessage_failed error None (set_requestManager rm2 st1)
  | _ => st1
  end.

(** The same, after the operation has resolved to ["hi"]. *)
Definition one_settled : RequestManager.state Request value :=
  executeRequest_resume 0 (Fulfilled (Val (JStr "hi"))) one_pending.

(** The same, after [makeRequest] has resumed and returned. *)
Definition one_done : RequestManager.state Request value :=
  (makeRequest_resume 0 "chat-1000" (Fulfilled (Val (JStr "hi"))) one_settled).1.

(** A call under [chat-1000], [cancelAllRequests()], a second call under
    the same key, and the first operation resolved to ["hi"]. *)
Definition resubmitted : RequestManager.state Request value :=
  executeRequest_resume 0 (Fulfilled (Val (JStr "hi")))
    (makeRequest "chat-1000" hello_request None
       (cancelAllRequests one_pending)).1.

(** ** The rest of the class *)

(** [goToModelSelection()]: [this.currentModel = null;
    localStorage.removeItem('selectedModel'); this.saveState()].  Nothing
    catches here: when [removeItem] throws, the handler ends there. *)
Definition goToModelSelection (removes : bool) (accepts : string -> bool)
    (st : state) : state :=
  let st1 := set_currentModel None st in
  if removes then
    saveState accepts
      (set_localStorage (mkStorage None (chatMessages (localStorage st))) st1)
  else st1.

(** [updateSendButton()]: what [sendBtn.disabled] is set to, on a page
    that has the button, when the textarea exists. *)
Definition updateSendButton (st : state) : option bool :=
  match messageInput st with
  | Some input_value =>
      let hasText := truthy (trim input_value) in
      let hasFile := bool_decide (is_Some (attachedFile st)) in
      Some (negb (hasText || hasFile) || isLoading st)
  | None => None
  end.

(** [getFileIcon(mimeType)], the icon of the attached file in the preview. *)
Definition getFileIcon (mimeType : string) : string :=
  if startsWith "image" mimeType then "🖼️"
  else if startsWith "audio" mimeType then "🎵"
  else if includes "pdf" mimeType then "📄"
  else if includes "text" mimeType then "📝"
  else "📎".

(** A page that is opened on what [localStorage] holds: the constructor,
    then [initialize] with what [loadModels] has got. *)
Definition open_page (input : option string) (conversation : string)
    (loaded : Error + list Model) (reads : bool) (store : Storage) : state :=
  initialize loaded reads (new_app input conversation store).

(** The messages a storage holds, as [loadSavedState] takes them. *)
Definition saved_messages (store : Storage) : list Message :=
  match chatMessages store with
  | Some (inr saved) => saved
  | _ => []
  end.

(** Every message object of the list was created before [next_ref]. *)
Definition refs_fresh (st : state) : Prop :=
  Forall (fun m => (m_ref m < next_ref st)%nat) (messages st).

(** What the frames keep while one message is typed at the end of the
    list [old]: the list is [old] followed by the message of the closure,
    which keeps its identity, number, type and time. *)
Definition typing_last (old : list Message) (r : nat) (id : Z)
    (type : string) (now : Z) (x : Typing * state) : Prop :=
  messages x.2 = old ++ [message x.1]
  /\ m_ref (message x.1) = r /\ m_id (message x.1) = id
  /\ m_type (message x.1) = type /\ m_timestamp (message x.1) = now
  /\ m_options (message x.1) = no_options.

(** ** A page at work

    A session is the state of the application with the closures of the
    typing loops that were started.  Its steps are the handlers of the
    class and the continuations of [sendMessage], in any order: every run
    of the page is a sequence of such steps. *)

Record session : Type := mkSession {
  app : state;
  closures : list Typing
}.

Inductive action : Type :=
| TypeIn (text : string)
| Attach (file : File)
| Detach
| Send (t_file t_text t_key : Z)
| SendFails (error : Error) (file : option File)
| SendTranscribed (now : Z) (text : value)
| StreamStarts (now : Z) (content : string)
| FrameRuns (k : nat)
| SendStreamed (accepts : string -> bool)
| CancelClicked (now : Z)
| ClearClicked (accepts : string -> bool)
| ModelSelected (cleared saved : string -> bool) (model : Model)
| ModelsClicked (removes : bool) (accepts : string -> bool)
| RetryClicked (t_file t_text t_key messageId : Z)
| ManagerSteps (e : @RequestManager.event Request value).

Section Session.
Variable formatFileSize : Z -> string.

Inductive session_step : session -> action -> session -> Prop :=
| step_type_in ss text v :
    messageInput (app ss) = Some v ->
    session_step ss (TypeIn text)
      (mkSession (set_messageInput (Some text) (app ss)) (closures ss))
| step_attach ss file :
    session_step ss (Attach file)
      (mkSession (set_attachedFile (Some file) (app ss)) (closures ss))
| step_detach ss :
    session_step ss Detach
      (mkSession (set_attachedFile None (app ss)) (closures ss))
| step_send ss t_file t_text t_key :
    session_step ss (Send t_file t_text t_key)
      (mkSession (sendMessage formatFileSize t_file t_text t_key (app ss)).1
                 (closures ss))
| step_send_fails ss error file :
    session_step ss (SendFails error file)
      (mkSession (sendMessage_failed error file (app ss)) (closures ss))
| step_send_transcribed ss now text :
    session_step ss (SendTranscribed now text)
      (mkSession (sendMessage_transcribed now text (app ss)) (closures ss))
| step_stream_starts ss now content :
    session_step ss (StreamStarts now content)
      (mkSession (_streamMessage now "ai" content (app ss)).2
                 (closures ss ++ [(_streamMessage now "ai" content (app ss)).1]))
| step_frame_runs ss k tw :
    closures ss !! k = Some tw ->
    session_step ss (FrameRuns k)
      (mkSession (frame (tw, app ss)).2
                 (<[k := (frame (tw, app ss)).1]> (closures ss)))
| step_send_streamed ss accepts :
    session_step ss (SendStreamed accepts)
      (mkSession (sendMessage_streamed accepts (app ss)) (closures ss))
| step_cancel_clicked ss now :
    session_step ss (CancelClicked now)
      (mkSession (cancelLoading now (app ss)) (closures ss))
| step_clear_clicked ss accepts :
    session_step ss (ClearClicked accepts)
      (mkSession (clearChat accepts (app ss)) (closures ss))
| step_model_selected ss cleared saved model :
    session_step ss (ModelSelected cleared saved model)
      (mkSession (selectModel cleared saved model (app ss)) (closures ss))
| step_models_clicked ss removes accepts :
    session_step ss (ModelsClicked removes accepts)
      (mkSession (goToModelSelection removes accepts (app ss)) (closures ss))
| step_retry_clicked ss t_file t_text t_key messageId :
    session_step ss (RetryClicked t_file t_text t_key messageId)
      (mkSession (retryMessage formatFileSize t_file t_text t_key messageId (app ss)).1
                 (closures ss))
| step_manager ss e rm :
    RequestManager.step (requestManager (app ss)) e rm ->
    session_step ss (ManagerSteps e)
      (mkSession (set_requestManager rm (app ss)) (closures ss)).

(** The sessions a page reaches from the state [start]. *)
Inductive session_reachable (start : state) : session -> Prop :=
| session_start : session_reachable start (mkSession start [])
| session_next ss a ss' :
    session_reachable start ss -> session_step ss a ss' ->
    session_reachable start ss'.

(** The steps as a function, to run a given list of actions; the steps of
    the request manager are left to the relation. *)
Definition session_run (a : action) (ss : session) : option session :=
  match a with
  | TypeIn text =>
      match messageInput (app ss) with
      | Some _ =>
          Some (mkSession (set_messageInput (Some text) (app ss)) (closures ss))
      | None => None
      end
  | Attach file =>
      Some (mkSession (set_attachedFile (Some file) (app ss)) (closures ss))
  | Detach => Some (mkSession (set_attachedFile None (app ss)) (closures ss))
  | Send t_file t_text t_key =>
      Some (mkSession (sendMessage formatFileSize t_file t_text t_key (app ss)).1
                      (closures ss))
  | SendFails error file =>
      Some (mkSession (sendMessage_failed error file (app ss)) (closures ss))
  | SendTranscribed now text =>
      Some (mkSession (sendMessage_transcribed now text (app ss)) (closures ss))
  | StreamStarts now content =>
      Some (mkSession (_streamMessage now "ai" content (app ss)).2
                      (closures ss ++ [(_streamMessage now "ai" content (app ss)).1]))
  | FrameRuns k =>
      match closures ss !! k with
      | Some tw =>
          Some (mkSession (frame (tw, app ss)).2
                          (<[k := (frame (tw, app ss)).1]> (closures ss)))
      | None => None
      end
  | SendStreamed accepts =>
      Some (mkSession (sendMessage_streamed accepts (app ss)) (closures ss))
  | CancelClicked now =>
      Some (mkSession (cancelLoading now (app ss)) (closures ss))
  | ClearClicked accepts =>
      Some (mkSession (clearChat accepts (app ss)) (closures ss))
  | ModelSelected cleared saved model =>
      Some (mkSession (selectModel cleared saved model (app ss)) (closures ss))
  | ModelsClicked removes accepts =>
      Some (mkSession (goToModelSelection removes accepts (app ss)) (closures ss))
  | RetryClicked t_file t_text t_key messageId =>
      Some (mkSession
              (retryMessage formatFileSize t_file t_text t_key messageId (app ss)).1
              (closures ss))
  | ManagerSteps _ => None
  end.

Fixpoint session_runs (l : list action) (ss : session) : option session :=
  match l with
  | [] => Some ss
  | a :: l' =>
      match session_run a ss with
      | Some ss' => session_runs l' ss'
      | None => None
      end
  end.

End Session.

(** A page that starts with no message in its list. *)
Definition started (st : state) : Prop :=
  messages st = [] /\ 0 <= messageIdCounter st /\ loadingTimer st = false
  /\ RequestManager.consistent (requestManager st).

(** What every session of such a page keeps. *)
Record healthy (ss : session) : Prop := mkHealthy {
  healthy_ids : ids_ordered (app ss);
  healthy_retry : none_retryable (app ss);
  healthy_timer : loadingTimer (app ss) = false;
  healthy_refs : refs_fresh (app ss);
  healthy_manager : RequestManager.consistent (requestManager (app ss));
  healthy_closures :
    Forall (fun tw =>
              (m_ref (message tw) < next_ref (app ss))%nat
              /\ forall m, In m (messages (app ss)) ->
                           m_ref m = m_ref (message tw) -> m = message tw)
           (closures ss);
  healthy_distinct :
    NoDup (List.map (fun tw => m_ref (message tw)) (closures ss))
}.

(** A page opened with the model [llama] saved and no saved message, with
    ["hello"] typed in; and the session after one [sendMessage]. *)
Definition page_llama : state :=
  open_page (Some "hello") "conv_3" (inr [mkModel "llama"]) true
            (mkStorage (Some "llama") None).

Definition session_sent : session :=
  mkSession (sendMessage one_KB 1 2 3 page_llama).1 [].

(** A list with one message that keeps a text to retry, while a send is
    under way. *)
Definition retryable_loading : state :=
  set_isLoading true
    (set_messages
       [mkMessage 0 1 "ai" "failed" 5 (mkOptions true true (Some "hello") false)]
       (typed "")).

(** The two types the class gives to a message. *)
Definition user_or_ai (m : Message) : Prop :=
  m_type m = "user" \/ m_type m = "ai".

(** Every message of the list, and every message a typing loop holds, has
    one of them. *)
Definition plain_types (ss : session) : Prop :=
  Forall user_or_ai (messages (app ss))
  /\ Forall (fun tw => user_or_ai (message tw)) (closures ss).

(** On the page [page_llama]: the file [a.pdf] is attached and sent with
    ["what is this"], the answer ["ok"] is typed to its end and saved, and
    ["and now"] is typed in. *)
Definition pdf_actions : list action :=
  [Attach (mkFile "a.pdf" 1024 "application/pdf"); TypeIn "what is this";
   Send 1 2 3; StreamStarts 4 "ok"; FrameRuns 0; FrameRuns 0;
   SendStreamed stores_all; TypeIn "and now"].

Definition pdf_answered : session :=
  default (mkSession page_llama [])
          (session_runs one_KB pdf_actions (mkSession page_llama [])).

(** A send of ["hello"] is under way, the cancel button is clicked, and
    ["next"] is typed in. *)
Definition cancelled_then_typed : state :=
  set_messageInput (Some "next")
    (cancelLoading 5 (sendMessage one_KB 1 2 3 (typed "hello")).1).

(** A response with status 200 and [{"transcription": "hi"}], and one with
    status 200 and an empty object. *)
Definition transcribed_200 : Executor.Response :=
  Executor.mkResponse 200 (inr (JObj [("transcription", JStr "hi")])).

Definition empty_200 : Executor.Response :=
  Executor.mkResponse 200 (inr (JObj [])).

End App.

(** * Properties of RequestManager *)

Section ManagerFacts.
Import RequestManager.
Context {Op Res : Type}.
Implicit Types (s : RequestManager.state Op Res) (p : nat) (key : string).

Lemma consistent_init : consistent (@init Op Res).
Proof.
  split; cbn [init activeRequests timers running settled awaiting cleaned next_id];
    intros; try (rewrite lookup_empty in *; done).
Qed.

Lemma consistent_makeRequest s key requestFn options :
  consistent s -> consistent (makeRequest key requestFn options s).1.
Proof.
  intros [Ha Ht Hr Hk Hs Hc]. unfold makeRequest.
  destruct (activeRequests s !! key) as [p|] eqn:E; simpl; [by split|].
  assert (Hfresh : awaiting s !! next_id s = None).
  { destruct (awaiting s !! next_id s) eqn:E'; [|done].
    apply Hk in E'. lia. }
  split; simpl.
  - intros k p. rewrite lookup_insert. case_decide; intros Hkp; simplify_eq.
    + by rewrite lookup_insert_eq.
    + apply Ha in Hkp. rewrite lookup_insert_ne; [done|].
      intros Heq. rewrite Heq in Hfresh. congruence.
  - intros p d. rewrite !lookup_insert. case_decide; [eauto|]. apply Ht.
  - intros p fn. rewrite !lookup_insert. case_decide; subst.
    + intros _. split; [eauto|].
      destruct (settled s !! next_id s) eqn:E'; [|done].
      apply Hs in E'. lia.
    + apply Hr.
  - intros p k. rewrite lookup_insert. case_decide; intros ?; simplify_eq; [lia|].
    enough (p < next_id s)%nat by lia. eauto.
  - intros p o ?. enough (p < next_id s)%nat by lia. eauto.
  - intros p. rewrite Hc, lookup_insert.
    erewrite bool_decide_ext; [reflexivity|].
    case_decide; subst.
    + split; [intros [? _]; lia | intros [_ ?]; done].
    + split; intros [? ?]; (split; [lia | done]).
Qed.

Lemma consistent_executeRequest_resume s p requestFn o :
  running s !! p = Some requestFn ->
  consistent s -> consistent (executeRequest_resume p o s).
Proof.
  intros Hrun [Ha Ht Hr Hk Hs Hc].
  destruct (Hr _ _ Hrun) as [[key Hkey] _].
  split; simpl; try done.
  - intros q d. rewrite !lookup_delete. case_decide; [done|]. apply Ht.
  - intros q fn. rewrite lookup_delete, lookup_insert.
    case_decide; [done|]. apply Hr.
  - intros q o'. rewrite lookup_insert. case_decide; subst; eauto.
Qed.

Lemma consistent_makeRequest_finally s p key o :
  awaiting s !! p = Some key -> settled s !! p = Some o ->
  consistent s -> consistent (makeRequest_finally p key s).
Proof.
  intros Hw Hset [Ha Ht Hr Hk Hs Hc].
  assert (Hnr : running s !! p = None).
  { destruct (running s !! p) eqn:E; [|done].
    apply Hr in E as [_ E]. congruence. }
  split; simpl.
  - intros k q. rewrite lookup_delete. case_decide; [done|]. intros Hkq.
    apply Ha in Hkq. rewrite lookup_delete_ne; [done|]. congruence.
  - intros q d. rewrite lookup_delete. case_decide; [done|]. apply Ht.
  - intros q fn Hq. rewrite lookup_delete_ne by congruence. eauto.
  - intros q k. rewrite lookup_delete. case_decide; [done|]. apply Hk.
  - done.
  - intros q. specialize (Hc q). specialize (Hk _ _ Hw).
    destruct (Nat.eq_dec p q) as [->|Hne]; rewrite Hc, lookup_delete.
    + rewrite bool_decide_eq_false_2 by (intros [_ ?]; congruence).
      rewrite decide_True by done. by rewrite bool_decide_eq_true_2.
    + rewrite decide_False by done. done.
Qed.

Lemma consistent_step s e s' : step s e s' -> consistent s -> consistent s'.
Proof.
  destruct 1 as [s key fn opt|s p fn o Hrun|s p key o Hw Hset|s p d Hd|s];
    intros Hs.
  - by apply consistent_makeRequest.
  - by eapply consistent_executeRequest_resume.
  - destruct o; simpl; by eapply consistent_makeRequest_finally.
  - destruct Hs as [Ha Ht Hr Hk Hs Hc]. split; simpl; try done.
    intros q d'. rewrite lookup_delete. case_decide; [done|]. apply Ht.
  - destruct Hs as [Ha Ht Hr Hk Hs Hc]. by split.
Qed.

Lemma reachable_consistent s : reachable s -> consistent s.
Proof.
  induction 1; [apply consistent_init | by eapply consistent_step].
Qed.

Lemma reachable_steps s s' : reachable s -> steps s s' -> reachable s'.
Proof.
  intros Hs Hsteps. induction Hsteps as [|s e s' s'' Hstep _ IH]; [done|].
  apply IH. by eapply reachable_step.
Qed.

(** A promise settles once: its outcome never changes afterwards. *)
Lemma settled_step s e s' p o :
  consistent s -> step s e s' ->
  settled s !! p = Some o -> settled s' !! p = Some o.
Proof.
  intros Hs Hstep Hp.
  destruct Hstep as [s key fn opt|s q fn o' Hrun|s q key o' Hw Hset|s q d Hd|s];
    simpl; try done.
  - unfold makeRequest. by destruct (activeRequests s !! key).
  - rewrite lookup_insert_ne; [done|]. intros ->.
    apply (running_awaited _ Hs) in Hrun as [_ Hrun]. congruence.
  - by destruct o'.
Qed.

Lemma settled_steps s s' p o :
  reachable s -> steps s s' ->
  settled s !! p = Some o -> settled s' !! p = Some o.
Proof.
  intros Hs Hsteps. induction Hsteps as [|s e s' s'' Hstep _ IH]; [done|].
  intros Hp. apply IH; [by eapply reachable_step|].
  eapply settled_step; eauto using reachable_consistent.
Qed.

(** The timeout path: the timer calls [abort], the operation rejects with
    an [AbortError], and [requestPromise] rejects with [timeout]. *)
Lemma abort_is_timeout text :
  executeRequest_outcome (Res := Res) (Rejected (mkError "AbortError" text))
  = Rejected (new_Error "timeout").
Proof. reflexivity. Qed.

(** The [try], [catch] and [finally] of [makeRequest] hand the outcome of
    [requestPromise] on as it is. *)
Lemma makeRequest_resume_outcome s p key (o : outcome Res) :
  (makeRequest_resume p key o s).2 = o.
Proof. by destruct o. Qed.

Lemma makeRequest_resume_state s p key (o : outcome Res) :
  (makeRequest_resume p key o s).1 = makeRequest_finally p key s.
Proof. by destruct o. Qed.

(** C1: a call of [makeRequest] for a key that still has an entry does not
    call the operation again (the state, and with it the log of
    invocations, is left as it was) and hands back the stored promise [p];
    the first caller is suspended on that same [p] under that key, and
    whatever [p] settles to is what both callers get, now and later. *)
Theorem makeRequest_joins_pending s key p (requestFn : Op) options :
  reachable s ->
  activeRequests s !! key = Some p ->
  makeRequest key requestFn options s = (s, Joined p)
  /\ invoked (makeRequest key requestFn options s).1 = invoked s
  /\ awaiting s !! p = Some key
  /\ forall s' o, steps s s' -> settled s' !! p = Some o ->
       (makeRequest_resume p key o s').2 = o
       /\ joined_outcome p s' = Some o
       /\ forall s'', steps s' s'' -> joined_outcome p s'' = Some o.
Proof.
  intros Hs Hkey. unfold makeRequest. rewrite Hkey. repeat split.
  - by apply (entry_awaited _ (reachable_consistent _ Hs)).
  - apply makeRequest_resume_outcome.
  - done.
  - intros s'' Hs''. unfold joined_outcome.
    apply (settled_steps s' s'' p o); [by apply (reachable_steps s)|done..].
Qed.

(** C2: whatever [requestPromise] settles to, the continuation of
    [makeRequest] can run, hands that outcome on, and leaves the timer
    cleared and the key without an entry, with one more run of [finally]
    logged; over a whole execution that block has run exactly once for
    every call that is over and not at all for one still suspended, a call
    that is over has no timer and no entry left, and when no call is
    suspended the map and the timers are empty. *)
Theorem makeRequest_cleanup_once s :
  reachable s ->
  (forall p key o,
      awaiting s !! p = Some key -> settled s !! p = Some o ->
      let s' := (makeRequest_resume p key o s).1 in
      step s (Resumes p) s'
      /\ (makeRequest_resume p key o s).2 = o
      /\ timers s' !! p = None
      /\ activeRequests s' !! key = None
      /\ awaiting s' !! p = None
      /\ cleaned s' = p :: cleaned s
      /\ count_occ Nat.eq_dec (cleaned s') p = 1%nat)
  /\ (forall p, (p < next_id s)%nat -> awaiting s !! p = None ->
        count_occ Nat.eq_dec (cleaned s) p = 1%nat
        /\ timers s !! p = None
        /\ forall key, activeRequests s !! key <> Some p)
  /\ (forall p, is_Some (awaiting s !! p) ->
        count_occ Nat.eq_dec (cleaned s) p = 0%nat)
  /\ (awaiting s = ∅ -> activeRequests s = ∅ /\ timers s = ∅).
Proof.
  intros Hr. pose proof (reachable_consistent _ Hr) as Hs.
  split; [|split; [|split]].
  - intros p key o Hw Hset s'.
    assert (Hstep : step s (Resumes p) s') by by apply step_resume.
    pose proof (consistent_step _ _ _ Hstep Hs) as Hs'.
    assert (Hnone : awaiting s' !! p = None).
    { subst s'. rewrite makeRequest_resume_state. simpl. apply lookup_delete_eq. }
    repeat split; try done.
    + apply makeRequest_resume_outcome.
    + subst s'. rewrite makeRequest_resume_state. simpl. apply lookup_delete_eq.
    + subst s'. rewrite makeRequest_resume_state. simpl. apply lookup_delete_eq.
    + subst s'. by rewrite makeRequest_resume_state.
    + rewrite (finally_count _ Hs'), bool_decide_eq_true_2; [done|].
      split; [|done].
      subst s'. rewrite makeRequest_resume_state. simpl.
      by apply (awaited_known _ Hs) in Hw.
  - intros p Hp Hnone. repeat split.
    + rewrite (finally_count _ Hs). by rewrite bool_decide_eq_true_2.
    + destruct (timers s !! p) eqn:E; [|done].
      apply (timer_running _ Hs) in E as [fn E].
      apply (running_awaited _ Hs) in E as [[k E] _]. congruence.
    + intros key E. apply (entry_awaited _ Hs) in E. congruence.
  - intros p [key Hw]. rewrite (finally_count _ Hs), bool_decide_eq_false_2; [done|].
    intros [_ ?]. congruence.
  - intros Hempty. split; apply map_eq; intros k; rewrite lookup_empty.
    + destruct (activeRequests s !! k) eqn:E; [|done].
      apply (entry_awaited _ Hs) in E. by rewrite Hempty, lookup_empty in E.
    + destruct (timers s !! k) eqn:E; [|done].
      apply (timer_running _ Hs) in E as [fn E].
      apply (running_awaited _ Hs) in E as [[key E] _].
      by rewrite Hempty, lookup_empty in E.
Qed.

End ManagerFacts.

(** The example states are states of the event loop. *)
Lemma reachable_one_pending : RequestManager.reachable App.one_pending.
Proof.
  eapply RequestManager.reachable_step;
    [apply RequestManager.reachable_init | apply RequestManager.step_submit].
Defined.

Lemma reachable_one_settled : RequestManager.reachable App.one_settled.
Proof.
  eapply RequestManager.reachable_step; [apply reachable_one_pending|].
  by eapply RequestManager.step_settle.
Defined.

(** A second call under [chat-1000] while the first is pending. *)
Lemma makeRequest_joins_pending_witness :
  RequestManager.makeRequest "chat-1000" App.hello_request None App.one_pending
  = (App.one_pending, RequestManager.Joined 0).
Proof.
  apply (makeRequest_joins_pending App.one_pending "chat-1000" 0%nat
           App.hello_request None reachable_one_pending).
  reflexivity.
Defined.

Lemma reachable_one_done : RequestManager.reachable App.one_done.
Proof.
  eapply RequestManager.reachable_step; [apply reachable_one_settled|].
  by eapply RequestManager.step_resume.
Defined.

(** One call that has run to its end leaves nothing behind. *)
Lemma makeRequest_cleanup_once_witness :
  (RequestManager.activeRequests App.one_done = ∅
   /\ RequestManager.timers App.one_done = ∅)
  /\ RequestManager.cleaned App.one_done = [0%nat].
Proof.
  split.
  - apply (makeRequest_cleanup_once App.one_done reachable_one_done).
    reflexivity.
  - pose proof (makeRequest_cleanup_once App.one_settled reachable_one_settled)
      as [Hexit _].
    destruct (Hexit 0%nat "chat-1000" (Fulfilled (Val (JStr "hi")))
                eq_refl eq_refl) as (_ & _ & _ & _ & _ & Hlog & _).
    exact Hlog.
Defined.

(** * Properties of the keys *)

Section KeyFacts.
Import RequestManager App.

Lemma requestKey_inj prefix t1 t2 :
  requestKey prefix t1 = requestKey prefix t2 -> t1 = t2.
Proof.
  unfold requestKey, of_int. intros H.
  apply (inj (String.append prefix)) in H. by apply (inj pretty) in H.
Qed.

Lemma requestKey_eq p1 p2 t1 t2 :
  p1 ∈ key_prefixes -> p2 ∈ key_prefixes ->
  requestKey p1 t1 = requestKey p2 t2 -> p1 = p2 /\ t1 = t2.
Proof.
  unfold key_prefixes. rewrite !elem_of_cons, !elem_of_nil.
  intros [->|[->|[->|[]]]] [->|[->|[->|[]]]] H;
    try (split; [done | exact (requestKey_inj _ _ _ H)]);
    exfalso; unfold requestKey in H; discriminate H.
Qed.

Lemma makeRequest_entry {Op Res} key (fn : Op) options
    (s : RequestManager.state Op Res) :
  activeRequests (makeRequest key fn options s).1 !! key
  = Some (promise_of (makeRequest key fn options s).2).
Proof.
  unfold makeRequest. destruct (activeRequests s !! key) eqn:E; simpl; [done|].
  apply lookup_insert_eq.
Qed.

(** C10: each of the three calls leaves its promise registered under its
    prefix followed by the reading of the clock; keys made at different
    readings differ, whatever the prefixes; and a call is joined only by a
    call with the same prefix and the same reading: with different readings
    the second call never gets the promise of the first. *)
Theorem request_keys_embed_timestamp :
  (forall now message st,
      activeRequests (requestManager (callChatAPI now message st).1)
        !! ("chat-" +:+ of_int now)
      = Some (promise_of (callChatAPI now message st).2))
  /\ (forall now file message st t,
        (callUploadAndChatAPI now file message st).2 = inr t ->
        activeRequests (requestManager (callUploadAndChatAPI now file message st).1)
          !! ("upload-" +:+ of_int now)
        = Some (promise_of t))
  /\ (forall now file st,
        activeRequests (requestManager (callTranscribeAPI now file st).1)
          !! ("transcribe-" +:+ of_int now)
        = Some (promise_of (callTranscribeAPI now file st).2))
  /\ (forall p1 p2 t1 t2,
        p1 ∈ key_prefixes -> p2 ∈ key_prefixes -> t1 <> t2 ->
        p1 +:+ of_int t1 <> p2 +:+ of_int t2)
  /\ (forall (s : RequestManager.state Request value) p1 p2 t1 t2 q fn options,
        reachable s -> p1 ∈ key_prefixes -> p2 ∈ key_prefixes ->
        awaiting s !! q = Some (requestKey p1 t1) ->
        (t1 <> t2 ->
         promise_of (makeRequest (requestKey p2 t2) fn options s).2 <> q)
        /\ ((makeRequest (requestKey p2 t2) fn options s).2 = Joined q ->
            p1 = p2 /\ t1 = t2)).
Proof.
  split; [|split; [|split; [|split]]].
  - intros now message st. unfold callChatAPI.
    pose proof (makeRequest_entry (requestKey "chat-" now)
                  (chat_request message st) None (requestManager st)) as H.
    destruct (makeRequest _ _ _ _) as [rm t]. exact H.
  - intros now file message st t. unfold callUploadAndChatAPI.
    destruct (currentModel st) as [m|]; [|done].
    pose proof (makeRequest_entry (requestKey "upload-" now)
                  (UploadRequest file message (model_id m)) None
                  (requestManager st)) as H.
    destruct (makeRequest _ _ _ _) as [rm t']. simpl. intros [= <-]. exact H.
  - intros now file st. unfold callTranscribeAPI.
    pose proof (makeRequest_entry (requestKey "transcribe-" now)
                  (TranscribeRequest file) None (requestManager st)) as H.
    destruct (makeRequest _ _ _ _) as [rm t]. exact H.
  - intros p1 p2 t1 t2 H1 H2 Hne Heq.
    by destruct (requestKey_eq p1 p2 t1 t2 H1 H2 Heq).
  - intros s p1 p2 t1 t2 q fn options Hr H1 H2 Hq.
    pose proof (reachable_consistent _ Hr) as Hs.
    unfold makeRequest.
    destruct (activeRequests s !! requestKey p2 t2) as [q'|] eqn:E; simpl.
    + apply (entry_awaited _ Hs) in E. split.
      * intros Hne ->. rewrite Hq in E. injection E as E.
        by destruct (requestKey_eq p1 p2 t1 t2 H1 H2 E).
      * intros [= ->]. rewrite Hq in E. injection E as E.
        by apply requestKey_eq.
    + split; [|done]. intros _ Heq.
      apply (awaited_known _ Hs) in Hq. lia.
Qed.

End KeyFacts.

(** Keys made at 1000 and at 1001, and a call at 1001 while the call made
    at 1000 is pending. *)
Lemma request_keys_embed_timestamp_witness :
  "chat-" +:+ of_int 1000 <> "upload-" +:+ of_int 1001
  /\ RequestManager.promise_of
       (RequestManager.makeRequest (App.requestKey "chat-" 1001)
          App.hello_request None App.one_pending).2 <> 0%nat.
Proof.
  pose proof request_keys_embed_timestamp as (_ & _ & _ & Hkeys & Hjoin).
  split.
  - apply Hkeys; [apply list_elem_of_here | | discriminate].
    apply list_elem_of_further, list_elem_of_here.
  - apply (Hjoin App.one_pending "chat-" "chat-" 1000 1001 0%nat);
      [apply reachable_one_pending | apply list_elem_of_here ..
      | reflexivity | discriminate].
Defined.

(** * Properties of sendMessage *)

Section SendFacts.
Import RequestManager App.
Variable formatFileSize : Z -> string.

Lemma showLoading_loading st : isLoading st = true -> showLoading st = st.
Proof. unfold showLoading. by intros ->. Qed.

Lemma sendMessage_skip t_file t_text t_key st :
  send_guard st = false ->
  sendMessage formatFileSize t_file t_text t_key st = (st, None).
Proof.
  unfold send_guard, sendMessage.
  destruct (messageInput st) as [v|], (currentModel st) as [m|]; try done.
  destruct (isLoading st); [done|]. simpl.
  destruct (truthy (trim v)); [done|]. simpl.
  destruct (attachedFile st); [done|]. by rewrite bool_decide_eq_false_2 by by intros [].
Qed.

(** After the case analysis on the file and the text: run the call, split
    on whether the key is present, and read the fields off the result. *)
Local Ltac send_cases Hm Hl :=
  unfold callTranscribeAPI, callUploadAndChatAPI, callChatAPI, showLoading;
  simpl; try rewrite Hm; simpl; unfold makeRequest; simpl;
  match goal with
  | |- context [activeRequests ?rm !! ?k] =>
      destruct (activeRequests rm !! k) eqn:?; simpl
  end;
  eexists _, _, _; (split; [reflexivity|]); simpl;
  rewrite ?length_app; simpl;
  repeat split; try done; try lia;
  try (by rewrite lookup_insert_eq); try (intros ?; congruence);
  try (intros _; by eexists).

Lemma sendMessage_go t_file t_text t_key st :
  send_guard st = true ->
  exists r t st',
    sendMessage formatFileSize t_file t_text t_key st = (st', Some (r, inr t))
    /\ isLoading st' = true
    /\ (length (messages st) < length (messages st'))%nat
    /\ activeRequests (requestManager st') !! requestKey (route_prefix r) t_key
       = Some (promise_of t)
    /\ (activeRequests (requestManager st) !! requestKey (route_prefix r) t_key = None ->
        exists request,
          invoked (requestManager st')
          = (promise_of t, request) :: invoked (requestManager st)).
Proof.
  unfold send_guard, sendMessage.
  destruct (messageInput st) as [v|], (currentModel st) as [m|] eqn:Hm; try done.
  destruct (isLoading st) eqn:Hl; [done|]. simpl. intros Hg.
  destruct (attachedFile st) as [f|] eqn:Hf.
  - rewrite bool_decide_eq_true_2 by eauto. rewrite andb_false_r.
    destruct (startsWith "audio" (file_type f)), (truthy (trim v));
      send_cases Hm Hl.
  - rewrite bool_decide_eq_false_2 in * by by intros [].
    rewrite orb_false_r in Hg. rewrite Hg. simpl. send_cases Hm Hl.
Qed.

(** C3, as amended: [sendMessage] goes on exactly when the textarea
    exists, a model is selected, nothing is loading, and the trimmed text is
    not empty or a file is attached.  Then [isLoading] is set, the message
    list grows, and one of the three calls has reached [makeRequest] under
    its key (calling its operation when the key was free); otherwise the
    state is left as it was and nothing is called. *)
Theorem sendMessage_guard t_file t_text t_key st :
  (send_guard st = true ->
   exists r t st',
     sendMessage formatFileSize t_file t_text t_key st = (st', Some (r, inr t))
     /\ isLoading st' = true
     /\ (length (messages st) < length (messages st'))%nat
     /\ activeRequests (requestManager st') !! requestKey (route_prefix r) t_key
        = Some (promise_of t)
     /\ (activeRequests (requestManager st) !! requestKey (route_prefix r) t_key = None ->
         exists request,
           invoked (requestManager st')
           = (promise_of t, request) :: invoked (requestManager st)))
  /\ (send_guard st = false ->
      sendMessage formatFileSize t_file t_text t_key st = (st, None)).
Proof.
  split; [apply sendMessage_go | apply sendMessage_skip].
Qed.

End SendFacts.

(** ["hello"] with a model is sent; ["hello"] without a model is not. *)
Lemma sendMessage_guard_witness :
  (exists r t st',
      App.sendMessage App.one_KB 1 2 3 (App.typed "hello") = (st', Some (r, inr t))
      /\ App.isLoading st' = true)
  /\ App.sendMessage App.one_KB 1 2 3 App.typed_without_model
     = (App.typed_without_model, None).
Proof.
  split.
  - destruct (sendMessage_guard App.one_KB 1 2 3 (App.typed "hello")) as [Hgo _].
    destruct (Hgo eq_refl) as (r & t & st' & Hsend & Hloading & _).
    exists r, t, st'. by split.
  - apply (sendMessage_guard App.one_KB 1 2 3 App.typed_without_model).
    reflexivity.
Defined.

(** C3 as stated fails: with a model selected, an empty text and no file
    the stated guard holds and [sendMessage] returns at once; with a text
    and no model it holds as well and [sendMessage] returns at once. *)
Lemma sendMessage_spec_guard_counterexample :
  (App.spec_guard (App.typed "") = true
   /\ App.sendMessage App.one_KB 1 2 3 (App.typed "") = (App.typed "", None))
  /\ (App.spec_guard App.typed_without_model = true
      /\ App.sendMessage App.one_KB 1 2 3 App.typed_without_model
         = (App.typed_without_model, None)).
Proof. repeat split. Qed.

(** * Properties of the chat request *)

Section HistoryFacts.
Import RequestManager App.

Lemma filter_sublist {A} (f : A -> bool) (l : list A) :
  List.filter f l `sublist_of` l.
Proof.
  induction l as [|x l IH]; simpl; [constructor|].
  destruct (f x); by constructor.
Qed.

Lemma filter_all {A} (f : A -> bool) (l : list A) :
  Forall (fun x => f x = true) l -> List.filter f l = l.
Proof.
  induction 1 as [|x l Hx _ IH]; simpl; [done|]. by rewrite Hx, IH.
Qed.

Lemma slice_last_length {A} n (l : list A) :
  length (slice_last n l) = Nat.min n (length l).
Proof. unfold slice_last. rewrite length_drop. lia. Qed.

Lemma slice_last_app {A} (older recent : list A) :
  slice_last (length recent) (older ++ recent) = recent.
Proof.
  unfold slice_last. apply drop_app_length'. rewrite length_app. lia.
Qed.

Lemma slice_last_snoc {A} n (l : list A) x :
  (0 < n)%nat -> slice_last n (l ++ [x]) = slice_last (n - 1) l ++ [x].
Proof.
  intros Hn. unfold slice_last. rewrite length_app. simpl.
  rewrite drop_app_le by lia. do 2 f_equal. lia.
Qed.

Lemma chat_history_last msgs m :
  not_file_attachment m = true ->
  last (chat_history (msgs ++ [m])) = Some (history_entry m).
Proof.
  intros Hm. unfold chat_history. rewrite List.filter_app. simpl. rewrite Hm.
  rewrite slice_last_snoc by lia. rewrite List.map_app. apply last_snoc.
Qed.

Lemma chat_history_last_two msgs a b :
  not_file_attachment a = true -> not_file_attachment b = true ->
  exists older,
    chat_history (msgs ++ [a; b]) = older ++ [history_entry a; history_entry b].
Proof.
  intros Ha Hb. unfold chat_history. rewrite List.filter_app. simpl.
  rewrite Ha, Hb.
  replace (List.filter not_file_attachment msgs ++ [a; b])
    with ((List.filter not_file_attachment msgs ++ [a]) ++ [b])
    by (by rewrite <- app_assoc).
  rewrite slice_last_snoc by lia. change (10 - 1)%nat with 9%nat.
  rewrite slice_last_snoc by lia. change (9 - 1)%nat with 8%nat.
  rewrite !List.map_app. simpl. rewrite <- app_assoc. simpl. by eexists.
Qed.

(** A message that passes the filter and is one of the last ten is in the
    history. *)
Lemma chat_history_recent msgs recent m :
  Forall (fun x => not_file_attachment x = true) recent ->
  (length recent <= 10)%nat ->
  In m recent ->
  In (history_entry m) (chat_history (msgs ++ recent)).
Proof.
  intros Hplain Hlen Hin. unfold chat_history. apply in_map.
  rewrite List.filter_app, (filter_all _ recent Hplain).
  set (older := List.filter not_file_attachment msgs).
  unfold slice_last. rewrite length_app.
  assert (Hsuffix : recent `suffix_of` drop (length older + length recent - 10)
                                            (older ++ recent)).
  { exists (drop (length older + length recent - 10) older).
    rewrite drop_app.
    replace (length older + length recent - 10 - length older)%nat
      with 0%nat by lia.
    reflexivity. }
  destruct Hsuffix as [k ->]. apply in_app_iff. by right.
Qed.

(** The window of a chat request: the request a plain chat call sends
    carries as [history] the entries, reduced to role, content and
    timestamp, of a window of the messages: the window is the end of the list of the messages whose type
    is not ['file-attachment'], it has ten of them (all of them when there
    are fewer), and it keeps the order of the session; when the last ten
    messages of the session are all of that kind, as with fifteen plain
    messages, the history is made of exactly these ten. *)
Theorem chat_history_window now message st m :
  currentModel st = Some m ->
  activeRequests (requestManager st) !! requestKey "chat-" now = None ->
  exists p history window,
    (callChatAPI now message st).2 = Started p
    /\ invoked (requestManager (callChatAPI now message st).1)
       = (p, ChatRequest (model_id m) message (conversationId st) history)
           :: invoked (requestManager st)
    /\ history = List.map history_entry window
    /\ window `suffix_of` List.filter not_file_attachment (messages st)
    /\ length window
       = Nat.min 10 (length (List.filter not_file_attachment (messages st)))
    /\ window `sublist_of` messages st
    /\ (forall older recent,
          messages st = older ++ recent ->
          length recent = 10%nat ->
          Forall (fun x => not_file_attachment x = true) recent ->
          window = recent).
Proof.
  intros Hm Hfree.
  exists (next_id (requestManager st)), (chat_history (messages st)),
    (slice_last 10 (List.filter not_file_attachment (messages st))).
  unfold callChatAPI, makeRequest, chat_request. rewrite Hfree, Hm. simpl.
  repeat split.
  - apply suffix_drop.
  - exact (slice_last_length 10 _).
  - etrans; [apply sublist_drop | apply filter_sublist].
  - intros older recent -> Hlen Hplain.
    rewrite List.filter_app, (filter_all _ recent Hplain), <- Hlen.
    apply slice_last_app.
Qed.

End HistoryFacts.

(** With fifteen plain messages the request carries the last ten. *)
Lemma chat_history_window_witness :
  exists p history,
    RequestManager.invoked
      (App.requestManager (App.callChatAPI 99 "next" App.fifteen_messages).1)
    = [(p, App.ChatRequest "llama" "next" "conv_1" history)]
    /\ List.map App.content history
       = ["6"; "7"; "8"; "9"; "10"; "11"; "12"; "13"; "14"; "15"].
Proof.
  assert (Hfree : RequestManager.activeRequests
                    (App.requestManager App.fifteen_messages)
                    !! App.requestKey "chat-" 99 = None)
    by (vm_compute; reflexivity).
  destruct (chat_history_window 99 "next" App.fifteen_messages
              (App.mkModel "llama") eq_refl Hfree)
    as (p & history & window & _ & Hinvoked & -> & _ & _ & _ & Hwindow).
  exists p, (List.map App.history_entry window). split; [exact Hinvoked|].
  rewrite (Hwindow (take 5 (App.messages App.fifteen_messages))
                   (drop 5 (App.messages App.fifteen_messages)));
    [ vm_compute; reflexivity | vm_compute; reflexivity
    | vm_compute; reflexivity | ].
  vm_compute. repeat constructor.
Defined.

Section SendChatFacts.
Import RequestManager App.
Variable formatFileSize : Z -> string.

(** The request of a plain chat send. *)
Lemma sendMessage_chat_request t_file t_text t_key st v m :
  messageInput st = Some v ->
  currentModel st = Some m ->
  isLoading st = false ->
  attachedFile st = None ->
  truthy (trim v) = true ->
  activeRequests (requestManager st) !! requestKey "chat-" t_key = None ->
  let sent := mkMessage (next_ref st) (messageIdCounter st + 1) "user" (trim v)
                        t_text no_options in
  let st' := (sendMessage formatFileSize t_file t_text t_key st).1 in
  messages st' = messages st ++ [sent]
  /\ invoked (requestManager st')
     = (next_id (requestManager st),
        ChatRequest (model_id m) (trim v) (conversationId st)
                    (chat_history (messages st ++ [sent])))
         :: invoked (requestManager st).
Proof.
  intros Hv Hm Hl Hf Ht Hfree.
  unfold sendMessage. rewrite Hv, Hm, Hl, Hf, Ht. simpl.
  unfold callChatAPI, showLoading, chat_request. simpl. rewrite Hm.
  unfold makeRequest. simpl. rewrite Hfree. simpl. by split.
Qed.

(** C9: on a plain chat send with a text, the user message is in the
    message list before the request is built: the request carries the
    trimmed text as [message], its [history] is computed from the list that
    already ends with that message, and the last entry of the history is
    that message. *)
Theorem sent_text_is_last_history_entry t_file t_text t_key st v m :
  messageInput st = Some v ->
  currentModel st = Some m ->
  isLoading st = false ->
  attachedFile st = None ->
  truthy (trim v) = true ->
  activeRequests (requestManager st) !! requestKey "chat-" t_key = None ->
  exists p history st',
    sendMessage formatFileSize t_file t_text t_key st
    = (st', Some (Chat, inr (Started p)))
    /\ messages st'
       = messages st
         ++ [mkMessage (next_ref st) (messageIdCounter st + 1) "user" (trim v)
                       t_text no_options]
    /\ invoked (requestManager st')
       = (p, ChatRequest (model_id m) (trim v) (conversationId st) history)
           :: invoked (requestManager st)
    /\ history = chat_history (messages st')
    /\ last history = Some (mkEntry "user" (trim v) t_text).
Proof.
  intros Hv Hm Hl Hf Ht Hfree.
  unfold sendMessage. rewrite Hv, Hm, Hl, Hf, Ht. simpl.
  unfold callChatAPI, showLoading, chat_request. simpl. rewrite Hm.
  unfold makeRequest. simpl. rewrite Hfree. simpl.
  eexists _, _, _. split; [reflexivity|]. simpl.
  repeat split. by apply chat_history_last.
Qed.

End SendChatFacts.

(** ["  hello "] is sent as ["hello"], the last entry of the history. *)
Lemma sent_text_is_last_history_entry_witness :
  exists p history st',
    App.sendMessage App.one_KB 1 2 3 (App.typed "  hello ")
    = (st', Some (App.Chat, inr (RequestManager.Started p)))
    /\ RequestManager.invoked (App.requestManager st')
       = [(p, App.ChatRequest "llama" "hello" "conv_1" history)]
    /\ last history = Some (App.mkEntry "user" "hello" 2).
Proof.
  assert (Hfree : RequestManager.activeRequests
                    (App.requestManager (App.typed "  hello "))
                    !! App.requestKey "chat-" 3 = None)
    by (vm_compute; reflexivity).
  destruct (sent_text_is_last_history_entry App.one_KB 1 2 3
              (App.typed "  hello ") "  hello " (App.mkModel "llama")
              eq_refl eq_refl eq_refl eq_refl eq_refl Hfree)
    as (p & history & st' & Hsend & _ & Hinvoked & _ & Hlast).
  exists p, history, st'. repeat split; assumption.
Defined.

(** * Properties of the typing loop *)

Section StreamFacts.
Import App.

Lemma substring_next s k :
  (k < String.length s)%nat ->
  String.substring 0 (S k) s = String.substring 0 k s +:+ charAt k s.
Proof.
  revert k. induction s as [|c r IH]; intros k Hk; simpl in Hk; [lia|].
  destruct k as [|k]; [by destruct r|].
  change (String.substring 0 (S (S k)) (String c r))
    with (String c (String.substring 0 (S k) r)).
  rewrite IH by lia. done.
Qed.

Lemma substring_all s : String.substring 0 (String.length s) s = s.
Proof. induction s as [|c r IH]; simpl; [done|]. by rewrite IH. Qed.

Lemma charAt_length s k :
  (k < String.length s)%nat -> String.length (charAt k s) = 1%nat.
Proof.
  revert k. induction s as [|c r IH]; intros k Hk; simpl in Hk; [lia|].
  destruct k as [|k]; [done|]. unfold charAt. simpl. apply IH. lia.
Qed.

Lemma typeWriter_types s k tw st :
  typing_at s k tw -> (k < String.length s)%nat ->
  typing_at s (S k) (typeWriter tw st).1
  /\ scheduled (typeWriter tw st).1 = true
  /\ m_content (message (typeWriter tw st).1)
     = m_content (message tw) +:+ charAt k s.
Proof.
  intros (Hs & Hi & Hc & Hr) Hk. unfold typeWriter.
  rewrite Hs, Hi. rewrite (proj2 (Nat.ltb_lt _ _) Hk). simpl.
  repeat split; try done. rewrite Hc. symmetry. by apply substring_next.
Qed.

Lemma typeWriter_resolves s tw st :
  typing_at s (String.length s) tw ->
  typeWriter tw st = (mkTyping (message tw) s (String.length s) false 1, st)
  /\ m_content (message tw) = s.
Proof.
  intros (Hs & Hi & Hc & Hr). unfold typeWriter.
  rewrite Hs, Hi, Hr, Nat.ltb_irrefl. split; [done|].
  by rewrite Hc, substring_all.
Qed.

Lemma frames_add a b x : frames (a + b) x = frames b (frames a x).
Proof. revert x. induction a as [|a IH]; intros x; simpl; [done|]. apply IH. Qed.

Lemma frames_last n x : frames (S n) x = frame (frames n x).
Proof. replace (S n) with (n + 1)%nat by lia. by rewrite frames_add. Qed.

Lemma frames_idle n x : scheduled x.1 = false -> frames n x = x.
Proof.
  intros Hx. induction n as [|n IH]; simpl; [done|].
  unfold frame. by rewrite Hx.
Qed.

Lemma frames_types s n : forall k x,
  typing_at s k x.1 -> scheduled x.1 = true ->
  (k + n <= String.length s)%nat ->
  typing_at s (k + n) (frames n x).1 /\ scheduled (frames n x).1 = true.
Proof.
  induction n as [|n IH]; intros k x Hx Hsch Hk; simpl.
  - by rewrite Nat.add_0_r.
  - unfold frame. rewrite Hsch.
    destruct (typeWriter_types s k x.1 x.2 Hx) as (Hx' & Hsch' & _); [lia|].
    replace (k + S n)%nat with (S k + n)%nat by lia.
    apply IH; [done | done | lia].
Qed.

Lemma typeWriter_keeps_object tw st :
  In (message tw) (messages st) ->
  In (message (typeWriter tw st).1) (messages (typeWriter tw st).2).
Proof.
  intros Hin. unfold typeWriter.
  destruct (i tw <? String.length (fullContent tw))%nat; simpl; [|done].
  unfold store. apply in_map_iff. exists (message tw). split; [|done].
  simpl. by rewrite Nat.eqb_refl.
Qed.

Lemma frames_keep_object n : forall x,
  In (message x.1) (messages x.2) ->
  In (message (frames n x).1) (messages (frames n x).2).
Proof.
  induction n as [|n IH]; intros x Hx; simpl; [done|].
  apply IH. unfold frame. destruct (scheduled x.1); [|done].
  by apply typeWriter_keeps_object.
Qed.

(** The closure as [_streamMessage] creates it, seen as a frame that is
    about to run: its first call of [typeWriter] is the frame of it. *)
Lemma streamMessage_first_frame now type s st :
  _streamMessage now type s st
  = frame (mkTyping (streamMessage_push now type st).1 s 0 true 0,
           (streamMessage_push now type st).2).
Proof. reflexivity. Qed.

(** C6: for every string [s], the frames that follow [_streamMessage]
    type [s] one unit at a time: after the call and [n] frames, with
    [n] below the length of [s], the content is the first [n + 1] units of
    [s], the next frame is scheduled and [resolve] has not been called; each
    frame appends the next unit to what was there; from frame [length s]
    on the content is [s], [resolve] has been called once and nothing is
    scheduled; and the message typed is the one the list of messages
    holds. *)
Theorem streamMessage_types_all now type s st :
  let x0 := _streamMessage now type s st in
  (forall n, (n < String.length s)%nat ->
     m_content (message (frames n x0).1) = String.substring 0 (S n) s
     /\ resolved (frames n x0).1 = 0%nat
     /\ scheduled (frames n x0).1 = true)
  /\ (forall n, (S n < String.length s)%nat ->
       m_content (message (frames (S n) x0).1)
       = m_content (message (frames n x0).1) +:+ charAt (S n) s
       /\ String.length (charAt (S n) s) = 1%nat)
  /\ (forall n, (String.length s <= n)%nat ->
       m_content (message (frames n x0).1) = s
       /\ resolved (frames n x0).1 = 1%nat
       /\ scheduled (frames n x0).1 = false)
  /\ (forall n, In (message (frames n x0).1) (messages (frames n x0).2)).
Proof.
  intros x0. subst x0. rewrite streamMessage_first_frame.
  set (y0 := (mkTyping (streamMessage_push now type st).1 s 0 true 0,
              (streamMessage_push now type st).2)).
  assert (Hy0 : typing_at s 0 y0.1) by (repeat split; by destruct s).
  assert (Hstep : forall n, frames n (frame y0) = frames (S n) y0) by done.
  assert (Hmid : forall n, (n <= String.length s)%nat ->
            typing_at s n (frames n y0).1 /\ scheduled (frames n y0).1 = true).
  { intros n Hn. by apply (frames_types s n 0 y0). }
  split; [|split; [|split]].
  - intros n Hn. rewrite Hstep.
    destruct (Hmid (S n)) as [(_ & _ & Hc & Hr) Hsch]; [lia|]. done.
  - intros n Hn. rewrite !Hstep. split; [|apply charAt_length; lia].
    destruct (Hmid (S n)) as [Hx Hsch]; [lia|].
    rewrite (frames_last (S n) y0). unfold frame at 1. rewrite Hsch.
    by destruct (typeWriter_types s (S n) _ (frames (S n) y0).2 Hx) as (_ & _ & ->).
  - intros n Hn. rewrite Hstep.
    destruct (Hmid (String.length s)) as [Hx Hsch]; [lia|].
    replace (S n) with (String.length s + S (n - String.length s))%nat by lia.
    rewrite frames_add.
    change (frames (S ?m) ?z) with (frames m (frame z)).
    destruct (typeWriter_resolves s _ (frames (String.length s) y0).2 Hx)
      as [Hlast Hc].
    unfold frame. rewrite Hsch, Hlast. by rewrite frames_idle.
  - intros n. rewrite Hstep. apply frames_keep_object.
    unfold y0, streamMessage_push. simpl. apply in_app_iff. right. by left.
Qed.

End StreamFacts.

(** * Properties of the HTTP calls *)

Section ExecutorFacts.
Import Executor.

(** C7, as amended: on a response outside 200..299 whose body parses to an
    object, each [requestFn] throws the error [HTTP <status>: <detail>],
    [detail] being the string made of the [detail] field of the body, which
    is [undefined] when the field is missing.  The call fails with that
    error after it has passed the [catch] of [executeRequest]: it is the
    same error, unless its message holds [Failed to fetch], and then the
    call fails with the error [network].  When the body does not parse,
    each [requestFn] throws the error of the parser itself, and the call
    fails with that error as [executeRequest] hands it on: [timeout] for an
    [AbortError], [network] for a message that holds [Failed to fetch], the
    error itself otherwise. *)
Theorem http_error_outcome res :
  ok res = false ->
  (forall fields,
      body res = inr (JObj fields) ->
      let detail :=
        to_string match assoc "detail" fields with
                  | Some j => Val j
                  | None => Undefined
                  end in
      let thrown := ServerError (status res) detail in
      let failure :=
        if includes "Failed to fetch" (JS.message thrown)
        then new_Error "network" else thrown in
      chat_requestFn (Responded res) = Rejected thrown
      /\ json_requestFn (Responded res) = Rejected thrown
      /\ RequestManager.executeRequest_outcome (chat_requestFn (Responded res))
         = Rejected failure
      /\ RequestManager.executeRequest_outcome (json_requestFn (Responded res))
         = Rejected failure)
  /\ (forall fields text,
        body res = inr (JObj fields) ->
        assoc "detail" fields = Some (JStr text) ->
        includes "Failed to fetch" (JS.message (ServerError (status res) text))
        = false ->
        RequestManager.executeRequest_outcome (chat_requestFn (Responded res))
        = Rejected (ServerError (status res) text)
        /\ RequestManager.executeRequest_outcome (json_requestFn (Responded res))
           = Rejected (ServerError (status res) text))
  /\ (forall parse_error,
        body res = inl parse_error ->
        chat_requestFn (Responded res) = Rejected parse_error
        /\ json_requestFn (Responded res) = Rejected parse_error
        /\ RequestManager.executeRequest_outcome (chat_requestFn (Responded res))
           = Rejected (RequestManager.classify parse_error)
        /\ RequestManager.executeRequest_outcome (json_requestFn (Responded res))
           = Rejected (RequestManager.classify parse_error)
        /\ (name parse_error = "AbortError" ->
            RequestManager.classify parse_error = new_Error "timeout")
        /\ (name parse_error <> "AbortError" ->
            includes "Failed to fetch" (JS.message parse_error) = true ->
            RequestManager.classify parse_error = new_Error "network")
        /\ (name parse_error <> "AbortError" ->
            includes "Failed to fetch" (JS.message parse_error) = false ->
            RequestManager.classify parse_error = parse_error)).
Proof.
  intros Hok.
  assert (Hclassify : forall status detail,
            RequestManager.classify (ServerError status detail)
            = if includes "Failed to fetch" (JS.message (ServerError status detail))
              then new_Error "network" else ServerError status detail).
  { intros status detail. unfold RequestManager.classify, ServerError, new_Error.
    reflexivity. }
  unfold chat_requestFn, json_requestFn, http_error. rewrite Hok.
  cbn [negb]. split; [|split].
  - intros fields ->. cbn [get_prop]. cbv zeta.
    unfold RequestManager.executeRequest_outcome.
    do 2 (split; [reflexivity|]).
    split; exact (f_equal Rejected (Hclassify _ _)).
  - intros fields text -> Hdetail Hfetch. cbn [get_prop]. rewrite Hdetail.
    unfold RequestManager.executeRequest_outcome.
    pose proof (Hclassify (status res) text) as Hsame.
    rewrite Hfetch in Hsame.
    split; exact (f_equal Rejected Hsame).
  - intros parse_error ->. unfold RequestManager.executeRequest_outcome.
    do 4 (split; [reflexivity|]). unfold RequestManager.classify.
    split; [|split].
    + intros Hname. by rewrite Hname.
    + intros Hname Hfetch.
      rewrite (proj2 (String.eqb_neq _ _) Hname), Hfetch.
      by destruct (JS.message parse_error).
    + intros Hname Hfetch.
      by rewrite (proj2 (String.eqb_neq _ _) Hname), Hfetch, andb_false_r.
Qed.

End ExecutorFacts.

(** Status 500 with [{"detail": "boom"}]; status 500 with a detail that
    holds [Failed to fetch]; and status 500 with a body that is not JSON. *)
Lemma http_error_outcome_witness :
  RequestManager.executeRequest_outcome
    (Executor.chat_requestFn (Executor.Responded Executor.boom_500))
  = Rejected (Executor.ServerError 500 "boom")
  /\ RequestManager.executeRequest_outcome
       (Executor.chat_requestFn (Executor.Responded Executor.upstream_500))
     = Rejected (new_Error "network")
  /\ RequestManager.executeRequest_outcome
       (Executor.chat_requestFn (Executor.Responded Executor.html_500))
     = Rejected Executor.not_json.
Proof.
  destruct (http_error_outcome Executor.boom_500 eq_refl) as (_ & Hboom & _).
  destruct (http_error_outcome Executor.upstream_500 eq_refl) as (Hup & _ & _).
  destruct (http_error_outcome Executor.html_500 eq_refl) as (_ & _ & Hhtml).
  split; [|split].
  - apply (Hboom [("detail", JStr "boom")] "boom"); reflexivity.
  - destruct (Hup [("detail", JStr "Failed to fetch upstream")] eq_refl)
      as (_ & _ & Hcall & _).
    exact Hcall.
  - destruct (Hhtml Executor.not_json eq_refl)
      as (_ & _ & Hcall & _ & _ & _ & Hsame).
    rewrite Hcall, Hsame; [reflexivity | discriminate | reflexivity].
Defined.

(** C7 as stated fails: a response with status 500 whose body is not JSON
    does not end in [ServerError{500, ""}]; the failure is the error of the
    parser, which names no status.  A body that parses and has no [detail]
    gives the detail [undefined], not the empty string. *)
Lemma http_error_empty_detail_counterexample :
  Executor.ok Executor.html_500 = false
  /\ Executor.chat_requestFn (Executor.Responded Executor.html_500)
     <> Rejected (Executor.ServerError 500 "")
  /\ Executor.json_requestFn (Executor.Responded Executor.html_500)
     <> Rejected (Executor.ServerError 500 "")
  /\ Executor.chat_requestFn
       (Executor.Responded (Executor.mkResponse 500 (inr (JObj []))))
     = Rejected (Executor.ServerError 500 "undefined").
Proof. repeat split; discriminate. Qed.

(** ["abc"] is typed in full after the call and three frames. *)
Lemma streamMessage_types_all_witness :
  let x0 := App._streamMessage 7 "ai" "abc" (App.typed "") in
  App.m_content (App.message (App.frames 3 x0).1) = "abc"
  /\ App.resolved (App.frames 3 x0).1 = 1%nat
  /\ App.scheduled (App.frames 3 x0).1 = false.
Proof.
  apply (streamMessage_types_all 7 "ai" "abc" (App.typed "")).
  apply le_n.
Defined.

(** * Properties of the message list *)

Section MessageFacts.
Import RequestManager App.
Variable formatFileSize : Z -> string.

Lemma sendMessage_failed_messages error file st :
  messages (sendMessage_failed error file st) = messages st.
Proof.
  unfold sendMessage_failed, showError, hideLoading.
  destruct (includes "Audio transcription failed" (JS.message error));
    [destruct file|]; done.
Qed.

(** What [retryMessage] does with a message that has an [originalMessage]:
    it takes the message out of the list, puts the text in the textarea and
    calls [sendMessage]. *)
Lemma retryMessage_resubmits t_file t_text t_key messageId st index failed text v :
  list_find (fun m => m_id m = messageId) (messages st) = Some (index, failed) ->
  originalMessage (m_options failed) = Some text ->
  truthy text = true ->
  messageInput st = Some v ->
  retryMessage formatFileSize t_file t_text t_key messageId st
  = sendMessage formatFileSize t_file t_text t_key
      (set_messageInput (Some text)
         (set_messages (delete index (messages st)) st)).
Proof.
  intros Hfind Horig Htext Hv. unfold retryMessage.
  rewrite Hfind, Horig, Htext. simpl. by rewrite Hv.
Qed.

(** The messages [sendMessage] adds carry no options. *)
Lemma sendMessage_messages t_file t_text t_key st :
  exists added,
    messages (sendMessage formatFileSize t_file t_text t_key st).1
    = messages st ++ added
    /\ Forall (fun m => m_options m = no_options) added.
Proof.
  unfold sendMessage.
  destruct (messageInput st) as [v|], (currentModel st) as [m|] eqn:Hm;
    try (exists []; by rewrite app_nil_r).
  destruct (isLoading st); [exists []; by rewrite app_nil_r|].
  destruct (truthy (trim v)) eqn:Ht, (attachedFile st) as [f|] eqn:Hf; simpl;
    try (exists []; by rewrite app_nil_r);
    try destruct (startsWith "audio" (file_type f));
    unfold callTranscribeAPI, callUploadAndChatAPI, callChatAPI, showLoading;
    simpl; try rewrite Hm;
    match goal with
    | |- context [makeRequest ?k ?fn ?o ?rm] => destruct (makeRequest k fn o rm)
    end; simpl; rewrite <- ?app_assoc;
    eexists; (split; [reflexivity|]); by repeat constructor.
Qed.

Lemma sendMessage_none_retryable t_file t_text t_key st :
  none_retryable st ->
  none_retryable (sendMessage formatFileSize t_file t_text t_key st).1.
Proof.
  intros Hst. unfold none_retryable.
  destruct (sendMessage_messages t_file t_text t_key st) as (added & -> & Hadded).
  apply Forall_app. split; [done|].
  eapply Forall_impl; [exact Hadded|]. by intros m ->.
Qed.

Lemma addMessage_none_retryable now type content options st :
  originalMessage options = None ->
  none_retryable st -> none_retryable (addMessage now type content options st).
Proof.
  intros Hopt Hst. unfold none_retryable, addMessage. simpl.
  apply Forall_app. split; [done|]. by repeat constructor.
Qed.

Lemma cancelLoading_none_retryable now st :
  none_retryable st -> none_retryable (cancelLoading now st).
Proof. intros Hst. by apply addMessage_none_retryable. Qed.

Lemma sendMessage_failed_none_retryable error file st :
  none_retryable st -> none_retryable (sendMessage_failed error file st).
Proof. unfold none_retryable. by rewrite sendMessage_failed_messages. Qed.

Lemma sendMessage_transcribed_none_retryable now text st :
  none_retryable st -> none_retryable (sendMessage_transcribed now text st).
Proof.
  intros Hst. unfold none_retryable, sendMessage_transcribed. simpl.
  apply Forall_app. split; [done|]. by repeat constructor.
Qed.

Lemma streamMessage_push_none_retryable now type st :
  none_retryable st -> none_retryable (streamMessage_push now type st).2.
Proof. intros Hst. by apply (addMessage_none_retryable now type ""). Qed.

(** With no such message in the list [retryMessage] does nothing. *)
Lemma retryMessage_nothing t_file t_text t_key messageId st :
  none_retryable st ->
  retryMessage formatFileSize t_file t_text t_key messageId st = (st, None).
Proof.
  intros Hst. unfold retryMessage.
  destruct (list_find _ (messages st)) as [[index failed]|] eqn:Hfind; [|done].
  apply list_find_Some in Hfind as (Hlookup & _ & _).
  unfold none_retryable in Hst. rewrite Forall_lookup in Hst.
  by rewrite (Hst _ _ Hlookup).
Qed.

Lemma sorted_snoc (l : list Z) x :
  StronglySorted Z.lt l -> Forall (fun y => y < x) l ->
  StronglySorted Z.lt (l ++ [x]).
Proof.
  induction 1 as [|y l Hl IH Hy]; intros Hx; simpl.
  - repeat constructor.
  - apply Forall_cons in Hx as [Hyx Hx]. constructor; [by apply IH|].
    apply Forall_app. split; [done|]. by repeat constructor.
Qed.

(** Within one page, a new message gets an identifier above all those in
    the list, as long as the list holds none above the counter. *)
Lemma addMessage_ids_ordered now type content options st :
  ids_ordered st -> ids_ordered (addMessage now type content options st).
Proof.
  intros (Hcounter & Hsorted & Hbound). unfold ids_ordered, addMessage. simpl.
  split; [lia|]. split.
  - rewrite List.map_app. apply sorted_snoc; [done|].
    apply Forall_fmap. eapply Forall_impl; [exact Hbound|].
    intros m [_ Hm]. unfold compose. simpl. lia.
  - apply Forall_app. split.
    + eapply Forall_impl; [exact Hbound|]. intros m [? ?]. simpl. lia.
    + repeat constructor; simpl; lia.
Qed.

Lemma streamMessage_push_ids_ordered now type st :
  ids_ordered st -> ids_ordered (streamMessage_push now type st).2.
Proof. apply (addMessage_ids_ordered now type "" no_options). Qed.

Lemma new_app_ids_ordered input conversation store :
  ids_ordered (new_app input conversation store).
Proof. repeat split; [done | constructor | constructor]. Qed.

(** C5 on the code: ["hello"] is sent and the chat call is answered with
    status 500 and [{"detail": "boom"}].  The error reaches the [catch] of
    [sendMessage] as [HTTP 500: boom]; that block shows a text in the error
    dialog and adds no message, whatever the error: the list holds the user
    message alone, nothing in it can be retried or keeps the text under
    [originalMessage], and [retryMessage] on it changes nothing. *)
Theorem failed_chat_send_adds_no_retryable_message :
  Executor.chat_requestFn (Executor.Responded Executor.boom_500)
  = Rejected (Executor.ServerError 500 "boom")
  /\ executeRequest_outcome (Res := value)
       (Rejected (Executor.ServerError 500 "boom"))
     = Rejected (Executor.ServerError 500 "boom")
  /\ messages hello_failed
     = [mkMessage 0 1 "user" "hello" 2 no_options]
  /\ errorModal hello_failed
     = Some "Sorry, an unexpected error occurred. Please try again."
  /\ Forall (fun m => canRetry (m_options m) = false
                      /\ originalMessage (m_options m) = None)
            (messages hello_failed)
  /\ retryMessage one_KB 4 5 6 1 hello_failed = (hello_failed, None)
  /\ (forall error file st,
        messages (sendMessage_failed error file st) = messages st).
Proof.
  repeat split; try (vm_compute; reflexivity).
  - vm_compute. repeat constructor.
  - apply sendMessage_failed_messages.
Qed.

(** C8 on the code: the page starts with two saved messages, numbered 1
    and 2, and the saved model; [loadSavedState] puts them in the list and
    leaves the counter at 0, so the message of the next [sendMessage] is
    numbered 1 again.  Without the restored list the identifiers stay
    ordered: see [addMessage_ids_ordered]. *)
Theorem restored_ids_are_reused :
  List.map m_id (messages restored) = [1; 2]
  /\ messageIdCounter restored = 0
  /\ List.map m_id (messages (sendMessage one_KB 3000 3001 3002 restored).1)
     = [1; 2; 1]
  /\ ~ ids_ordered (sendMessage one_KB 3000 3001 3002 restored).1.
Proof.
  repeat split; try (vm_compute; reflexivity).
  intros (_ & Hsorted & _).
  assert (Hids : List.map m_id (messages (sendMessage one_KB 3000 3001 3002 restored).1)
                 = [1; 2; 1]) by (vm_compute; reflexivity).
  rewrite Hids in Hsorted.
  apply StronglySorted_inv in Hsorted as [_ Hfirst].
  apply Forall_cons in Hfirst as [_ Hfirst].
  apply Forall_cons in Hfirst as [Hlt _]. lia.
Qed.

(** The message [sendMessage] adds for an attached file has the type
    [user]: the filter of [callChatAPI] keeps it, and the history of the
    next chat request carries it. *)
Lemma file_notice_stays_in_history :
  chat_history (messages (sendMessage one_KB 1 2 3 typed_with_file).1)
  = [mkEntry "user" "📄 a.pdf (1 KB)" 1; mkEntry "user" "what is this" 2].
Proof. vm_compute. reflexivity. Qed.

End MessageFacts.

(** * What [saveState] writes *)

Section SaveFacts.
Import App.

(** [saveState] changes [localStorage] and nothing else. *)
Lemma saveState_storage accepts st :
  saveState accepts st
  = set_localStorage (localStorage (saveState accepts st)) st.
Proof.
  unfold saveState. destruct st as [? cm ? ? ? ? ? ? ? ? ? ? store]. simpl.
  destruct cm as [m|]; [destruct (accepts "selectedModel")|];
    destruct (accepts "chatMessages"); reflexivity.
Qed.

Lemma saveState_written accepts st :
  accepts "selectedModel" = true -> accepts "chatMessages" = true ->
  localStorage (saveState accepts st)
  = mkStorage match currentModel st with
              | Some m => Some (model_id m)
              | None => selectedModel (localStorage st)
              end
              (Some (inr (messages st))).
Proof.
  intros Hmodel Hmessages. unfold saveState. rewrite Hmodel, Hmessages.
  by destruct (currentModel st).
Qed.

Lemma saveState_no_model accepts st :
  currentModel st = None -> accepts "chatMessages" = true ->
  localStorage (saveState accepts st)
  = mkStorage (selectedModel (localStorage st)) (Some (inr (messages st))).
Proof. intros Hnone Hmessages. unfold saveState. by rewrite Hnone, Hmessages. Qed.

Lemma saveState_model_refused accepts st m :
  currentModel st = Some m -> accepts "selectedModel" = false ->
  saveState accepts st = st.
Proof. intros Hm Hmodel. unfold saveState. by rewrite Hm, Hmodel. Qed.

Lemma saveState_messages_refused accepts st :
  accepts "chatMessages" = false ->
  chatMessages (localStorage (saveState accepts st))
  = chatMessages (localStorage st).
Proof.
  intros Hmessages. unfold saveState. rewrite Hmessages.
  destruct (currentModel st); [destruct (accepts "selectedModel")|]; done.
Qed.

End SaveFacts.

(** * More on RequestManager *)

Section ManagerMore.
Import RequestManager.
Context {Op Res : Type}.
Implicit Types (s : RequestManager.state Op Res) (p : nat) (key : string).

Lemma steps_one s e s' : step s e s' -> steps s s'.
Proof. intros H. apply (steps_next s e s' s'); [exact H | apply steps_refl]. Qed.

Lemma steps_trans s1 s2 s3 : steps s1 s2 -> steps s2 s3 -> steps s1 s3.
Proof.
  induction 1 as [|s e s' s'' Hstep _ IH]; [done|].
  intros H3. apply (steps_next s e s' s3); [exact Hstep | by apply IH].
Qed.

(** The promises are numbered in the order in which the operations are
    called: the log of calls lists [next_id - 1, ..., 1, 0]. *)
Lemma invoked_numbers s :
  reachable s -> List.map fst (invoked s) = rev (seq 0 (next_id s)).
Proof.
  induction 1 as [|s e s' _ IH Hstep]; [done|].
  destruct Hstep as [s key fn opt|s q fn o' Hrun|s q key o' Hw Hset|s q d Hd|s];
    try done.
  - unfold makeRequest. destruct (activeRequests s !! key); [done|].
    cbn -[seq rev]. rewrite IH, seq_S, rev_app_distr. done.
  - by destruct o'.
Qed.

(** X1: every operation that is called gets a promise number of its own,
    and an entry of the map always points to an operation that was called
    and whose caller is still suspended under that key; two keys never
    share a promise. *)
Theorem entries_are_started_calls s :
  reachable s ->
  NoDup (List.map fst (invoked s))
  /\ length (invoked s) = next_id s
  /\ (forall key p,
        activeRequests s !! key = Some p ->
        awaiting s !! p = Some key
        /\ exists requestFn, In (p, requestFn) (invoked s))
  /\ (forall key1 key2 p,
        activeRequests s !! key1 = Some p ->
        activeRequests s !! key2 = Some p -> key1 = key2).
Proof.
  intros Hr. pose proof (reachable_consistent _ Hr) as Hs.
  pose proof (invoked_numbers _ Hr) as Hnum.
  split; [|split; [|split]].
  - rewrite Hnum. apply NoDup_ListNoDup, NoDup_rev, List.seq_NoDup.
  - rewrite <- (length_map fst), Hnum, length_rev. apply length_seq.
  - intros key p Hkey. apply (entry_awaited _ Hs) in Hkey. split; [done|].
    apply (awaited_known _ Hs) in Hkey.
    assert (Hin : In p (List.map fst (invoked s))).
    { rewrite Hnum, <- in_rev, in_seq. lia. }
    apply in_map_iff in Hin as ([q fn] & Hq & Hin). simpl in Hq. subst q.
    by exists fn.
  - intros key1 key2 p H1 H2.
    apply (entry_awaited _ Hs) in H1, H2. congruence.
Qed.

(** X2: the timeout path.  When the timer of a call fires, the controller
    is aborted; when the operation then rejects with an [AbortError], the
    caller gets the error [timeout], and the entry, the timer and the
    suspended call are gone. *)
Theorem timeout_path s p delay text :
  reachable s ->
  timers s !! p = Some delay ->
  exists key,
    awaiting s !! p = Some key
    /\ let s1 := timer_fire p s in
       let s2 := executeRequest_resume p (Rejected (mkError "AbortError" text)) s1 in
       let r := makeRequest_resume p key (Rejected (new_Error "timeout")) s2 in
       steps s r.1
       /\ settled s2 !! p = Some (Rejected (new_Error "timeout"))
       /\ r.2 = Rejected (new_Error "timeout")
       /\ p ∈ aborted r.1
       /\ activeRequests r.1 !! key = None
       /\ timers r.1 !! p = None
       /\ awaiting r.1 !! p = None.
Proof.
  intros Hr Ht. pose proof (reachable_consistent _ Hr) as Hs.
  destruct (timer_running _ Hs _ _ Ht) as [fn Hrun].
  destruct (running_awaited _ Hs _ _ Hrun) as [[key Hw] _].
  exists key. split; [done|]. simpl.
  split; [|repeat split].
  - apply (steps_next _ (TimerFires p) (timer_fire p s));
      [by apply (step_timer _ _ delay)|].
    apply (steps_next _ (OpSettles p (Rejected (mkError "AbortError" text)))
             (executeRequest_resume p (Rejected (mkError "AbortError" text))
                (timer_fire p s)));
      [by apply (step_settle _ p fn)|].
    apply (steps_one _ (Resumes p)).
    apply (step_resume _ p key (Rejected (new_Error "timeout"))); simpl; [done|].
    apply lookup_insert_eq.
  - apply lookup_insert_eq.
  - set_solver.
  - apply lookup_delete_eq.
  - apply lookup_delete_eq.
  - apply lookup_delete_eq.
Qed.

(** X3: [cancelAllRequests] forgets the entries and stops nothing: the
    operations keep running, their timers stay armed and the suspended
    callers still get their outcome; and the next call under any key, also
    the key of a call that is still suspended, calls its operation again. *)
Theorem cancelAllRequests_forgets s key (requestFn : Op) options :
  reachable s ->
  let c := cancelAllRequests s in
  reachable c
  /\ running c = running s /\ timers c = timers s /\ awaiting c = awaiting s
  /\ aborted c = aborted s
  /\ makeRequest key requestFn options c
     = ((makeRequest key requestFn options c).1, Started (next_id s))
  /\ invoked (makeRequest key requestFn options c).1
     = (next_id s, requestFn) :: invoked s
  /\ (forall p key' o,
        awaiting s !! p = Some key' -> settled s !! p = Some o ->
        step c (Resumes p) (makeRequest_resume p key' o c).1
        /\ (makeRequest_resume p key' o c).2 = o).
Proof.
  intros Hr c.
  split; [apply (reachable_step s CancelAll); [exact Hr | apply step_cancel]|].
  do 6 (split; [done|]).
  intros p key' o Hw Hset.
  split; [by apply step_resume | apply makeRequest_resume_outcome].
Qed.

(** X4: a late [finally] removes an entry that is not its own.  When the
    call [p] that resumes was made under [key] and the entry of [key] now
    belongs to another call [q], the entry is deleted all the same: [q] is
    still suspended, its key has no entry, and the next call under [key]
    calls the operation once more. *)
Theorem stale_finally_drops_new_entry s p q key o (requestFn : Op) options :
  reachable s ->
  awaiting s !! p = Some key ->
  settled s !! p = Some o ->
  activeRequests s !! key = Some q ->
  p <> q ->
  let s' := (makeRequest_resume p key o s).1 in
  step s (Resumes p) s'
  /\ awaiting s' !! q = Some key
  /\ activeRequests s' !! key = None
  /\ (makeRequest key requestFn options s').2 = Started (next_id s).
Proof.
  intros Hr Hw Hset Hkey Hpq s'. pose proof (reachable_consistent _ Hr) as Hs.
  subst s'. rewrite makeRequest_resume_state. repeat split.
  - rewrite <- (makeRequest_resume_state s p key o). by apply step_resume.
  - simpl. rewrite lookup_delete_ne by done. by apply (entry_awaited _ Hs).
  - simpl. apply lookup_delete_eq.
  - unfold makeRequest. simpl. by rewrite lookup_delete_eq.
Qed.

End ManagerMore.

(** A timer armed by one call on a new manager. *)
Lemma timeout_path_witness :
  exists key,
    RequestManager.awaiting App.one_pending !! 0%nat = Some key
    /\ RequestManager.activeRequests
         (RequestManager.makeRequest_resume 0 key
            (Rejected (new_Error "timeout"))
            (RequestManager.executeRequest_resume 0
               (Rejected (mkError "AbortError" "The user aborted a request."))
               (RequestManager.timer_fire 0 App.one_pending))).1 !! key = None.
Proof.
  destruct (timeout_path App.one_pending 0%nat 15000
              "The user aborted a request." reachable_one_pending eq_refl)
    as (key & Hkey & _ & _ & _ & _ & Hgone & _).
  exists key. by split.
Defined.

(** One call, then [cancelAllRequests()] and the same key again. *)
Lemma cancelAllRequests_forgets_witness :
  RequestManager.invoked
    (RequestManager.makeRequest "chat-1000" App.hello_request None
       (RequestManager.cancelAllRequests App.one_pending)).1
  = [(1%nat, App.hello_request); (0%nat, App.hello_request)].
Proof.
  apply (cancelAllRequests_forgets App.one_pending "chat-1000"
           App.hello_request None reachable_one_pending).
Defined.

(** A key in every state. *)
Lemma entries_are_started_calls_witness :
  length (RequestManager.invoked App.resubmitted) = 2%nat.
Proof.
  assert (Hr : RequestManager.reachable App.resubmitted).
  { eapply RequestManager.reachable_step; [|by eapply RequestManager.step_settle].
    eapply RequestManager.reachable_step; [|apply RequestManager.step_submit].
    eapply RequestManager.reachable_step; [|apply RequestManager.step_cancel].
    apply reachable_one_pending. }
  apply (entries_are_started_calls App.resubmitted Hr).
Defined.

(** The first of two calls under one key resumes after a cancel. *)
Lemma stale_finally_drops_new_entry_witness :
  RequestManager.awaiting
    (RequestManager.makeRequest_resume 0 "chat-1000"
       (Fulfilled (Val (JStr "hi"))) App.resubmitted).1 !! 1%nat
  = Some "chat-1000"
  /\ RequestManager.activeRequests
       (RequestManager.makeRequest_resume 0 "chat-1000"
          (Fulfilled (Val (JStr "hi"))) App.resubmitted).1 !! "chat-1000"
     = None.
Proof.
  assert (Hr : RequestManager.reachable App.resubmitted).
  { eapply RequestManager.reachable_step; [|by eapply RequestManager.step_settle].
    eapply RequestManager.reachable_step; [|apply RequestManager.step_submit].
    eapply RequestManager.reachable_step; [|apply RequestManager.step_cancel].
    apply reachable_one_pending. }
  destruct (stale_finally_drops_new_entry App.resubmitted 0%nat 1%nat
              "chat-1000" (Fulfilled (Val (JStr "hi"))) App.hello_request None
              Hr eq_refl eq_refl eq_refl)
    as (_ & Hq & Hgone & _); [discriminate|].
  by split.
Defined.

(** * More on the HTTP calls *)

Section ExecutorMore.
Import Executor.


(** X6: the two multipart calls resolve to the parsed body, and only for a
    response with a status in 200..299; a response with any other status
    makes all three calls fail, whatever its body. *)
Theorem json_requestFn_fulfilled :
  (forall r v,
      json_requestFn r = Fulfilled v ->
      exists res data,
        r = Responded res /\ ok res = true /\ body res = inr data
        /\ v = Val data)
  /\ (forall res,
        ok res = false ->
        chat_requestFn (Responded res) = Rejected (http_error res)
        /\ json_requestFn (Responded res) = Rejected (http_error res)).
Proof.
  split.
  - intros r v. unfold json_requestFn. destruct r as [res|error]; [|done].
    destruct (ok res) eqn:Hok; simpl; [|done].
    destruct (body res) as [parse_error|data] eqn:Hbody; [done|].
    intros [= <-]. by exists res, data.
  - intros res Hok. unfold chat_requestFn, json_requestFn. by rewrite Hok.
Qed.

End ExecutorMore.


(** A transcription answered with status 200, and one with status 404. *)
Lemma json_requestFn_fulfilled_witness :
  (exists res data,
      Executor.Responded
        (Executor.mkResponse 200 (inr (JObj [("transcription", JStr "hi")])))
      = Executor.Responded res
      /\ Executor.ok res = true /\ Executor.body res = inr data
      /\ Val (JObj [("transcription", JStr "hi")]) = Val data)
  /\ Executor.json_requestFn
       (Executor.Responded (Executor.mkResponse 404 (inr (JObj []))))
     = Rejected (Executor.ServerError 404 "undefined").
Proof.
  destruct json_requestFn_fulfilled as [Hok Hbad]. split.
  - apply Hok. reflexivity.
  - apply (Hbad (Executor.mkResponse 404 (inr (JObj [])))). reflexivity.
Defined.

(** * More on sendMessage *)

Section SendMore.
Import RequestManager App.
Variable formatFileSize : Z -> string.

Lemma callTranscribeAPI_state now file st :
  exists rm,
    (callTranscribeAPI now file st).1 = set_requestManager rm st
    /\ (consistent (requestManager st) -> consistent rm).
Proof.
  unfold callTranscribeAPI.
  pose proof (consistent_makeRequest (requestManager st)
                (requestKey "transcribe-" now) (TranscribeRequest file) None) as H.
  destruct (makeRequest _ _ _ _). by eexists.
Qed.

Lemma callChatAPI_state now text st :
  exists rm,
    (callChatAPI now text st).1 = set_requestManager rm st
    /\ (consistent (requestManager st) -> consistent rm).
Proof.
  unfold callChatAPI.
  pose proof (consistent_makeRequest (requestManager st)
                (requestKey "chat-" now) (chat_request text st) None) as H.
  destruct (makeRequest _ _ _ _). by eexists.
Qed.

Lemma callUploadAndChatAPI_state now file text st :
  is_Some (currentModel st) ->
  exists rm,
    (callUploadAndChatAPI now file text st).1 = set_requestManager rm st
    /\ (consistent (requestManager st) -> consistent rm).
Proof.
  intros [m Hm]. unfold callUploadAndChatAPI. rewrite Hm.
  pose proof (consistent_makeRequest (requestManager st)
                (requestKey "upload-" now)
                (UploadRequest file text (model_id m)) None) as H.
  destruct (makeRequest _ _ _ _). by eexists.
Qed.

(** Names the request manager a call leaves and takes the call apart. *)
Local Ltac name_call rm :=
  let Hrm := fresh "Hrm" in
  let Hst := fresh "Hst" in
  match goal with
  | |- context [callTranscribeAPI ?a ?b ?c] =>
      destruct (callTranscribeAPI_state a b c) as (rm & Hst & Hrm);
      destruct (callTranscribeAPI a b c) as [? ?]
  | |- context [callChatAPI ?a ?b ?c] =>
      destruct (callChatAPI_state a b c) as (rm & Hst & Hrm);
      destruct (callChatAPI a b c) as [? ?]
  | Hm : currentModel _ = Some _
    |- context [callUploadAndChatAPI ?a ?b ?c ?d] =>
      destruct (callUploadAndChatAPI_state a b c d) as (rm & Hst & Hrm);
      [simpl; rewrite Hm; eauto|];
      destruct (callUploadAndChatAPI a b c d) as [? ?]
  end; cbn [fst] in Hst |- *; rewrite Hst; clear Hst.

Lemma state_ext (a b : state) :
  messageInput a = messageInput b -> currentModel a = currentModel b ->
  models a = models b -> isLoading a = isLoading b ->
  loadingTimer a = loadingTimer b -> attachedFile a = attachedFile b ->
  messages a = messages b -> messageIdCounter a = messageIdCounter b ->
  next_ref a = next_ref b -> conversationId a = conversationId b ->
  requestManager a = requestManager b -> errorModal a = errorModal b ->
  localStorage a = localStorage b -> a = b.
Proof. destruct a, b. simpl. by intros -> -> -> -> -> -> -> -> -> -> -> -> ->. Qed.

Local Ltac read_state Hm :=
  apply state_ext; simpl; rewrite ?Hm;
  first [lia | reflexivity | (rewrite <- app_assoc; reflexivity)].

(** What a send that goes on leaves: the textarea emptied, the file
    detached, [isLoading] set, some messages without options added with the
    next identifiers, and everything else but the request manager as it
    was. *)
Lemma sendMessage_state t_file t_text t_key st :
  send_guard st = true ->
  exists added rm,
    (sendMessage formatFileSize t_file t_text t_key st).1
    = mkApp (Some "") (currentModel st) (models st) true (loadingTimer st) None
            (messages st ++ added)
            (messageIdCounter st + Z.of_nat (length added))
            (next_ref st + length added)%nat
            (conversationId st) rm (errorModal st) (localStorage st)
    /\ (0 < length added)%nat
    /\ Forall (fun m => m_options m = no_options) added.
Proof.
  unfold send_guard, sendMessage.
  destruct (messageInput st) as [v|], (currentModel st) as [m|] eqn:Hm; try done.
  destruct (isLoading st) eqn:Hl; [done|]. cbn [negb andb]. intros Hg.
  destruct (attachedFile st) as [f|] eqn:Hf.
  - rewrite bool_decide_eq_true_2 by eauto. rewrite andb_false_r.
    destruct (truthy (trim v)), (startsWith "audio" (file_type f));
      name_call rm;
      [eexists [_; _], rm | eexists [_; _], rm | eexists [_], rm | eexists [_], rm];
      (split; [read_state Hm | split; [cbn; lia | by repeat constructor]]).
  - rewrite bool_decide_eq_false_2 in * by by intros [].
    rewrite orb_false_r in Hg. rewrite Hg. cbn [negb andb].
    name_call rm. eexists [_], rm.
    split; [read_state Hm | split; [cbn; lia | by repeat constructor]].
Qed.

(** X7: a send that goes on empties the textarea and detaches the file
    and sets [isLoading], so that [updateSendButton] disables the send
    button whenever it runs before the answer; it touches neither the
    watchdog timer of [showLoading], nor the error dialog, nor
    [localStorage]: [showLoading] finds [isLoading] already set and arms
    nothing, and nothing is saved before the answer is in. *)
Theorem sendMessage_leaves t_file t_text t_key st :
  send_guard st = true ->
  let st' := (sendMessage formatFileSize t_file t_text t_key st).1 in
  messageInput st' = Some ""
  /\ attachedFile st' = None
  /\ isLoading st' = true
  /\ updateSendButton st' = Some true
  /\ loadingTimer st' = loadingTimer st
  /\ errorModal st' = errorModal st
  /\ localStorage st' = localStorage st
  /\ currentModel st' = currentModel st
  /\ messageIdCounter st'
     = messageIdCounter st + Z.of_nat (length (messages st') - length (messages st)).
Proof.
  intros Hg st'. subst st'.
  destruct (sendMessage_state t_file t_text t_key st Hg)
    as (added & rm & -> & _ & _).
  simpl. repeat split. rewrite length_app. do 2 f_equal. lia.
Qed.

(** X8: a second [sendMessage] right after a first one does nothing,
    whatever the first one did: either the first returned at once and the
    state is the same, or [isLoading] is set. *)
Theorem second_send_is_skipped t_file t_text t_key t_file' t_text' t_key' st :
  let st' := (sendMessage formatFileSize t_file t_text t_key st).1 in
  sendMessage formatFileSize t_file' t_text' t_key' st' = (st', None).
Proof.
  intros st'. subst st'. destruct (send_guard st) eqn:Hg.
  - destruct (sendMessage_state t_file t_text t_key st Hg)
      as (added & rm & -> & _ & _).
    apply sendMessage_skip. unfold send_guard. simpl.
    by destruct (currentModel st).
  - rewrite (sendMessage_skip formatFileSize t_file t_text t_key st Hg). simpl.
    by apply sendMessage_skip.
Qed.

(** X9: which call a send makes.  With an attached file whose type starts
    with [audio] it is the transcription call, and the request is the file
    alone: a text typed with it is added to the list and sent nowhere.  With
    any other file it is the upload call with the file, the trimmed text and
    the model.  With no file it is the chat call.  In each case the
    operation is called when its key is free. *)
Theorem send_routes t_file t_text t_key st v m :
  messageInput st = Some v ->
  currentModel st = Some m ->
  send_guard st = true ->
  let r := sendMessage formatFileSize t_file t_text t_key st in
  let rm := requestManager st in
  match attachedFile st with
  | Some f =>
      if startsWith "audio" (file_type f) then
        exists t,
          r.2 = Some (Transcribe, inr t)
          /\ (activeRequests rm !! requestKey "transcribe-" t_key = None ->
              invoked (requestManager r.1)
              = (promise_of t, TranscribeRequest f) :: invoked rm)
      else
        exists t,
          r.2 = Some (Upload, inr t)
          /\ (activeRequests rm !! requestKey "upload-" t_key = None ->
              invoked (requestManager r.1)
              = (promise_of t, UploadRequest f (trim v) (model_id m))
                  :: invoked rm)
  | None =>
      exists t,
        r.2 = Some (Chat, inr t)
        /\ (activeRequests rm !! requestKey "chat-" t_key = None ->
            exists history,
              invoked (requestManager r.1)
              = (promise_of t,
                 ChatRequest (model_id m) (trim v) (conversationId st) history)
                  :: invoked rm)
  end.
Proof.
  intros Hv Hm Hg. unfold send_guard in Hg. rewrite Hv, Hm in Hg.
  destruct (isLoading st) eqn:Hl; [done|]. simpl in Hg.
  unfold sendMessage. rewrite Hv, Hm, Hl.
  destruct (attachedFile st) as [f|] eqn:Hf.
  - rewrite bool_decide_eq_true_2 by eauto. rewrite andb_false_r.
    destruct (startsWith "audio" (file_type f)), (truthy (trim v));
      unfold callTranscribeAPI, callUploadAndChatAPI, showLoading;
      simpl; try rewrite Hm; simpl; unfold makeRequest; simpl;
      match goal with
      | |- context [activeRequests ?rm !! ?k] =>
          destruct (activeRequests rm !! k) eqn:?; simpl
      end; eexists; (split; [reflexivity|]); done.
  - rewrite bool_decide_eq_false_2 in * by by intros [].
    rewrite orb_false_r in Hg. rewrite Hg. simpl.
    unfold callChatAPI, showLoading, chat_request. simpl. rewrite Hm.
    unfold makeRequest. simpl.
    destruct (activeRequests (requestManager st) !! _) eqn:?; simpl;
      eexists; (split; [reflexivity|]); [done|]. intros _. by eexists.
Qed.

Lemma sendMessage_failed_fields error file st :
  let st' := sendMessage_failed error file st in
  messageInput st' = messageInput st
  /\ attachedFile st' = attachedFile st
  /\ currentModel st' = currentModel st
  /\ isLoading st' = false
  /\ loadingTimer st' = false
  /\ messages st' = messages st
  /\ messageIdCounter st' = messageIdCounter st
  /\ next_ref st' = next_ref st
  /\ requestManager st' = requestManager st
  /\ localStorage st' = localStorage st.
Proof.
  unfold sendMessage_failed, showError, hideLoading.
  destruct (includes "Audio transcription failed" (JS.message error));
    [destruct file|]; by repeat split.
Qed.

(** X10: after a send has failed the typed text is not put back: the
    textarea is empty, no file is attached, loading is over, the list holds
    what it held when the call was made, and a new [sendMessage] does
    nothing until something is typed or attached again. *)
Theorem failed_send_loses_input t_file t_text t_key error file st :
  send_guard st = true ->
  let st1 := (sendMessage formatFileSize t_file t_text t_key st).1 in
  let st2 := sendMessage_failed error file st1 in
  messageInput st2 = Some ""
  /\ attachedFile st2 = None
  /\ isLoading st2 = false
  /\ messages st2 = messages st1
  /\ forall a b c, sendMessage formatFileSize a b c st2 = (st2, None).
Proof.
  intros Hg st1 st2.
  destruct (sendMessage_failed_fields error file st1)
    as (Hin & Hfile & _ & Hl & _ & Hmsgs & _).
  assert (Hin1 : messageInput st1 = Some "" /\ attachedFile st1 = None).
  { subst st1.
    destruct (sendMessage_state t_file t_text t_key st Hg)
      as (added & rm & -> & _ & _). by split. }
  destruct Hin1 as [Hin1 Hfile1].
  fold st2 in Hin, Hfile, Hl, Hmsgs.
  assert (Hi2 : messageInput st2 = Some "") by congruence.
  assert (Hf2 : attachedFile st2 = None) by congruence.
  repeat split; try done.
  intros a b c. apply sendMessage_skip. unfold send_guard.
  rewrite Hi2, Hf2, Hl. by destruct (currentModel st2).
Qed.

(** X11: what the error dialog says after the two failures [executeRequest]
    renames.  An operation that rejects with an [AbortError] ends in the
    text about the timeout; one that rejects with an error of another name
    whose message holds [Failed to fetch] ends in the text about the
    connection. *)
Theorem renamed_errors_are_explained (error : Error) file st :
  (name error = "AbortError" ->
   errorModal (sendMessage_failed (classify error) file st)
   = Some ERROR_MESSAGES_timeout)
  /\ (name error <> "AbortError" ->
      includes "Failed to fetch" (JS.message error) = true ->
      errorModal (sendMessage_failed (classify error) file st)
      = Some ERROR_MESSAGES_network).
Proof.
  split.
  - intros Hname. unfold classify. by rewrite Hname.
  - intros Hname Hmsg. unfold classify.
    rewrite (proj2 (String.eqb_neq _ _) Hname), Hmsg.
    by destruct (JS.message error).
Qed.

Lemma includes_cons sub c s :
  includes sub (String c s) = String.prefix sub (String c s) || includes sub s.
Proof.
  unfold includes.
  change (String.index 0 sub (String c s))
    with (if String.prefix sub (String c s) then Some 0%nat
          else match String.index 0 sub s with
               | Some n => Some (S n)
               | None => None
               end).
  destruct (String.prefix sub (String c s)); [done|].
  by destruct (String.index 0 sub s).
Qed.

Lemma includes_app_r sub p s :
  includes sub s = true -> includes sub (p +:+ s) = true.
Proof.
  intros Hs. induction p as [|c p IH]; [done|].
  change (String c p +:+ s) with (String c (p +:+ s)).
  rewrite includes_cons, IH. apply orb_true_r.
Qed.

(** X12: the text of the dialog is chosen by looking for [400] anywhere in
    the message of the error, before any other text.  A response with status
    400 ends in the text for 400, which never shows what the backend said:
    it ends with [undefined], since the error has no [detail].  A response
    with any other status ends in that same text as soon as the detail of
    the backend holds [400].  The message must hold neither
    [Failed to fetch], which [executeRequest] renames, nor
    [Audio transcription failed], which is looked for last. *)
Theorem bad_request_detail_is_not_shown status detail file st :
  let error := Executor.ServerError status detail in
  includes "Failed to fetch" (JS.message error) = false ->
  includes "Audio transcription failed" (JS.message error) = false ->
  (status = 400 \/ includes "400" detail = true) ->
  errorModal (sendMessage_failed (classify error) file st)
  = Some "Failed to process message. 400 Error: undefined".
Proof.
  intros error Hfetch Haudio Hwhere.
  assert (H400 : includes "400" (JS.message error) = true).
  { subst error. unfold Executor.ServerError, new_Error.
    change (JS.message (mkError "Error" ?m)) with m.
    apply includes_app_r. destruct Hwhere as [->|Hdetail].
    - by vm_compute.
    - by do 2 apply includes_app_r. }
  assert (Hsame : classify error = error).
  { unfold classify. rewrite Hfetch, andb_false_r. by subst error. }
  rewrite Hsame. unfold sendMessage_failed, error_text.
  by rewrite Haudio, H400.
Qed.

End SendMore.

(** * More on the typing loop and on the answers *)

Section StreamMore.
Import RequestManager App.
Variable formatFileSize : Z -> string.

Lemma store_others (m : Message) (msgs : list Message) :
  Forall (fun x => m_ref x <> m_ref m) msgs -> store m msgs = msgs.
Proof.
  induction 1 as [|x l Hx _ IH]; simpl; [done|].
  rewrite (proj2 (Nat.eqb_neq _ _) Hx). by f_equal.
Qed.

Lemma store_last (m m' : Message) (msgs : list Message) :
  Forall (fun x => m_ref x <> m_ref m) msgs ->
  m_ref m' = m_ref m ->
  store m' (msgs ++ [m]) = msgs ++ [m'].
Proof.
  intros Hothers Href. unfold store. rewrite List.map_app.
  fold (store m' msgs). rewrite store_others by by rewrite Href.
  simpl. by rewrite Href, Nat.eqb_refl.
Qed.

Lemma typeWriter_typing_last old r id type now tw st :
  Forall (fun x => m_ref x <> r) old ->
  typing_last old r id type now (tw, st) ->
  typing_last old r id type now (typeWriter tw st)
  /\ set_messages [] (typeWriter tw st).2 = set_messages [] st.
Proof.
  intros Hold (Hmsgs & Href & Hid & Htype & Hnow & Hopt). simpl in *.
  unfold typeWriter.
  destruct (i tw <? String.length (fullContent tw))%nat; simpl; [|done].
  split; [|done]. repeat split; try done.
  rewrite Hmsgs. apply store_last; [by rewrite Href | done].
Qed.

Lemma frames_typing_last old r id type now n : forall x,
  Forall (fun y => m_ref y <> r) old ->
  typing_last old r id type now x ->
  typing_last old r id type now (frames n x)
  /\ set_messages [] (frames n x).2 = set_messages [] x.2.
Proof.
  induction n as [|n IH]; intros [tw st] Hold Hx; simpl; [done|].
  unfold frame. simpl. destruct (scheduled tw); [|by apply IH].
  destruct (typeWriter_typing_last old r id type now tw st Hold Hx) as [Hx' Hst'].
  destruct (typeWriter tw st) as [tw' st'] eqn:Htw.
  destruct (IH (tw', st') Hold Hx') as [Hx'' Hst'']. split; [done|].
  simpl in *. congruence.
Qed.

(** The state while an answer is typed. *)
Lemma streaming_state now type s st n :
  refs_fresh st ->
  let x := frames n (_streamMessage now type s st) in
  x.2 = mkApp (messageInput st) (currentModel st) (models st) (isLoading st)
              (loadingTimer st) (attachedFile st)
              (messages st ++ [message x.1])
              (messageIdCounter st + 1) (S (next_ref st))
              (conversationId st) (requestManager st) (errorModal st)
              (localStorage st)
  /\ message x.1
     = mkMessage (next_ref st) (messageIdCounter st + 1) type
                 (m_content (message x.1)) now no_options.
Proof.
  intros Hfresh x. subst x.
  assert (Hold : Forall (fun y => m_ref y <> next_ref st) (messages st)).
  { eapply Forall_impl; [exact Hfresh|]. intros y Hy. simpl in Hy. lia. }
  pose (pushed := streamMessage_push now type st).
  assert (H0 : typing_last (messages st) (next_ref st) (messageIdCounter st + 1)
                 type now (mkTyping pushed.1 s 0 false 0, pushed.2))
    by by repeat split.
  destruct (typeWriter_typing_last _ _ _ _ _ _ _ Hold H0) as [H1 Hst1].
  change (typeWriter (mkTyping pushed.1 s 0 false 0) pushed.2)
    with (_streamMessage now type s st) in H1, Hst1.
  destruct (frames_typing_last _ _ _ _ _ n _ Hold H1)
    as [(Hmsgs & Href & Hid & Htype & Hnow & Hopt) Hst].
  rewrite Hst1 in Hst. split.
  - apply state_ext; simpl; try exact Hmsgs;
      [apply (f_equal messageInput) in Hst
      | apply (f_equal currentModel) in Hst
      | apply (f_equal models) in Hst
      | apply (f_equal isLoading) in Hst
      | apply (f_equal loadingTimer) in Hst
      | apply (f_equal attachedFile) in Hst
      | apply (f_equal messageIdCounter) in Hst
      | apply (f_equal next_ref) in Hst
      | apply (f_equal conversationId) in Hst
      | apply (f_equal requestManager) in Hst
      | apply (f_equal errorModal) in Hst
      | apply (f_equal localStorage) in Hst]; exact Hst.
  - destruct (message _) as [r id ty c ts o]. simpl in *. by subst.
Qed.

(** X13: typing an answer changes one message and nothing else.  When the
    objects of the list are older than [next_ref], then after
    [_streamMessage] and any number of frames the list is the old list
    followed by the message being typed, which has the next identifier, the
    given type, the time of the call and no options; every other field of
    the state is as [_streamMessage] found it, but for the two counters. *)
Theorem streaming_touches_one_message now type s st n :
  refs_fresh st ->
  let x := frames n (_streamMessage now type s st) in
  x.2 = mkApp (messageInput st) (currentModel st) (models st) (isLoading st)
              (loadingTimer st) (attachedFile st)
              (messages st ++ [message x.1])
              (messageIdCounter st + 1) (S (next_ref st))
              (conversationId st) (requestManager st) (errorModal st)
              (localStorage st)
  /\ message x.1
     = mkMessage (next_ref st) (messageIdCounter st + 1) type
                 (m_content (message x.1)) now no_options
  /\ (forall m, In m (messages st) -> In m (messages x.2)).
Proof.
  intros Hfresh x.
  destruct (streaming_state now type s st n Hfresh) as [Hstate Hmessage].
  fold x in Hstate, Hmessage. split; [exact Hstate|]. split; [exact Hmessage|].
  intros m Hin. rewrite Hstate. simpl. apply in_app_iff. by left.
Qed.

(** From frame [length s] on the content is [s] and [resolve] has been
    called once. *)
Lemma streamMessage_done now type s st n :
  (String.length s <= n)%nat ->
  let x := frames n (_streamMessage now type s st) in
  m_content (message x.1) = s /\ resolved x.1 = 1%nat /\ scheduled x.1 = false.
Proof.
  intros Hn x. subst x. rewrite streamMessage_first_frame.
  set (y0 := (mkTyping (streamMessage_push now type st).1 s 0 true 0,
              (streamMessage_push now type st).2)).
  assert (Hy0 : typing_at s 0 y0.1) by (repeat split; by destruct s).
  destruct (frames_types s (String.length s) 0 y0 Hy0 eq_refl) as [Hx Hsch];
    [lia|].
  change (frames n (frame y0)) with (frames (S n) y0).
  replace (S n) with (String.length s + S (n - String.length s))%nat by lia.
  rewrite frames_add.
  change (frames (S ?k) ?z) with (frames k (frame z)).
  destruct (typeWriter_resolves s _ (frames (String.length s) y0).2 Hx)
    as [Hlast Hc].
  unfold frame. rewrite Hsch, Hlast. by rewrite frames_idle.
Qed.

Lemma sendMessage_chat_state t_file t_text t_key st v m :
  messageInput st = Some v ->
  currentModel st = Some m ->
  isLoading st = false ->
  attachedFile st = None ->
  truthy (trim v) = true ->
  exists rm,
    (sendMessage formatFileSize t_file t_text t_key st).1
    = mkApp (Some "") (Some m) (models st) true (loadingTimer st) None
            (messages st
             ++ [mkMessage (next_ref st) (messageIdCounter st + 1) "user"
                           (trim v) t_text no_options])
            (messageIdCounter st + 1) (S (next_ref st))
            (conversationId st) rm (errorModal st) (localStorage st).
Proof.
  intros Hv Hm Hl Hf Ht. unfold sendMessage. rewrite Hv, Hm, Hl, Hf, Ht.
  cbn [negb andb].
  destruct (callChatAPI_state t_key (trim v)
              (showLoading
                 (set_attachedFile None
                    (set_messageInput (Some "")
                       (addMessage t_text "user" (trim v) no_options
                          (set_isLoading true st)))))) as (rm & Hrm & _).
  destruct (callChatAPI _ _ _) as [st6 t]. cbn [fst] in *. subst st6.
  exists rm. apply state_ext; simpl; rewrite ?Hm; done.
Qed.

(** X14: a chat send that is answered.  A text is sent with a model and
    no file, the answer [content] is typed to its end and [sendMessage]
    goes on: the list has gained the user message with the trimmed text
    and then the message of type [ai] whose content is the answer, with
    the next two identifiers, and loading is over.  When the two [setItem]
    of [saveState] return, [localStorage] holds this list and the model;
    when the first one throws, [localStorage] is left as it was; when the
    second one throws, the stored messages are the old ones. *)
Theorem answered_chat_send t_file t_text t_key now content accepts st v m :
  messageInput st = Some v ->
  currentModel st = Some m ->
  isLoading st = false ->
  attachedFile st = None ->
  truthy (trim v) = true ->
  refs_fresh st ->
  let st1 := (sendMessage formatFileSize t_file t_text t_key st).1 in
  let x := frames (String.length content) (_streamMessage now "ai" content st1) in
  let st3 := sendMessage_streamed accepts x.2 in
  resolved x.1 = 1%nat
  /\ messages st3
     = messages st
       ++ [mkMessage (next_ref st) (messageIdCounter st + 1) "user" (trim v)
                     t_text no_options;
           mkMessage (S (next_ref st)) (messageIdCounter st + 2) "ai" content
                     now no_options]
  /\ isLoading st3 = false
  /\ (accepts "selectedModel" = true -> accepts "chatMessages" = true ->
      chatMessages (localStorage st3) = Some (inr (messages st3))
      /\ selectedModel (localStorage st3) = Some (model_id m))
  /\ (accepts "selectedModel" = false -> localStorage st3 = localStorage st)
  /\ (accepts "chatMessages" = false ->
      chatMessages (localStorage st3) = chatMessages (localStorage st)).
Proof.
  intros Hv Hm Hl Hf Ht Hfresh st1 x st3.
  destruct (sendMessage_chat_state t_file t_text t_key st v m Hv Hm Hl Hf Ht)
    as [rm Hst1].
  assert (Hfresh1 : refs_fresh st1).
  { subst st1. rewrite Hst1. unfold refs_fresh. simpl.
    apply Forall_app. split; [|repeat constructor; simpl; lia].
    eapply Forall_impl; [exact Hfresh|]. intros y Hy. simpl in Hy. lia. }
  destruct (streaming_state now "ai" content st1
              (String.length content) Hfresh1) as [Hx Hmessage].
  destruct (streamMessage_done now "ai" content st1 (String.length content)
              (le_n _)) as (Hc & Hres & _).
  fold x in Hx, Hmessage, Hc, Hres.
  rewrite Hc in Hmessage. split; [exact Hres|].
  assert (Hlist : messages x.2
                  = messages st
                    ++ [mkMessage (next_ref st) (messageIdCounter st + 1) "user"
                                  (trim v) t_text no_options;
                        mkMessage (S (next_ref st)) (messageIdCounter st + 2) "ai"
                                  content now no_options]).
  { rewrite Hx, Hmessage. subst st1. rewrite Hst1. simpl.
    rewrite <- app_assoc. simpl.
    by replace (messageIdCounter st + 1 + 1) with (messageIdCounter st + 2) by lia. }
  assert (Hmodel : currentModel x.2 = Some m).
  { rewrite Hx. simpl. subst st1. by rewrite Hst1. }
  assert (Hstore : localStorage x.2 = localStorage st).
  { rewrite Hx. simpl. subst st1. by rewrite Hst1. }
  subst st3. unfold sendMessage_streamed.
  rewrite (saveState_storage accepts x.2). simpl.
  split; [exact Hlist|]. split; [done|]. split; [|split].
  - intros Hsel Hchat. rewrite (saveState_written accepts x.2 Hsel Hchat).
    simpl. by rewrite Hmodel.
  - intros Hsel. by rewrite (saveState_model_refused accepts x.2 m Hmodel Hsel), Hstore.
  - intros Hchat.
    by rewrite (saveState_messages_refused accepts x.2 Hchat), Hstore.
Qed.

End StreamMore.

(** * Saving, loading, clearing *)

Section StorageFacts.
Import RequestManager App.
Variable formatFileSize : Z -> string.

Lemma fresh_objects_data r (l : list Message) :
  List.map (with_ref 0) (fresh_objects r l) = List.map (with_ref 0) l.
Proof. revert r. induction l as [|m l IH]; intros r; simpl; [done|]. by rewrite IH. Qed.

Lemma fresh_objects_refs r (l : list Message) :
  Forall (fun m => (r <= m_ref m < r + length l)%nat) (fresh_objects r l).
Proof.
  revert r. induction l as [|m l IH]; intros r; simpl; constructor.
  - simpl. lia.
  - eapply Forall_impl; [apply IH|]. intros y Hy. simpl in Hy. lia.
Qed.

Lemma fresh_objects_below r (l : list Message) :
  Forall (fun m => (m_ref m < r + length l)%nat) (fresh_objects r l).
Proof.
  eapply Forall_impl; [apply fresh_objects_refs|]. intros y Hy. simpl in Hy. lia.
Qed.

Lemma find_model (m : Model) (l : list Model) :
  In m l ->
  List.find (fun x => String.eqb (model_id x) (model_id m)) l = Some m.
Proof.
  induction l as [|x l IH]; simpl; [done|]. intros [->|Hin].
  - by rewrite String.eqb_refl.
  - destruct (String.eqb (model_id x) (model_id m)) eqn:E; [|by apply IH].
    apply String.eqb_eq in E. destruct x, m. simpl in E. by subst.
Qed.

Lemma find_no_model (m : Model) (l : list Model) :
  ~ In m l ->
  List.find (fun x => String.eqb (model_id x) (model_id m)) l = None.
Proof.
  induction l as [|x l IH]; simpl; [done|]. intros Hin.
  destruct (String.eqb (model_id x) (model_id m)) eqn:E.
  - apply String.eqb_eq in E. destruct x, m. simpl in E. subst. tauto.
  - apply IH. tauto.
Qed.

Lemma open_page_fresh input conversation loaded reads store :
  refs_fresh (open_page input conversation loaded reads store)
  /\ messageIdCounter (open_page input conversation loaded reads store) = 0.
Proof.
  unfold open_page, initialize, loadSavedState.
  destruct loaded as [error|data_models]; [split; [constructor|done]|].
  destruct reads; [|split; [constructor|done]].
  unfold loadSavedState_body, refs_fresh. simpl.
  destruct (selectedModel store) as [old|]; simpl;
    [destruct (truthy old); [destruct (List.find _ data_models)|]|]; simpl;
    (destruct (chatMessages store) as [[parse_error|saved]|]; simpl;
     (split; [first [apply (fresh_objects_below 0) | constructor] | done])).
Qed.

Lemma open_page_failed input conversation loaded reads store :
  (exists error, loaded = inl error) \/ reads = false ->
  let st' := open_page input conversation loaded reads store in
  messages st' = [] /\ currentModel st' = None /\ localStorage st' = store.
Proof.
  unfold open_page, initialize, loadSavedState.
  intros [[error ->] | ->]; [done|]. by destruct loaded.
Qed.

Lemma open_page_loaded input conversation data_models store :
  let st' := open_page input conversation (inr data_models) true store in
  List.map (with_ref 0) (messages st')
  = List.map (with_ref 0) (saved_messages store)
  /\ currentModel st'
     = match selectedModel store with
       | Some id =>
           if truthy id
           then List.find (fun x => String.eqb (model_id x) id) data_models
           else None
       | None => None
       end.
Proof.
  unfold open_page, initialize, loadSavedState, loadSavedState_body,
    saved_messages. simpl.
  destruct (selectedModel store) as [old|]; simpl;
    [destruct (truthy old); [destruct (List.find _ data_models)|]|]; simpl;
    (destruct (chatMessages store) as [[parse_error|saved]|]; simpl;
     (split; [first [apply fresh_objects_data | reflexivity] | reflexivity])).
Qed.

(** X15: what is saved comes back, when the browser and the backend let
    it.  When the [setItem] calls of [saveState] return, [loadModels] gets
    the list of models and [getItem] returns, a page opened on the storage
    has the same messages, field by field, as new objects, and the model is
    selected again exactly when its identifier is not the empty string and
    the backend still lists it.  When [loadModels] fails or [getItem]
    throws, the page has no message and no model, and the storage is left
    as it is.  In every case the counter of identifiers of the page is 0,
    whatever the identifiers of the messages it shows. *)
Theorem saved_state_is_restored input conversation loaded reads accepts st :
  let store := localStorage (saveState accepts st) in
  let st' := open_page input conversation loaded reads store in
  (forall data_models,
      accepts "selectedModel" = true -> accepts "chatMessages" = true ->
      loaded = inr data_models -> reads = true ->
      List.map (with_ref 0) (messages st') = List.map (with_ref 0) (messages st)
      /\ (forall m,
            currentModel st = Some m -> In m data_models -> model_id m <> "" ->
            currentModel st' = Some m)
      /\ (forall m,
            currentModel st = Some m -> ~ In m data_models \/ model_id m = "" ->
            currentModel st' = None))
  /\ ((exists error, loaded = inl error) \/ reads = false ->
      messages st' = [] /\ currentModel st' = None /\ localStorage st' = store)
  /\ refs_fresh st'
  /\ messageIdCounter st' = 0.
Proof.
  intros store st'. split; [|split].
  - intros data_models Hsel Hchat -> ->. subst st'.
    destruct (open_page_loaded input conversation data_models store)
      as [Hmessages Hmodel].
    rewrite Hmessages, Hmodel. subst store.
    rewrite (saveState_written accepts st Hsel Hchat).
    unfold saved_messages. simpl. split; [done|]. split.
    + intros m -> Hin Hne.
      assert (Hid : truthy (model_id m) = true) by by destruct (model_id m).
      by rewrite Hid, (find_model m data_models Hin).
    + intros m -> [Hin|Hempty].
      * destruct (truthy (model_id m)); [|done].
        by apply find_no_model.
      * by rewrite Hempty.
  - apply open_page_failed.
  - apply open_page_fresh.
Qed.

(** X16: [clearChat] empties the list and the attachment; it leaves the
    request manager and [isLoading] as they are, so that a call that is
    under way is not cancelled, and it does not reset the counter of
    identifiers: an answer that comes in after the chat was cleared is
    typed into the empty list under the next identifier.  When the
    [setItem] calls return, the empty list is what a page opened afterwards
    shows, and after the answer the list with that one message is what
    [localStorage] holds. *)
Theorem clearChat_effects input conversation loaded reads now answer
    accepts accepts' st :
  let st' := clearChat accepts st in
  let x := frames (String.length answer) (_streamMessage now "ai" answer st') in
  let st3 := sendMessage_streamed accepts' x.2 in
  messages st' = []
  /\ attachedFile st' = None
  /\ requestManager st' = requestManager st
  /\ isLoading st' = isLoading st
  /\ conversationId st' = conversationId st
  /\ messages st3
     = [mkMessage (next_ref st) (messageIdCounter st + 1) "ai" answer now
                  no_options]
  /\ (accepts "selectedModel" = true -> accepts "chatMessages" = true ->
      messages (open_page input conversation loaded reads (localStorage st')) = [])
  /\ (accepts' "selectedModel" = true -> accepts' "chatMessages" = true ->
      chatMessages (localStorage st3) = Some (inr (messages st3))).
Proof.
  intros st' x st3.
  assert (Hfields : messages st' = [] /\ attachedFile st' = None
                    /\ requestManager st' = requestManager st
                    /\ isLoading st' = isLoading st
                    /\ conversationId st' = conversationId st
                    /\ next_ref st' = next_ref st
                    /\ messageIdCounter st' = messageIdCounter st).
  { subst st'. unfold clearChat. by rewrite saveState_storage. }
  destruct Hfields as (Hm & Hf & Hrm & Hl & Hconv & Href & Hid).
  assert (Hfresh : refs_fresh st') by (unfold refs_fresh; rewrite Hm; constructor).
  destruct (streaming_state now "ai" answer st' (String.length answer) Hfresh)
    as [Hx Hmessage].
  destruct (streamMessage_done now "ai" answer st' (String.length answer)
              (le_n _)) as (Hc & _).
  fold x in Hx, Hmessage, Hc. rewrite Hc, Href, Hid in Hmessage.
  assert (Hlist : messages st3
                  = [mkMessage (next_ref st) (messageIdCounter st + 1) "ai"
                               answer now no_options]).
  { subst st3. unfold sendMessage_streamed. rewrite saveState_storage. simpl.
    by rewrite Hx, Hmessage, Hm. }
  do 5 (split; [done|]). split; [exact Hlist|]. split.
  - intros Hsel Hchat.
    destruct loaded as [error|data_models];
      [apply open_page_failed; left; by exists error|].
    destruct reads; [|apply open_page_failed; by right].
    destruct (open_page_loaded input conversation data_models (localStorage st'))
      as [Hmessages _].
    subst st'. unfold clearChat in Hmessages.
    rewrite (saveState_written accepts _ Hsel Hchat) in Hmessages.
    unfold clearChat. rewrite (saveState_written accepts _ Hsel Hchat).
    unfold saved_messages in Hmessages. simpl in Hmessages.
    by apply map_eq_nil in Hmessages.
  - intros Hsel Hchat. rewrite Hlist. subst st3. unfold sendMessage_streamed.
    simpl. rewrite (saveState_written accepts' x.2 Hsel Hchat). simpl.
    f_equal. f_equal. rewrite Hx. simpl. by rewrite Hmessage, Hm.
Qed.

(** X17: [selectModel] starts an empty chat with the model; when the
    [setItem] calls of its last [saveState] return, both are saved, so that
    a page opened afterwards has the model selected and no message,
    provided [loadModels] gets a list with the model, the identifier of the
    model is not empty and [getItem] returns.  [goToModelSelection]
    unselects the model and keeps the messages, and [sendMessage] has
    nothing to do; when [removeItem] and [setItem] return, a page opened
    afterwards under the same provisos has no model and the same
    messages. *)
Theorem model_selection_effects cleared saved removes accepts model input
    conversation data_models t_file t_text t_key st :
  (let st' := selectModel cleared saved model st in
   let reopened := open_page input conversation (inr data_models) true
                             (localStorage st') in
   currentModel st' = Some model
   /\ messages st' = []
   /\ (saved "selectedModel" = true -> saved "chatMessages" = true ->
       In model data_models -> model_id model <> "" ->
       currentModel reopened = Some model /\ messages reopened = []))
  /\ (let st' := goToModelSelection removes accepts st in
      let reopened := open_page input conversation (inr data_models) true
                                (localStorage st') in
      currentModel st' = None
      /\ messages st' = messages st
      /\ sendMessage formatFileSize t_file t_text t_key st' = (st', None)
      /\ (removes = true -> accepts "chatMessages" = true ->
          currentModel reopened = None
          /\ List.map (with_ref 0) (messages reopened)
             = List.map (with_ref 0) (messages st))).
Proof.
  split.
  - intros st' reopened.
    assert (Hfields : currentModel st' = Some model /\ messages st' = []).
    { subst st'. unfold selectModel, clearChat.
      by rewrite saveState_storage, (saveState_storage cleared). }
    destruct Hfields as [Hmodel Hm]. split; [done|]. split; [done|].
    intros Hsel Hchat Hin Hid.
    destruct (open_page_loaded input conversation data_models (localStorage st'))
      as [Hmessages Hcurrent].
    fold reopened in Hmessages, Hcurrent.
    assert (Hstore : localStorage st'
                     = mkStorage (Some (model_id model)) (Some (inr []))).
    { unfold st', selectModel. rewrite (saveState_written saved _ Hsel Hchat).
      fold st'. unfold st', selectModel, clearChat.
      by rewrite (saveState_storage cleared). }
    rewrite Hstore in Hmessages, Hcurrent. simpl in Hcurrent.
    unfold saved_messages in Hmessages. simpl in Hmessages.
    assert (Htruthy : truthy (model_id model) = true)
      by by destruct (model_id model).
    rewrite Htruthy, (find_model model data_models Hin) in Hcurrent.
    split; [done|]. by apply map_eq_nil in Hmessages.
  - intros st' reopened.
    assert (Hfields : currentModel st' = None /\ messages st' = messages st).
    { subst st'. unfold goToModelSelection. destruct removes; [|done].
      by rewrite saveState_storage. }
    destruct Hfields as [Hmodel Hm]. split; [done|]. split; [done|]. split.
    + apply sendMessage_skip. unfold send_guard. rewrite Hmodel.
      by destruct (messageInput st').
    + intros -> Hchat.
      destruct (open_page_loaded input conversation data_models (localStorage st'))
        as [Hmessages Hcurrent].
      fold reopened in Hmessages, Hcurrent.
      assert (Hstore : localStorage st'
                       = mkStorage None (Some (inr (messages st)))).
      { unfold st', goToModelSelection.
        rewrite (saveState_no_model accepts
                   (set_localStorage
                      (mkStorage None (chatMessages (localStorage st)))
                      (set_currentModel None st)) eq_refl Hchat).
        reflexivity. }
      rewrite Hstore in Hmessages, Hcurrent. by split.
Qed.

(** X18: [retryMessage] takes the message out of the list and overwrites
    the textarea before [sendMessage] looks at its guard.  When that guard
    fails, for instance while a send is under way, the message is gone, the
    text is in the textarea and nothing is sent. *)
Theorem retry_while_loading_drops_message
    t_file t_text t_key messageId st index failed text v :
  list_find (fun m => m_id m = messageId) (messages st) = Some (index, failed) ->
  originalMessage (m_options failed) = Some text ->
  truthy text = true ->
  messageInput st = Some v ->
  isLoading st = true ->
  retryMessage formatFileSize t_file t_text t_key messageId st
  = (set_messageInput (Some text)
       (set_messages (delete index (messages st)) st), None)
  /\ length (delete index (messages st)) = pred (length (messages st)).
Proof.
  intros Hfind Horig Htext Hv Hl. split.
  - rewrite (retryMessage_resubmits formatFileSize t_file t_text t_key messageId
               st index failed text v Hfind Horig Htext Hv).
    apply sendMessage_skip. unfold send_guard. simpl. rewrite Hl.
    by destruct (currentModel st).
  - apply list_find_Some in Hfind as (Hlookup & _).
    rewrite length_delete by (by exists failed). lia.
Qed.

(** X19: the cancel button.  It empties the map of the request manager and
    stops no operation, ends the loading state, and adds a message of type
    [ai] saying that the operation was cancelled.  That message passes the
    filter of [callChatAPI]: when a text is typed and sent next, with a
    model and no file, the chat request is made, whatever its key, and its
    history ends with the entry of the notice followed by the entry of the
    text that is sent. *)
Theorem cancelLoading_effects now st :
  let st' := cancelLoading now st in
  activeRequests (requestManager st') = ∅
  /\ running (requestManager st') = running (requestManager st)
  /\ awaiting (requestManager st') = awaiting (requestManager st)
  /\ isLoading st' = false
  /\ messages st'
     = messages st
       ++ [mkMessage (next_ref st) (messageIdCounter st + 1) "ai"
                     "Operation was cancelled by user." now
                     (mkOptions false false None true)]
  /\ (forall t_file t_text t_key v m,
        currentModel st = Some m ->
        attachedFile st = None ->
        truthy (trim v) = true ->
        exists p older,
          invoked (requestManager
                     (sendMessage formatFileSize t_file t_text t_key
                        (set_messageInput (Some v) st')).1)
          = (p, ChatRequest (model_id m) (trim v) (conversationId st)
                  (older
                   ++ [mkEntry "ai" "Operation was cancelled by user." now;
                       mkEntry "user" (trim v) t_text]))
              :: invoked (requestManager st)).
Proof.
  intros st'. do 5 (split; [reflexivity|]).
  intros t_file t_text t_key v m Hm Hf Ht.
  destruct (sendMessage_chat_request formatFileSize t_file t_text t_key
              (set_messageInput (Some v) st') v m eq_refl Hm eq_refl Hf Ht
              (lookup_empty _)) as [_ Hinvoked].
  rewrite Hinvoked. simpl.
  destruct (chat_history_last_two (messages st)
              (mkMessage (next_ref st) (messageIdCounter st + 1) "ai"
                         "Operation was cancelled by user." now
                         (mkOptions false false None true))
              (mkMessage (S (next_ref st)) (messageIdCounter st + 1 + 1) "user"
                         (trim v) t_text no_options) eq_refl eq_refl)
    as [older Hhistory].
  exists (next_id (requestManager st)), older.
  rewrite <- app_assoc. simpl. by rewrite Hhistory.
Qed.

(** X20: [updateSendButton] and the guard of [sendMessage].  Whenever
    [sendMessage] would go on, [updateSendButton] enables the button; when
    [updateSendButton] enables the button, [sendMessage] goes on only if a
    model is selected: without one the button is enabled all the same and
    [sendMessage] does nothing. *)
Theorem button_and_guard t_file t_text t_key st :
  (send_guard st = true -> updateSendButton st = Some false)
  /\ (updateSendButton st = Some false ->
      send_guard st = bool_decide (is_Some (currentModel st)))
  /\ (updateSendButton st = Some false -> currentModel st = None ->
      sendMessage formatFileSize t_file t_text t_key st = (st, None)).
Proof.
  unfold send_guard, updateSendButton, sendMessage.
  destruct (messageInput st) as [v|]; [|by repeat split; destruct (currentModel st)].
  destruct (currentModel st) as [m|], (isLoading st),
    (truthy (trim v)), (attachedFile st) as [f|]; by repeat split.
Qed.

Lemma audio_is_no_image (mimeType : string) :
  startsWith "audio" mimeType = true -> startsWith "image" mimeType = false.
Proof.
  unfold startsWith. destruct mimeType as [|c rest]; [done|].
  cbn [String.prefix].
  destruct (ascii_dec "a" c) as [<-|]; [|done]. intros _.
  by destruct (ascii_dec "i" "a").
Qed.

(** X27: the icon of the preview and the call that is made.  The preview
    of an attached file shows the icon of audio files exactly when a send
    with this file makes the transcription call; with any other icon it is
    the upload call. *)
Theorem audio_icon_iff_transcribed t_file t_text t_key st v m f :
  messageInput st = Some v ->
  currentModel st = Some m ->
  isLoading st = false ->
  attachedFile st = Some f ->
  let r := sendMessage formatFileSize t_file t_text t_key st in
  (getFileIcon (file_type f) = "🎵" ->
   exists t, r.2 = Some (Transcribe, inr t))
  /\ (getFileIcon (file_type f) <> "🎵" ->
      exists t, r.2 = Some (Upload, inr t)).
Proof.
  intros Hv Hm Hl Hf r.
  assert (Hicon : getFileIcon (file_type f) = "🎵"
                  <-> startsWith "audio" (file_type f) = true).
  { unfold getFileIcon. split.
    - destruct (startsWith "image" (file_type f)); [discriminate|].
      destruct (startsWith "audio" (file_type f)); [done|].
      destruct (includes "pdf" (file_type f)); [discriminate|].
      destruct (includes "text" (file_type f)); discriminate.
    - intros Haudio. by rewrite (audio_is_no_image _ Haudio), Haudio. }
  subst r. unfold sendMessage. rewrite Hv, Hm, Hl, Hf.
  rewrite bool_decide_eq_true_2 by eauto. rewrite andb_false_r.
  destruct (startsWith "audio" (file_type f)) eqn:Haudio.
  - split; [intros _|intros Hne; exfalso; apply Hne; by apply Hicon].
    destruct (truthy (trim v)); unfold callTranscribeAPI;
      destruct (makeRequest _ _ _ _); simpl; by eexists.
  - split; [intros Hi; apply Hicon in Hi; done|intros _].
    destruct (truthy (trim v)); unfold callUploadAndChatAPI; simpl;
      rewrite ?Hm; simpl; rewrite ?Hm;
      destruct (makeRequest _ _ _ _); simpl; by eexists.
Qed.

End StorageFacts.

(** * From the response to the list *)

Section AnswerFacts.
Import RequestManager Executor App.

(** X21: a transcription that is answered.  For a response with a status
    in 200..299 and an object as body, [callTranscribeAPI] gives the field
    [transcription] of the body, [undefined] when there is none, and
    [sendMessage] adds one message of type [ai] whose content is
    [**Transcription:** ] followed by that value as a string; it ends the
    loading state and returns before [saveState]: [localStorage] is left
    as it was. *)
Theorem answered_transcription res fields now st :
  ok res = true ->
  body res = inr (JObj fields) ->
  let transcription :=
    match assoc "transcription" fields with
    | Some j => Val j
    | None => Undefined
    end in
  let st' := sendMessage_transcribed now transcription st in
  transcribe_return (json_requestFn (Responded res)) = Fulfilled transcription
  /\ messages st'
     = messages st
       ++ [mkMessage (next_ref st) (messageIdCounter st + 1) "ai"
                     ("**Transcription:** " +:+ to_string transcription) now
                     no_options]
  /\ isLoading st' = false
  /\ localStorage st' = localStorage st
  /\ (assoc "transcription" fields = None ->
      option_map m_content (last (messages st'))
      = Some "**Transcription:** undefined").
Proof.
  intros Hok Hbody. simpl. unfold json_requestFn. rewrite Hok, Hbody. simpl.
  repeat split. intros ->. by rewrite last_snoc.
Qed.

(** X22: an answer without the field [response].  With a status in
    200..299 and an object as body that has no [response], the chat call
    and the upload call both fail with a [TypeError], and the dialog then
    shows the general text. *)
Theorem answer_without_response res fields file st :
  ok res = true ->
  body res = inr (JObj fields) ->
  assoc "response" fields = None ->
  exists error,
    chat_requestFn (Responded res) = Rejected error
    /\ upload_return (json_requestFn (Responded res)) = Rejected error
    /\ name error = "TypeError"
    /\ errorModal (sendMessage_failed (classify error) file st)
       = Some "Sorry, an unexpected error occurred. Please try again.".
Proof.
  intros Hok Hbody Hnone. unfold chat_requestFn, json_requestFn.
  rewrite Hok, Hbody. simpl. rewrite Hnone. simpl.
  eexists. by repeat split.
Qed.

End AnswerFacts.

(** * What a session keeps *)

Section SessionFacts.
Import RequestManager App.
Variable formatFileSize : Z -> string.

Lemma store_elem (m' x : Message) (msgs : list Message) :
  In x (store m' msgs) ->
  x = m' \/ (In x msgs /\ m_ref x <> m_ref m').
Proof.
  unfold store. intros Hin. apply in_map_iff in Hin as (y & Hy & Hin).
  destruct (Nat.eqb (m_ref y) (m_ref m')) eqn:E; subst; [by left|].
  right. split; [done|]. by apply Nat.eqb_neq.
Qed.

Lemma store_map {B} (f : Message -> B) (m' : Message) (msgs : list Message) :
  (forall x, In x msgs -> m_ref x = m_ref m' -> f x = f m') ->
  List.map f (store m' msgs) = List.map f msgs.
Proof.
  intros H. unfold store. rewrite List.map_map. apply List.map_ext_in.
  intros x Hx. destruct (Nat.eqb (m_ref x) (m_ref m')) eqn:E; [|done].
  symmetry. apply H; [done|]. by apply Nat.eqb_eq.
Qed.

Lemma Forall_through {A B} (f : A -> B) (P : B -> Prop) (l : list A) :
  Forall (fun x => P (f x)) l <-> Forall P (List.map f l).
Proof.
  induction l as [|x l IH]; simpl; [split; intros; constructor|].
  rewrite !Forall_cons. by rewrite IH.
Qed.

Lemma store_Forall {B} (f : Message -> B) (P : B -> Prop) (m' : Message)
    (msgs : list Message) :
  (forall x, In x msgs -> m_ref x = m_ref m' -> f x = f m') ->
  Forall (fun x => P (f x)) msgs ->
  Forall (fun x => P (f x)) (store m' msgs).
Proof.
  intros Hsame Hall. apply (proj2 (Forall_through f P _)).
  rewrite (store_map f) by done. exact (proj1 (Forall_through f P _) Hall).
Qed.

(** A change of fields that the invariant does not read. *)
Lemma healthy_same cl st st' :
  messages st' = messages st ->
  messageIdCounter st' = messageIdCounter st ->
  next_ref st' = next_ref st ->
  loadingTimer st' = false ->
  requestManager st' = requestManager st ->
  healthy (mkSession st cl) -> healthy (mkSession st' cl).
Proof.
  intros Hm Hc Hr Ht Hrm [Hids Hretry _ Hrefs Hman Hcl Hnd]. simpl in *.
  split; simpl; unfold ids_ordered, none_retryable, refs_fresh in *;
    rewrite ?Hm, ?Hc, ?Hr, ?Hrm; done.
Qed.

Lemma healthy_set_manager cl st rm :
  consistent rm ->
  healthy (mkSession st cl) -> healthy (mkSession (set_requestManager rm st) cl).
Proof. intros Hrm [Hids Hretry Ht Hrefs _ Hcl Hnd]. by split. Qed.

Lemma healthy_addMessage cl now type content options st :
  originalMessage options = None ->
  healthy (mkSession st cl) ->
  healthy (mkSession (addMessage now type content options st) cl).
Proof.
  intros Hopt [Hids Hretry Ht Hrefs Hman Hcl Hnd]. simpl in *. split; simpl.
  - by apply addMessage_ids_ordered.
  - by apply addMessage_none_retryable.
  - done.
  - unfold refs_fresh in *. simpl. apply Forall_app. split.
    + eapply Forall_impl; [exact Hrefs|]. intros y Hy. simpl in Hy. lia.
    + constructor; [simpl; lia | constructor].
  - done.
  - eapply Forall_impl; [exact Hcl|]. intros tw [Hlt Hagree]. split; [lia|].
    intros m Hin Href. apply in_app_iff in Hin as [Hin|[<-|[]]]; [by apply Hagree|].
    simpl in Href. lia.
  - done.
Qed.

Lemma healthy_clear cl st st' :
  messages st' = [] ->
  messageIdCounter st' = messageIdCounter st ->
  next_ref st' = next_ref st ->
  loadingTimer st' = false ->
  requestManager st' = requestManager st ->
  healthy (mkSession st cl) -> healthy (mkSession st' cl).
Proof.
  intros Hm Hc Hr Ht Hrm [(Hcounter & _) _ _ _ Hman Hcl Hnd]. simpl in *.
  split; simpl; unfold ids_ordered, none_retryable, refs_fresh;
    rewrite ?Hm, ?Hc, ?Hr, ?Hrm; try done.
  - repeat split; [done | constructor | constructor].
  - eapply Forall_impl; [exact Hcl|]. intros tw [Hlt _]. by split.
Qed.

Lemma closure_refs_insert k (tw tw' : Typing) (cl : list Typing) :
  cl !! k = Some tw ->
  m_ref (message tw') = m_ref (message tw) ->
  List.map (fun c => m_ref (message c)) (<[k := tw']> cl)
  = List.map (fun c => m_ref (message c)) cl.
Proof.
  intros Hk Href.
  change (List.map ?f ?l) with (f <$> l).
  rewrite list_fmap_insert. apply list_insert_id.
  rewrite list_lookup_fmap, Hk. simpl. by rewrite Href.
Qed.

(** One call of [typeWriter] by a closure of the session. *)
Lemma healthy_typeWriter cl k tw st :
  cl !! k = Some tw ->
  healthy (mkSession st cl) ->
  healthy (mkSession (typeWriter tw st).2 (<[k := (typeWriter tw st).1]> cl)).
Proof.
  intros Hk [Hids Hretry Ht Hrefs Hman Hcl Hnd]. simpl in *.
  pose proof (proj1 (Forall_lookup _ _) Hcl k tw Hk) as [Hlt Hagree].
  assert (Hother : forall j c, j <> k -> cl !! j = Some c ->
                     m_ref (message c) <> m_ref (message tw)).
  { intros j c Hjk Hj Heq. apply Hjk.
    eapply (NoDup_lookup _ j k (m_ref (message tw)) Hnd).
    - change (List.map ?f ?l) with (f <$> l).
      by rewrite list_lookup_fmap, Hj, <- Heq.
    - change (List.map ?f ?l) with (f <$> l).
      by rewrite list_lookup_fmap, Hk. }
  unfold typeWriter.
  destruct (i tw <? String.length (fullContent tw))%nat; simpl.
  - set (m' := set_content _ (message tw)).
    assert (Hsame : forall x, In x (messages st) -> m_ref x = m_ref m' ->
                      x = message tw) by (intros x Hx Hr; by apply Hagree).
    split; simpl.
    + destruct Hids as (Hc & Hsorted & Hbound). repeat split; simpl; [done| |].
      * rewrite (store_map m_id); [done|]. intros x Hx Hr.
        by rewrite (Hsame x Hx Hr).
      * apply (store_Forall m_id (fun id => 1 <= id <= messageIdCounter st));
          [|done]. intros x Hx Hr. by rewrite (Hsame x Hx Hr).
    + unfold none_retryable in *. simpl.
      apply (store_Forall m_options (fun o => originalMessage o = None));
        [|done]. intros x Hx Hr. by rewrite (Hsame x Hx Hr).
    + done.
    + unfold refs_fresh in *. simpl.
      by apply (store_Forall m_ref (fun r => (r < next_ref st)%nat)).
    + done.
    + apply Forall_lookup. intros j c Hj.
      destruct (decide (j = k)) as [->|Hjk].
      * rewrite list_lookup_insert_eq in Hj by by eapply lookup_lt_Some.
        injection Hj as <-. simpl. split; [done|].
        intros x Hx Hr. apply store_elem in Hx as [->|[_ Hne]]; done.
      * rewrite list_lookup_insert_ne in Hj by done.
        pose proof (proj1 (Forall_lookup _ _) Hcl j c Hj) as [Hltc Hagreec].
        split; [done|]. intros x Hx Hr.
        apply store_elem in Hx as [->|[Hx _]]; [|by apply Hagreec].
        exfalso. apply (Hother j c Hjk Hj). by rewrite <- Hr.
    + by rewrite (closure_refs_insert k tw).
  - split; simpl; try done.
    + apply Forall_lookup. intros j c Hj.
      destruct (decide (j = k)) as [->|Hjk].
      * rewrite list_lookup_insert_eq in Hj by by eapply lookup_lt_Some.
        injection Hj as <-. by simpl.
      * rewrite list_lookup_insert_ne in Hj by done.
        by apply (proj1 (Forall_lookup _ _) Hcl j c).
    + by rewrite (closure_refs_insert k tw).
Qed.

Lemma healthy_frame cl k tw st :
  cl !! k = Some tw ->
  healthy (mkSession st cl) ->
  healthy (mkSession (frame (tw, st)).2 (<[k := (frame (tw, st)).1]> cl)).
Proof.
  intros Hk Hh. unfold frame. simpl. destruct (scheduled tw).
  - by apply healthy_typeWriter.
  - simpl. by rewrite list_insert_id.
Qed.

(** [_streamMessage]: a new message, a new closure, and its first call. *)
Lemma healthy_streamMessage cl now type content st :
  healthy (mkSession st cl) ->
  healthy (mkSession (_streamMessage now type content st).2
                     (cl ++ [(_streamMessage now type content st).1])).
Proof.
  intros Hh.
  pose proof (healthy_addMessage cl now type "" no_options st eq_refl Hh) as Hp.
  change (addMessage now type "" no_options st)
    with (streamMessage_push now type st).2 in Hp.
  set (pushed := streamMessage_push now type st) in *.
  set (tw0 := mkTyping pushed.1 content 0 false 0).
  assert (Hh0 : healthy (mkSession pushed.2 (cl ++ [tw0]))).
  { destruct Hp as [Hids Hretry Ht Hrefs Hman Hcl Hnd].
    destruct Hh as [_ _ _ Hrefs0 _ Hcl0 _]. simpl in *.
    split; simpl; try done.
    - apply Forall_app. split; [done|]. constructor; [|constructor].
      simpl. split; [lia|]. intros m Hin Href.
      apply in_app_iff in Hin as [Hin|[<-|[]]]; [|done].
      unfold refs_fresh in Hrefs0. rewrite Forall_forall in Hrefs0.
      apply list_elem_of_In, Hrefs0 in Hin. simpl in Hin. lia.
    - rewrite List.map_app. simpl. apply NoDup_app.
      split; [done|]. split; [|apply NoDup_singleton].
      intros r Hr Hr'. apply list_elem_of_singleton in Hr'. subst r.
      apply list_elem_of_fmap in Hr as (c & Hc & Hin).
      rewrite Forall_forall in Hcl0. apply Hcl0 in Hin as [Hlt _]. lia. }
  assert (Hk : (cl ++ [tw0]) !! length cl = Some tw0)
    by by rewrite lookup_app_r, Nat.sub_diag.
  pose proof (healthy_typeWriter _ _ _ _ Hk Hh0) as Hh1.
  replace (<[length cl := (typeWriter tw0 pushed.2).1]> (cl ++ [tw0]))
    with (cl ++ [(typeWriter tw0 pushed.2).1]) in Hh1; [exact Hh1|].
  replace (length cl) with (length cl + 0)%nat by lia.
  by rewrite insert_app_r.
Qed.

(** Goes down through the setters and [addMessage] of a handler. *)
Local Ltac peel Ht :=
  repeat match goal with
  | |- healthy (mkSession (showLoading ?y) _) =>
      rewrite (showLoading_loading y) by done
  | |- healthy (mkSession (set_requestManager ?rm ?y) _) =>
      apply healthy_set_manager
  | |- healthy (mkSession (set_attachedFile _ ?y) _) =>
      apply (healthy_same _ y); [done | done | done | simpl; first [reflexivity | exact Ht] | done |]
  | |- healthy (mkSession (set_messageInput _ ?y) _) =>
      apply (healthy_same _ y); [done | done | done | simpl; first [reflexivity | exact Ht] | done |]
  | |- healthy (mkSession (set_isLoading _ ?y) _) =>
      apply (healthy_same _ y); [done | done | done | simpl; first [reflexivity | exact Ht] | done |]
  | |- healthy (mkSession (set_currentModel _ ?y) _) =>
      apply (healthy_same _ y); [done | done | done | simpl; first [reflexivity | exact Ht] | done |]
  | |- healthy (mkSession (set_localStorage _ ?y) _) =>
      apply (healthy_same _ y); [done | done | done | simpl; first [reflexivity | exact Ht] | done |]
  | |- healthy (mkSession (set_errorModal _ ?y) _) =>
      apply (healthy_same _ y); [done | done | done | simpl; first [reflexivity | exact Ht] | done |]
  | |- healthy (mkSession (saveState ?a ?y) _) =>
      rewrite (saveState_storage a y)
  | |- healthy (mkSession (hideLoading ?y) _) =>
      apply (healthy_same _ y); [done | done | done | done | done |]
  | |- healthy (mkSession (addMessage _ _ _ _ ?y) _) =>
      apply healthy_addMessage; [done|]
  end.

Local Ltac split_call rm Hrm :=
  let Hst := fresh "Hst" in
  match goal with
  | |- context [callTranscribeAPI ?a ?b ?c] =>
      destruct (callTranscribeAPI_state a b c) as (rm & Hst & Hrm);
      destruct (callTranscribeAPI a b c) as [? ?]
  | |- context [callChatAPI ?a ?b ?c] =>
      destruct (callChatAPI_state a b c) as (rm & Hst & Hrm);
      destruct (callChatAPI a b c) as [? ?]
  | Hm : currentModel _ = Some _
    |- context [callUploadAndChatAPI ?a ?b ?c ?d] =>
      destruct (callUploadAndChatAPI_state a b c d) as (rm & Hst & Hrm);
      [simpl; rewrite Hm; eauto|];
      destruct (callUploadAndChatAPI a b c d) as [? ?]
  end; cbn [fst] in Hst |- *; rewrite Hst; clear Hst.

Lemma healthy_sendMessage cl t_file t_text t_key st :
  healthy (mkSession st cl) ->
  healthy (mkSession (sendMessage formatFileSize t_file t_text t_key st).1 cl).
Proof.
  intros Hh. destruct (send_guard st) eqn:Hg;
    [|by rewrite (sendMessage_skip formatFileSize t_file t_text t_key st Hg)].
  pose proof (healthy_timer _ Hh) as Ht. pose proof (healthy_manager _ Hh) as Hman.
  simpl in Ht, Hman.
  revert Hg. unfold send_guard, sendMessage.
  destruct (messageInput st) as [v|], (currentModel st) as [m|] eqn:Hm; try done.
  destruct (isLoading st) eqn:Hl; [done|]. cbn [negb andb]. intros Hg.
  destruct (attachedFile st) as [f|] eqn:Hf.
  - rewrite bool_decide_eq_true_2 by eauto. rewrite andb_false_r.
    destruct (truthy (trim v)), (startsWith "audio" (file_type f));
      split_call rm Hrm;
      (apply healthy_set_manager; [apply Hrm; simpl; exact Hman|]);
      peel Ht; exact Hh.
  - rewrite bool_decide_eq_false_2 in * by by intros [].
    rewrite orb_false_r in Hg. rewrite Hg. cbn [negb andb].
    split_call rm Hrm.
    apply healthy_set_manager; [apply Hrm; simpl; exact Hman|].
    peel Ht. exact Hh.
Qed.

(** Every step of a session keeps it healthy. *)
Lemma healthy_step ss a ss' :
  session_step formatFileSize ss a ss' -> healthy ss -> healthy ss'.
Proof.
  intros Hstep Hh. pose proof (healthy_timer _ Hh) as Ht.
  destruct Hstep as [ss text v Hv|ss file|ss|ss t_file t_text t_key
                    |ss err file|ss now text|ss now content|ss k tw Hk
                    |ss accepts|ss now|ss accepts|ss cleared saved model
                    |ss removes accepts|ss t_file t_text t_key messageId
                    |ss e rm Hrm];
    destruct ss as [st cl]; simpl in *.
  - peel Ht. exact Hh.
  - peel Ht. exact Hh.
  - peel Ht. exact Hh.
  - by apply healthy_sendMessage.
  - destruct (sendMessage_failed_fields err file st)
      as (_ & _ & _ & _ & Ht' & Hm' & Hc' & Hr' & Hrm' & _).
    by apply (healthy_same cl st).
  - unfold sendMessage_transcribed. peel Ht. exact Hh.
  - by apply healthy_streamMessage.
  - by apply healthy_frame.
  - unfold sendMessage_streamed. rewrite saveState_storage. peel Ht. exact Hh.
  - unfold cancelLoading. apply healthy_addMessage; [done|].
    apply (healthy_same cl (set_requestManager (cancelAllRequests (requestManager st)) st));
      [done..|].
    apply healthy_set_manager; [|exact Hh].
    apply (consistent_step (requestManager st) CancelAll); [apply step_cancel|].
    exact (healthy_manager _ Hh).
  - unfold clearChat. rewrite saveState_storage.
    by apply (healthy_clear cl st).
  - unfold selectModel, clearChat. rewrite saveState_storage.
    rewrite (saveState_storage cleared).
    by apply (healthy_clear cl st).
  - unfold goToModelSelection. destruct removes; peel Ht; exact Hh.
  - rewrite retryMessage_nothing; [exact Hh|]. exact (healthy_retry _ Hh).
  - apply healthy_set_manager; [|exact Hh].
    eapply consistent_step; [eassumption|]. exact (healthy_manager _ Hh).
Qed.

Lemma started_healthy st : started st -> healthy (mkSession st []).
Proof.
  intros (Hm & Hc & Ht & Hman). split; simpl;
    unfold ids_ordered, none_retryable, refs_fresh; rewrite ?Hm; try done.
  - repeat split; [done | constructor | constructor].
  - constructor.
Qed.

Lemma reachable_healthy start ss :
  started start -> session_reachable formatFileSize start ss -> healthy ss.
Proof.
  intros Hstart. induction 1 as [|ss a ss' _ IH Hstep].
  - by apply started_healthy.
  - by eapply healthy_step.
Qed.

Lemma open_page_started input conversation loaded reads store :
  saved_messages store = [] ->
  started (open_page input conversation loaded reads store).
Proof.
  unfold saved_messages, open_page, initialize, loadSavedState.
  intros Hsaved.
  assert (Hinit : consistent (@RequestManager.init Request value))
    by apply consistent_init.
  destruct loaded as [error|data_models]; [by repeat split|].
  destruct reads; [|by repeat split].
  unfold loadSavedState_body. simpl.
  destruct (selectedModel store) as [old|]; simpl;
    [destruct (truthy old); [destruct (List.find _ data_models)|]|]; simpl;
    (destruct (chatMessages store) as [[parse_error|saved]|]; simpl;
     [|subst saved|]; by repeat split).
Qed.

(** ** The types of the messages *)

Lemma user_or_ai_kept (m : Message) :
  user_or_ai m -> not_file_attachment m = true.
Proof. unfold not_file_attachment. by intros [-> | ->]. Qed.

Lemma store_all (P : Message -> Prop) (m' : Message) (msgs : list Message) :
  P m' -> Forall P msgs -> Forall P (store m' msgs).
Proof.
  intros Hm'. unfold store. induction 1 as [|x l Hx _ IH]; simpl; [constructor|].
  constructor; [by destruct (Nat.eqb (m_ref x) (m_ref m')) | exact IH].
Qed.

Lemma typeWriter_user_or_ai tw st :
  user_or_ai (message tw) -> Forall user_or_ai (messages st) ->
  user_or_ai (message (typeWriter tw st).1)
  /\ Forall user_or_ai (messages (typeWriter tw st).2).
Proof.
  intros Htw Hst. unfold typeWriter.
  destruct (i tw <? String.length (fullContent tw))%nat; simpl; [|done].
  split; [exact Htw|]. by apply store_all.
Qed.

Lemma frame_user_or_ai tw st :
  user_or_ai (message tw) -> Forall user_or_ai (messages st) ->
  user_or_ai (message (frame (tw, st)).1)
  /\ Forall user_or_ai (messages (frame (tw, st)).2).
Proof.
  intros Htw Hst. unfold frame. simpl.
  destruct (scheduled tw); [by apply typeWriter_user_or_ai | done].
Qed.

(** The messages [sendMessage] adds are of type [user]. *)
Lemma sendMessage_user_or_ai t_file t_text t_key st :
  Forall user_or_ai (messages st) ->
  Forall user_or_ai (messages (sendMessage formatFileSize t_file t_text t_key st).1).
Proof.
  intros Hst. destruct (send_guard st) eqn:Hg;
    [|by rewrite (sendMessage_skip formatFileSize t_file t_text t_key st Hg)].
  revert Hg. unfold send_guard, sendMessage.
  destruct (messageInput st) as [v|], (currentModel st) as [m|] eqn:Hm; try done.
  destruct (isLoading st) eqn:Hl; [done|]. cbn [negb andb]. intros Hg.
  destruct (attachedFile st) as [f|] eqn:Hf.
  - rewrite bool_decide_eq_true_2 by eauto. rewrite andb_false_r.
    destruct (truthy (trim v)), (startsWith "audio" (file_type f));
      split_call rm Hrm; simpl;
      repeat (apply Forall_app; split; [|by repeat constructor; left]);
      exact Hst.
  - rewrite bool_decide_eq_false_2 in * by by intros [].
    rewrite orb_false_r in Hg. rewrite Hg. cbn [negb andb].
    split_call rm Hrm. simpl.
    apply Forall_app. split; [exact Hst | by repeat constructor; left].
Qed.

Lemma retryMessage_user_or_ai t_file t_text t_key messageId st :
  Forall user_or_ai (messages st) ->
  Forall user_or_ai
    (messages (retryMessage formatFileSize t_file t_text t_key messageId st).1).
Proof.
  intros Hst. unfold retryMessage.
  destruct (list_find _ (messages st)) as [[index failed]|]; [|done].
  destruct (originalMessage (m_options failed)) as [text|]; [|done].
  destruct (truthy text); [|done]. simpl.
  destruct (messageInput st); simpl; [|by apply Forall_delete].
  apply sendMessage_user_or_ai. simpl. by apply Forall_delete.
Qed.

(** No step of a session gives a message another type. *)
Lemma plain_types_step ss a ss' :
  session_step formatFileSize ss a ss' -> plain_types ss -> plain_types ss'.
Proof.
  intros Hstep [Hst Hcl].
  destruct Hstep as [ss text v Hv|ss file|ss|ss t_file t_text t_key
                    |ss err file|ss now text|ss now content|ss k tw Hk
                    |ss accepts|ss now|ss accepts|ss cleared saved model
                    |ss removes accepts|ss t_file t_text t_key messageId
                    |ss e rm Hrm];
    destruct ss as [st cl]; unfold plain_types;
    cbn [app closures] in *.
  - by split.
  - by split.
  - by split.
  - split; [by apply sendMessage_user_or_ai | exact Hcl].
  - split; [by rewrite sendMessage_failed_messages | exact Hcl].
  - split; [|exact Hcl]. unfold sendMessage_transcribed. simpl.
    apply Forall_app. split; [exact Hst|]. by repeat constructor; right.
  - assert (Hpushed : Forall user_or_ai (messages (streamMessage_push now "ai" st).2)).
    { simpl. apply Forall_app. split; [exact Hst | by repeat constructor; right]. }
    destruct (typeWriter_user_or_ai
                (mkTyping (streamMessage_push now "ai" st).1 content 0 false 0)
                (streamMessage_push now "ai" st).2) as [Htw Hmsgs];
      [by right | exact Hpushed |].
    split; [exact Hmsgs|]. apply Forall_app. split; [exact Hcl|].
    constructor; [exact Htw | constructor].
  - pose proof (proj1 (Forall_lookup _ _) Hcl k tw Hk) as Htw.
    destruct (frame_user_or_ai tw st Htw Hst) as [Htw' Hmsgs].
    split; [exact Hmsgs|]. by apply Forall_insert.
  - split; [|exact Hcl]. unfold sendMessage_streamed.
    by rewrite saveState_storage.
  - split; [|exact Hcl]. unfold cancelLoading, addMessage. simpl.
    apply Forall_app. split; [exact Hst|]. by repeat constructor; right.
  - split; [|exact Hcl]. unfold clearChat. rewrite saveState_storage.
    constructor.
  - split; [|exact Hcl]. unfold selectModel, clearChat.
    rewrite saveState_storage, (saveState_storage cleared). constructor.
  - split; [|exact Hcl]. unfold goToModelSelection.
    destruct removes; [by rewrite saveState_storage | done].
  - split; [by apply retryMessage_user_or_ai | exact Hcl].
  - by split.
Qed.

Lemma reachable_plain_types start ss :
  messages start = [] -> session_reachable formatFileSize start ss ->
  plain_types ss.
Proof.
  intros Hstart. induction 1 as [|ss a ss' _ IH Hstep].
  - split; simpl; [rewrite Hstart|]; constructor.
  - by eapply plain_types_step.
Qed.

Lemma session_run_step a ss ss' :
  session_run formatFileSize a ss = Some ss' ->
  session_step formatFileSize ss a ss'.
Proof.
  destruct a; simpl; try (intros [= <-]; by constructor).
  - destruct (messageInput (app ss)) as [v|] eqn:Hv; [|done].
    intros [= <-]. by apply (step_type_in _ ss text v).
  - destruct (closures ss !! k) as [tw|] eqn:Hk; [|done].
    intros [= <-]. by apply step_frame_runs.
Qed.

Lemma session_runs_reachable start l ss ss' :
  session_reachable formatFileSize start ss ->
  session_runs formatFileSize l ss = Some ss' ->
  session_reachable formatFileSize start ss'.
Proof.
  revert ss. induction l as [|a l IH]; intros ss Hss; simpl.
  - by intros [= <-].
  - destruct (session_run formatFileSize a ss) as [ss1|] eqn:Hrun; [|done].
    apply IH. eapply session_next; [exact Hss|]. by apply session_run_step.
Qed.

(** C4 on the code: the filter of [callChatAPI] looks for the type
    [file-attachment], which no message ever has.  On a page that starts
    with an empty list, whatever is done: every message is of type [user]
    or [ai], the filter removes nothing, and the history is made of the
    last ten messages of the list, whatever they are.  The notice
    [sendMessage] adds for an attached file is a message of type [user]:
    it is in the list, it passes the filter and it is in the history taken
    from that list.  And the history of a chat request is taken from the
    last ten messages of the list, the text that is sent being the last of
    them. *)
Theorem history_keeps_attachment_notices start ss :
  messages start = [] ->
  session_reachable formatFileSize start ss ->
  let st := app ss in
  Forall user_or_ai (messages st)
  /\ List.filter not_file_attachment (messages st) = messages st
  /\ chat_history (messages st)
     = List.map history_entry (slice_last 10 (messages st))
  /\ (forall t_file t_text t_key f,
        send_guard st = true ->
        attachedFile st = Some f ->
        let notice :=
          mkMessage (next_ref st) (messageIdCounter st + 1) "user"
                    ("📄 " +:+ file_name f +:+ " ("
                     +:+ formatFileSize (file_size f) +:+ ")")
                    t_file no_options in
        let st1 := (sendMessage formatFileSize t_file t_text t_key st).1 in
        In notice (messages st1)
        /\ not_file_attachment notice = true
        /\ In (history_entry notice) (chat_history (messages st1)))
  /\ (forall t_file t_text t_key v m,
        messageInput st = Some v ->
        currentModel st = Some m ->
        isLoading st = false ->
        attachedFile st = None ->
        truthy (trim v) = true ->
        activeRequests (requestManager st) !! requestKey "chat-" t_key = None ->
        exists p,
          invoked (requestManager
                     (sendMessage formatFileSize t_file t_text t_key st).1)
          = (p, ChatRequest (model_id m) (trim v) (conversationId st)
                  (List.map history_entry
                     (slice_last 10
                        (messages st
                         ++ [mkMessage (next_ref st) (messageIdCounter st + 1)
                                       "user" (trim v) t_text no_options]))))
              :: invoked (requestManager st)).
Proof.
  intros Hstart Hreach st.
  destruct (reachable_plain_types start ss Hstart Hreach) as [Htypes _].
  fold st in Htypes.
  assert (Hkept : Forall (fun m => not_file_attachment m = true) (messages st)).
  { eapply Forall_impl; [exact Htypes|]. apply user_or_ai_kept. }
  split; [exact Htypes|]. split; [by apply filter_all|].
  split; [unfold chat_history; by rewrite filter_all|]. split.
  - intros t_file t_text t_key f Hg Hf notice st1.
    assert (Hadded : exists rest,
               messages st1 = messages st ++ notice :: rest
               /\ (length rest <= 1)%nat
               /\ Forall (fun m => not_file_attachment m = true) rest).
    { subst st1 notice. revert Hg. unfold send_guard, sendMessage.
      destruct (messageInput st) as [v|], (currentModel st) as [m|] eqn:Hm;
        try done.
      destruct (isLoading st) eqn:Hl; [done|]. cbn [negb andb]. intros _.
      rewrite Hf. rewrite bool_decide_eq_true_2 by eauto.
      rewrite andb_false_r.
      destruct (truthy (trim v)), (startsWith "audio" (file_type f));
        split_call rm Hrm; simpl; rewrite <- ?app_assoc; simpl;
        eexists; (split; [reflexivity|]); split; simpl;
        first [lia | by repeat constructor]. }
    destruct Hadded as (rest & Hmessages & Hlen & Hrest).
    rewrite Hmessages. split; [|split; [reflexivity|]].
    + apply in_app_iff. right. by left.
    + apply chat_history_recent; [|simpl; lia|by left].
      by constructor.
  - intros t_file t_text t_key v m Hv Hm Hl Hf Ht Hfree.
    destruct (sendMessage_chat_request formatFileSize t_file t_text t_key st v m
                Hv Hm Hl Hf Ht Hfree) as [_ Hinvoked].
    exists (next_id (requestManager st)). rewrite Hinvoked.
    unfold chat_history. rewrite filter_all; [done|].
    apply Forall_app. split; [exact Hkept | by repeat constructor].
Qed.

(** X23: on a page that starts without saved messages, the identifiers of
    the messages of the list are at least 1, at most the counter, and
    strictly increasing along the list, whatever is sent, answered, typed,
    failed, cancelled, cleared or retried, in any order. *)
Theorem session_ids_increase start ss :
  started start ->
  session_reachable formatFileSize start ss ->
  StronglySorted Z.lt (List.map m_id (messages (app ss)))
  /\ Forall (fun m => 1 <= m_id m <= messageIdCounter (app ss))
            (messages (app ss)).
Proof.
  intros Hstart Hreach.
  destruct (healthy_ids _ (reachable_healthy start ss Hstart Hreach))
    as (_ & Hsorted & Hbound).
  by split.
Qed.

(** X24: on such a page no message ever keeps a text under
    [originalMessage], so [retryMessage] does nothing, whatever message it
    is called for. *)
Theorem session_never_retries start ss t_file t_text t_key messageId :
  started start ->
  session_reachable formatFileSize start ss ->
  Forall (fun m => originalMessage (m_options m) = None) (messages (app ss))
  /\ retryMessage formatFileSize t_file t_text t_key messageId (app ss)
     = (app ss, None).
Proof.
  intros Hstart Hreach.
  pose proof (healthy_retry _ (reachable_healthy start ss Hstart Hreach)) as H.
  split; [exact H | by apply retryMessage_nothing].
Qed.

(** X25: on such a page the watchdog timer of [showLoading] is never
    armed: [showLoading] is only called by [sendMessage], after [isLoading]
    has been set. *)
Theorem session_watchdog_never_armed start ss :
  started start ->
  session_reachable formatFileSize start ss ->
  loadingTimer (app ss) = false.
Proof.
  intros Hstart Hreach.
  exact (healthy_timer _ (reachable_healthy start ss Hstart Hreach)).
Qed.

(** X26: on such a page every entry of the map of the request manager
    belongs to a call that is still suspended under that key and whose
    operation has been called; when no call is suspended the map is empty
    and no timer is armed. *)
Theorem session_entries_are_suspended_calls start ss :
  started start ->
  session_reachable formatFileSize start ss ->
  let rm := requestManager (app ss) in
  (forall key p, activeRequests rm !! key = Some p ->
                 awaiting rm !! p = Some key /\ (p < next_id rm)%nat)
  /\ (awaiting rm = ∅ -> activeRequests rm = ∅ /\ timers rm = ∅).
Proof.
  intros Hstart Hreach rm.
  pose proof (healthy_manager _ (reachable_healthy start ss Hstart Hreach)) as Hs.
  fold rm in Hs. split.
  - intros key p Hkey. apply (entry_awaited _ Hs) in Hkey. split; [done|].
    by apply (awaited_known _ Hs) in Hkey.
  - intros Hempty. split; apply map_eq; intros k; rewrite lookup_empty.
    + destruct (activeRequests rm !! k) eqn:E; [|done].
      apply (entry_awaited _ Hs) in E. by rewrite Hempty, lookup_empty in E.
    + destruct (timers rm !! k) eqn:E; [|done].
      apply (timer_running _ Hs) in E as [fn E].
      apply (running_awaited _ Hs) in E as [[key E] _].
      by rewrite Hempty, lookup_empty in E.
Qed.

End SessionFacts.

(** * The examples of the properties above *)

Lemma sendMessage_leaves_witness :
  App.messageInput (App.sendMessage App.one_KB 1 2 3 (App.typed "hello")).1
  = Some ""
  /\ App.loadingTimer (App.sendMessage App.one_KB 1 2 3 (App.typed "hello")).1
     = false.
Proof.
  destruct (sendMessage_leaves App.one_KB 1 2 3 (App.typed "hello") eq_refl)
    as (Hinput & _ & _ & _ & Htimer & _).
  split; [exact Hinput | exact Htimer].
Defined.

Lemma send_routes_witness :
  exists t,
    (App.sendMessage App.one_KB 1 2 3 App.typed_with_file).2
    = Some (App.Upload, inr t).
Proof.
  destruct (send_routes App.one_KB 1 2 3 App.typed_with_file "what is this"
              (App.mkModel "llama") eq_refl eq_refl eq_refl) as (t & Ht & _).
  by exists t.
Defined.

Lemma failed_send_loses_input_witness :
  App.messageInput
    (App.sendMessage_failed (new_Error "HTTP 500: boom") None
       (App.sendMessage App.one_KB 1 2 3 (App.typed "hello")).1)
  = Some "".
Proof.
  apply (failed_send_loses_input App.one_KB 1 2 3 (new_Error "HTTP 500: boom")
           None (App.typed "hello") eq_refl).
Defined.

Lemma renamed_errors_are_explained_witness :
  App.errorModal
    (App.sendMessage_failed
       (RequestManager.classify (mkError "AbortError" "The user aborted a request."))
       None (App.typed "hello"))
  = Some App.ERROR_MESSAGES_timeout
  /\ App.errorModal
       (App.sendMessage_failed
          (RequestManager.classify (mkError "TypeError" "Failed to fetch"))
          None (App.typed "hello"))
     = Some App.ERROR_MESSAGES_network.
Proof.
  split.
  - apply (renamed_errors_are_explained
             (mkError "AbortError" "The user aborted a request.") None
             (App.typed "hello")). reflexivity.
  - apply (renamed_errors_are_explained (mkError "TypeError" "Failed to fetch")
             None (App.typed "hello")); [discriminate | reflexivity].
Defined.

Lemma bad_request_detail_is_not_shown_witness :
  App.errorModal
    (App.sendMessage_failed
       (RequestManager.classify (Executor.ServerError 500 "quota of 400 requests used"))
       None (App.typed "hello"))
  = Some "Failed to process message. 400 Error: undefined".
Proof.
  apply (bad_request_detail_is_not_shown 500 "quota of 400 requests used" None
           (App.typed "hello")).
  - vm_compute; reflexivity.
  - vm_compute; reflexivity.
  - right. vm_compute; reflexivity.
Defined.

Lemma streaming_touches_one_message_witness :
  App.messages (App.frames 2 (App._streamMessage 7 "ai" "abc" (App.typed ""))).2
  = [] ++ [App.message
             (App.frames 2 (App._streamMessage 7 "ai" "abc" (App.typed ""))).1].
Proof.
  destruct (streaming_touches_one_message 7 "ai" "abc" (App.typed "") 2)
    as (Hstate & _ & _); [constructor|].
  exact (f_equal App.messages Hstate).
Defined.

Lemma answered_chat_send_witness :
  List.map App.m_content
    (App.messages
       (App.sendMessage_streamed App.stores_all
          (App.frames 2
             (App._streamMessage 9 "ai" "hi"
                (App.sendMessage App.one_KB 1 2 3 (App.typed "hello")).1)).2))
  = ["hello"; "hi"]
  /\ App.selectedModel
       (App.localStorage
          (App.sendMessage_streamed App.stores_all
             (App.frames 2
                (App._streamMessage 9 "ai" "hi"
                   (App.sendMessage App.one_KB 1 2 3 (App.typed "hello")).1)).2))
     = Some "llama"
  /\ App.localStorage
       (App.sendMessage_streamed App.stores_none
          (App.frames 2
             (App._streamMessage 9 "ai" "hi"
                (App.sendMessage App.one_KB 1 2 3 (App.typed "hello")).1)).2)
     = App.localStorage (App.typed "hello").
Proof.
  destruct (answered_chat_send App.one_KB 1 2 3 9 "hi" App.stores_all
              (App.typed "hello") "hello" (App.mkModel "llama")
              eq_refl eq_refl eq_refl eq_refl eq_refl)
    as (_ & Hmessages & _ & Hstored & _); [constructor|].
  destruct (answered_chat_send App.one_KB 1 2 3 9 "hi" App.stores_none
              (App.typed "hello") "hello" (App.mkModel "llama")
              eq_refl eq_refl eq_refl eq_refl eq_refl)
    as (_ & _ & _ & _ & Hrefused & _); [constructor|].
  split; [exact (f_equal (List.map App.m_content) Hmessages)|].
  split; [apply Hstored; reflexivity | apply Hrefused; reflexivity].
Defined.

Lemma saved_state_is_restored_witness :
  App.currentModel
    (App.open_page (Some "") "conv_4" (inr [App.mkModel "llama"]) true
       (App.localStorage (App.saveState App.stores_all App.fifteen_messages)))
  = Some (App.mkModel "llama").
Proof.
  destruct (saved_state_is_restored (Some "") "conv_4"
              (inr [App.mkModel "llama"]) true App.stores_all
              App.fifteen_messages) as (Hrestored & _).
  destruct (Hrestored [App.mkModel "llama"] eq_refl eq_refl eq_refl eq_refl)
    as (_ & Hmodel & _).
  apply (Hmodel (App.mkModel "llama")); [reflexivity | by left | discriminate].
Defined.

Lemma clearChat_effects_witness :
  App.messages
    (App.open_page (Some "") "conv_4" (inr [App.mkModel "llama"]) true
       (App.localStorage (App.clearChat App.stores_all App.fifteen_messages)))
  = [].
Proof.
  destruct (clearChat_effects (Some "") "conv_4" (inr [App.mkModel "llama"])
              true 9 "hi" App.stores_all App.stores_all App.fifteen_messages)
    as (_ & _ & _ & _ & _ & _ & Hreopened & _).
  apply Hreopened; reflexivity.
Defined.

Lemma model_selection_effects_witness :
  App.currentModel
    (App.open_page (Some "") "conv_4" (inr [App.mkModel "llama"]) true
       (App.localStorage
          (App.selectModel App.stores_all App.stores_all (App.mkModel "llama")
             App.fifteen_messages)))
  = Some (App.mkModel "llama")
  /\ App.messages
       (App.open_page (Some "") "conv_4" (inr [App.mkModel "llama"]) true
          (App.localStorage
             (App.selectModel App.stores_all App.stores_all (App.mkModel "llama")
                App.fifteen_messages)))
     = [].
Proof.
  destruct (model_selection_effects App.one_KB App.stores_all App.stores_all
              true App.stores_all (App.mkModel "llama") (Some "") "conv_4"
              [App.mkModel "llama"] 1 2 3 App.fifteen_messages)
    as [(_ & _ & Hreopened) _].
  apply Hreopened; [reflexivity | reflexivity | by left | discriminate].
Defined.

(** A voice note attached with nothing typed. *)
Lemma audio_icon_iff_transcribed_witness :
  exists t,
    (App.sendMessage App.one_KB 1 2 3
       (App.set_attachedFile (Some (App.mkFile "note.mp3" 2048 "audio/mpeg"))
          (App.typed ""))).2
    = Some (App.Transcribe, inr t).
Proof.
  destruct (audio_icon_iff_transcribed App.one_KB 1 2 3
              (App.set_attachedFile (Some (App.mkFile "note.mp3" 2048 "audio/mpeg"))
                 (App.typed ""))
              "" (App.mkModel "llama") (App.mkFile "note.mp3" 2048 "audio/mpeg")
              eq_refl eq_refl eq_refl eq_refl) as [Haudio _].
  apply Haudio. reflexivity.
Defined.

(** ["hello"] is sent, the call is cancelled, and ["next"] is sent. *)
Lemma cancelLoading_effects_witness :
  exists p older,
    RequestManager.invoked
      (App.requestManager
         (App.sendMessage App.one_KB 6 7 8 App.cancelled_then_typed).1)
    = (p, App.ChatRequest "llama" "next" "conv_1"
            (older
             ++ [App.mkEntry "ai" "Operation was cancelled by user." 5;
                 App.mkEntry "user" "next" 7]))
        :: RequestManager.invoked
             (App.requestManager
                (App.sendMessage App.one_KB 1 2 3 (App.typed "hello")).1).
Proof.
  destruct (cancelLoading_effects App.one_KB 5
              (App.sendMessage App.one_KB 1 2 3 (App.typed "hello")).1)
    as (_ & _ & _ & _ & _ & Hnext).
  apply (Hnext 6 7 8 "next" (App.mkModel "llama")); reflexivity.
Defined.

Lemma retry_while_loading_drops_message_witness :
  App.messages (App.retryMessage App.one_KB 1 2 3 1 App.retryable_loading).1 = []
  /\ (App.retryMessage App.one_KB 1 2 3 1 App.retryable_loading).2 = None.
Proof.
  destruct (retry_while_loading_drops_message App.one_KB 1 2 3 1
              App.retryable_loading 0%nat
              (App.mkMessage 0 1 "ai" "failed" 5
                 (App.mkOptions true true (Some "hello") false))
              "hello" "" eq_refl eq_refl eq_refl eq_refl eq_refl) as [Hretry _].
  rewrite Hretry. by split.
Defined.

Lemma button_and_guard_witness :
  App.updateSendButton (App.typed "hello") = Some false
  /\ App.sendMessage App.one_KB 1 2 3 App.typed_without_model
     = (App.typed_without_model, None).
Proof.
  destruct (button_and_guard App.one_KB 1 2 3 (App.typed "hello")) as (Hon & _).
  destruct (button_and_guard App.one_KB 1 2 3 App.typed_without_model)
    as (_ & _ & Hoff).
  split; [by apply Hon | by apply Hoff].
Defined.

Lemma answered_transcription_witness :
  List.map App.m_content
    (App.messages
       (App.sendMessage_transcribed 5 (Val (JStr "hi")) (App.typed "")))
  = ["**Transcription:** hi"].
Proof.
  destruct (answered_transcription App.transcribed_200
              [("transcription", JStr "hi")] 5 (App.typed "") eq_refl eq_refl)
    as (_ & Hmessages & _).
  exact (f_equal (List.map App.m_content) Hmessages).
Defined.

Lemma answer_without_response_witness :
  exists error,
    Executor.chat_requestFn (Executor.Responded App.empty_200) = Rejected error
    /\ name error = "TypeError".
Proof.
  destruct (answer_without_response App.empty_200 [] None (App.typed "")
              eq_refl eq_refl eq_refl) as (error & Hchat & _ & Hname & _).
  exists error. by split.
Defined.

(** The session after one [sendMessage] on the page [page_llama]. *)
Lemma page_llama_started : App.started App.page_llama.
Proof. by apply open_page_started. Defined.

Lemma session_sent_reachable :
  App.session_reachable App.one_KB App.page_llama App.session_sent.
Proof.
  apply (App.session_next App.one_KB App.page_llama
           (App.mkSession App.page_llama []) (App.Send 1 2 3));
    [apply App.session_start | apply App.step_send].
Defined.

(** The file [a.pdf] is sent with a question and answered; the next chat
    request carries the notice of the file in its history. *)
Lemma pdf_answered_reachable :
  App.session_reachable App.one_KB App.page_llama App.pdf_answered.
Proof.
  apply (session_runs_reachable App.one_KB App.page_llama App.pdf_actions
           (App.mkSession App.page_llama []) App.pdf_answered);
    [apply App.session_start | vm_compute; reflexivity].
Defined.

Lemma history_keeps_attachment_notices_witness :
  exists p history,
    RequestManager.invoked
      (App.requestManager
         (App.sendMessage App.one_KB 7 8 9 (App.app App.pdf_answered)).1)
    = (p, App.ChatRequest "llama" "and now" "conv_3" history)
        :: RequestManager.invoked (App.requestManager (App.app App.pdf_answered))
    /\ history
       = [App.mkEntry "user" "📄 a.pdf (1 KB)" 1;
          App.mkEntry "user" "what is this" 2;
          App.mkEntry "ai" "ok" 4;
          App.mkEntry "user" "and now" 8].
Proof.
  destruct (history_keeps_attachment_notices App.one_KB App.page_llama
              App.pdf_answered eq_refl pdf_answered_reachable)
    as (_ & _ & _ & _ & Hrequest).
  destruct (Hrequest 7 8 9 "and now" (App.mkModel "llama"))
    as [p Hinvoked]; try (vm_compute; reflexivity).
  exists p. eexists. split; [exact Hinvoked|]. vm_compute. reflexivity.
Defined.

Lemma session_ids_increase_witness :
  Forall (fun m => 1 <= App.m_id m <= App.messageIdCounter (App.app App.session_sent))
         (App.messages (App.app App.session_sent)).
Proof.
  apply (session_ids_increase App.one_KB App.page_llama App.session_sent
           page_llama_started session_sent_reachable).
Defined.

Lemma session_never_retries_witness :
  App.retryMessage App.one_KB 4 5 6 1 (App.app App.session_sent)
  = (App.app App.session_sent, None).
Proof.
  apply (session_never_retries App.one_KB App.page_llama App.session_sent
           4 5 6 1 page_llama_started session_sent_reachable).
Defined.

Lemma session_watchdog_never_armed_witness :
  App.loadingTimer (App.app App.session_sent) = false.
Proof.
  apply (session_watchdog_never_armed App.one_KB App.page_llama
           App.session_sent page_llama_started session_sent_reachable).
Defined.

Lemma session_entries_are_suspended_calls_witness :
  RequestManager.awaiting (App.requestManager (App.app App.session_sent)) !! 0%nat
  = Some (App.requestKey "chat-" 3).
Proof.
  apply (session_entries_are_suspended_calls App.one_KB App.page_llama
           App.session_sent page_llama_started session_sent_reachable).
  vm_compute. reflexivity.
Defined.
